(** * deck.gl layer reconciliation core: a shallow embedding

    Embedded sources:
    - the layer manager (class [LayerManager]),
    - the lifecycle object ([LayerObject]) and the layer state ([LayerState]),
      both in [src/core/lifecycle/lifecycle-object.js],
    - the class [Layer], which extends [LayerObject],
    - the parser of prop type definitions ([parsePropTypes]).

    JavaScript objects live in an explicit store and are named by
    references; methods are state-passing functions that either return a
    value or throw. *)

From Stdlib Require Import ZArith QArith List Bool Lia Ascii String.
From stdpp Require Import base option list strings gmap.

Set Warnings "-register-all,-notation-incompatible-prefix".
Local Open Scope Z_scope.

(* ===================================================================== *)
(** ** Picking colors ([Layer.encodePickingColor], [Layer.decodePickingColor]) *)
(* ===================================================================== *)

Module Picking.

(** ECMAScript [ToInt32] on an integral number: reduction modulo 2^32 into
    the signed range.  The indices handled here are naturals below 2^53,
    for which [i + 1] is computed exactly by the double arithmetic. *)
Definition ToInt32 (n : Z) : Z :=
  (n + 2 ^ 31) mod 2 ^ 32 - 2 ^ 31.

(** [a >> k] and [a & b] both start by [ToInt32] on their operands. *)
Definition js_shr (a k : Z) : Z := Z.shiftr (ToInt32 a) k.
Definition js_and (a b : Z) : Z := ToInt32 (Z.land (ToInt32 a) (ToInt32 b)).

Inductive result (A : Type) : Type :=
| Returns (a : A)
| AssertionFailed (msg : string).
Arguments Returns {A} a.
Arguments AssertionFailed {A} msg.

(** [encodePickingColor(i)]:
    assert((((i + 1) >> 24) & 255) === 0, 'index out of picking color range');
    return [(i + 1) & 255, ((i + 1) >> 8) & 255, (((i + 1) >> 8) >> 8) & 255]; *)
Definition encodePickingColor (i : Z) : result (list Z) :=
  if js_and (js_shr (i + 1) 24) 255 =? 0 then
    Returns [ js_and (i + 1) 255;
              js_and (js_shr (i + 1) 8) 255;
              js_and (js_shr (js_shr (i + 1) 8) 8) 255 ]
  else AssertionFailed "index out of picking color range".

(** A [Uint8Array] holding the given numbers (each stored modulo 256). *)
Definition Uint8Array_from (l : list Z) : list Z := map (fun x => x mod 256) l.

(** [decodePickingColor(color)], for [color] a [Uint8Array]; a missing
    component is [undefined], which makes the sum [NaN] ([None] here). *)
Definition decodePickingColor (color : list Z) : option Z :=
  match color with
  | i1 :: i2 :: i3 :: _ => Some (i1 + i2 * 256 + i3 * 65536 - 1)
  | _ => None
  end.

(** The composition the picking pass performs: colors are written into a
    byte buffer and read back. *)
Definition roundtrip (i : Z) : result (option Z) :=
  match encodePickingColor i with
  | Returns c => Returns (decodePickingColor (Uint8Array_from c))
  | AssertionFailed m => AssertionFailed m
  end.

(** [nullPickingColor()] *)
Definition nullPickingColor : list Z := [0; 0; 0].

(** [calculateInstancePickingColors(attribute, {numInstances})].  The
    attribute's [value] is the byte array of an [UNSIGNED_BYTE] attribute:
    an element is stored modulo 256 and a write past the end is dropped
    (a missing component is [undefined], stored as 0).  The loop counts
    [i] up; a failed assertion leaves what was written so far. *)
Definition store (value : list Z) (k : nat) (x : option Z) : list Z :=
  <[k := default 0 x mod 256]> value.

Fixpoint fill_from (turns : nat) (i size : nat) (value : list Z)
    : list Z * result unit :=
  match turns with
  | O => (value, Returns tt)
  | S turns' =>
      match encodePickingColor (Z.of_nat i) with
      | AssertionFailed m => (value, AssertionFailed m)
      | Returns pickingColor =>
          let value := store value (i * size + 0)%nat (pickingColor !! 0%nat) in
          let value := store value (i * size + 1)%nat (pickingColor !! 1%nat) in
          let value := store value (i * size + 2)%nat (pickingColor !! 2%nat) in
          fill_from turns' (S i) size value
      end
  end.

Definition calculateInstancePickingColors (value : list Z) (size numInstances : nat)
    : list Z * result unit :=
  fill_from numInstances 0 size value.

(** The three bytes stored for instance [i]. *)
Definition stored_color (value : list Z) (size i : nat) : list Z :=
  omap (fun k => value !! (i * size + k)%nat) [0; 1; 2]%nat.


End Picking.

(* ===================================================================== *)
(** ** Values, errors and the log                                          *)
(* ===================================================================== *)

Local Close Scope Z_scope.

(** [LIFECYCLE] of [./constants] (the table itself is not among the
    sources; the members are the ones the sources name, pairwise distinct). *)
Inductive LIFECYCLE : Set :=
| NO_STATE
| MATCHED
| INITIALIZED
| AWAITING_GC
| AWAITING_FINALIZATION
| FINALIZED.

Definition LIFECYCLE_eqb (a b : LIFECYCLE) : bool :=
  match a, b with
  | NO_STATE, NO_STATE | MATCHED, MATCHED | INITIALIZED, INITIALIZED
  | AWAITING_GC, AWAITING_GC | AWAITING_FINALIZATION, AWAITING_FINALIZATION
  | FINALIZED, FINALIZED => true
  | _, _ => false
  end.

(** What a [throw] carries. *)
Inductive error : Set :=
| AssertionError (msg : string)
| TypeError (msg : string)
| UserError (tag : string).

(** Data values: what [props.data], an async [value] or
    [internalState.data] can hold.  Loaded or inline collections are
    opaque tokens. *)
Inductive dataval : Set :=
| DUndefined
| DNull
| DString (s : string)
| DEmptyArray
| DArray (token : nat).

Definition dataval_eqb (a b : dataval) : bool :=
  match a, b with
  | DUndefined, DUndefined | DNull, DNull | DEmptyArray, DEmptyArray => true
  | DString s, DString t => bool_decide (s = t)
  | DArray m, DArray n => Nat.eqb m n
  | _, _ => false
  end.

(** Truthiness of a data value ([[]] is truthy, [''] is not). *)
Definition truthy (d : dataval) : bool :=
  match d with
  | DUndefined | DNull => false
  | DString s => negb (bool_decide (s = ""))
  | DEmptyArray | DArray _ => true
  end.

(** The value of a redraw query: [false], [null] or a reason string. *)
Inductive redraw : Set :=
| RFalse
| RNull
| RReason (s : string).

Definition redraw_truthy (r : redraw) : bool :=
  match r with
  | RReason s => negb (bool_decide (s = ""))
  | _ => false
  end.

Definition redraw_or (a b : redraw) : redraw :=
  if redraw_truthy a then a else b.

(** Resolved properties of a layer.  [p_rest] and [p_triggers] stand for
    the remaining props and the update triggers, compared as wholes. *)
Record Props : Type := {
  p_data : dataval;
  p_rest : nat;
  p_triggers : nat;
  p_dataTransform : nat -> nat;
  p_shadowValues : string -> dataval
}.

(** The subclass hooks, by what a call does: return ([None]) or throw.
    A hook is taken not to call back into the manager and not to write the
    members modelled here. *)
Record Hooks : Set := {
  initializeState : option error;
  shouldUpdateState : option bool;   (* [None]: the default, [changeFlags.propsOrDataChanged] *)
  updateState : option error;
  finalizeState : option error;
  renderLayers : option error;
  getSubLayers_throws : option error
}.

(** The two classes of the sources. *)
Inductive class : Set := LayerObjectClass | LayerClass.

(** A layer object as the application builds it: identity [l_oid],
    the immutable members, and for a composite layer what [getSubLayers]
    yields when asked (the layers below a layer form a finite tree).  The
    mutable members live in the store. *)
Inductive Layer : Type :=
| MkLayer (l_oid : nat) (l_class : class) (l_id : string) (l_props : Props)
          (l_hooks : Hooks) (l_sub : option (list Layer)).

Definition l_oid (l : Layer) : nat := let 'MkLayer o _ _ _ _ _ := l in o.
Definition l_class (l : Layer) : class := let 'MkLayer _ c _ _ _ _ := l in c.
Definition l_id (l : Layer) : string := let 'MkLayer _ _ i _ _ _ := l in i.
Definition l_props (l : Layer) : Props := let 'MkLayer _ _ _ p _ _ := l in p.
Definition l_hooks (l : Layer) : Hooks := let 'MkLayer _ _ _ _ h _ := l in h.
Definition l_sub (l : Layer) : option (list Layer) := let 'MkLayer _ _ _ _ _ s := l in s.
Definition isComposite (l : Layer) : bool :=
  match l_sub l with Some _ => true | None => false end.

(** The calls to [log], [log.log] and [log.warn] of the sources. *)
Inductive log_entry : Set :=
| LogIgnoringUpdate
| WarnMultipleOld (layer : nat)
| WarnMultipleNew (layer : nat)
| WarnMatching (layer : nat) (e : error)
| LogInitializing (layer : nat)
| WarnInitializing (layer : nat) (e : error)
| LogMatched (old new : nat)
| LogUnchanged (id : string)
| LogUpdating (layer : nat) (flags : string)
| WarnUpdate (layer : nat) (e : error)
| WarnFinalization (layer : nat) (e : error)
| LogFinalizing (layer : nat)
| LogFlag (flag : string) (id : string)
| LogInvalidating (id : string).

(* ===================================================================== *)
(** ** The object store                                                    *)
(* ===================================================================== *)

(** [changeFlags]; a flag holds [true], a reason or a map of reasons in the
    sources, and only its truthiness is ever tested. *)
Record ChangeFlags : Set := {
  dataChanged : bool;
  propsChanged : bool;
  updateTriggersChanged : bool;
  viewportChanged : bool;
  propsOrDataChanged : bool;
  somethingChanged : bool
}.

(** [{}] read as change flags: every member [undefined]. *)
Definition noFlags : ChangeFlags :=
  {| dataChanged := false; propsChanged := false; updateTriggersChanged := false;
     viewportChanged := false; propsOrDataChanged := false; somethingChanged := false |}.

(** The mutable members of a [LayerObject] (see its constructor). *)
Record LayerFields : Type := {
  lifecycle : LIFECYCLE;
  state : option nat;
  internalState : option nat;
  oldProps : option Props;        (* [None]: the frozen [EMPTY_PROPS] *)
  context : bool                  (* [true]: the manager's context object *)
}.

(** What the constructor leaves. *)
Definition constructed : LayerFields :=
  {| lifecycle := NO_STATE; state := None; internalState := None;
     oldProps := None; context := false |}.

(** The object [this.state] of a layer: the members the sources read. *)
Record UserState : Set := {
  st_layer : option nat;
  st_model : option nat;
  st_models : option (list nat)
}.

(** Attribute manager and models, external objects: their redraw flags. *)
Record AttributeManager : Set := { am_needsRedraw : bool }.
Record Model : Set := { userData_layer : option nat; md_needsRedraw : redraw }.

(** An entry of [asyncValues] (see [LayerState._getAsyncProp]). *)
Record AsyncProp : Set := {
  lastValue : dataval;
  loadValue : dataval;
  loadPromise : bool;             (* a promise is stored / [null] *)
  loadCount : nat;
  value : dataval;
  ap_data : dataval
}.

(** A [LayerState] with the members [LayerObject] adds to it. *)
Record LayerState : Type := {
  attributeManager : AttributeManager;
  needsRedraw : bool;
  ls_layer : option Layer;
  asyncValues : gmap string nat;
  changeFlags : option ChangeFlags;     (* [None]: [undefined] *)
  ls_data : dataval;
  lastUrl : option string;
  ls_loadPromise : bool
}.

(** Callbacks waiting for a fetch to resolve, with what each closes over. *)
Inductive pending : Type :=
| LoadDataThen (this : Layer)
| LoadAsyncPropThen (this : nat) (asyncProp : nat) (count : nat)
                    (dataTransform : nat -> nat).

(** What the application puts into the array given to [setLayers]. *)
Inductive entry : Type :=
| Falsy
| Item (l : Layer)
| Nested (es : list entry).

(** The members of a [LayerManager]; of its context, the viewport. *)
Record Context : Set := { viewport : option nat }.

Record LayerManager : Type := {
  lastRenderedLayers : nat;       (* the array object last given to [setLayers] *)
  prevLayers : list Layer;
  layers : list Layer;
  mgr_context : Context;
  _needsRedraw : redraw
}.

(** A JavaScript object used as a map from ids to candidates, in
    insertion order; [None] is the value [null].  Ids are taken to be
    ordinary property names (no array index, no member of
    [Object.prototype]): [for ... in] then visits them in insertion order
    and a lookup sees only what was stored. *)
Definition LayerMap : Type := list (string * option Layer).

(** The store, with the one layer manager in it and the two objects
    [_updateLayers] allocates for a pass. *)
Record World : Type := {
  w_mgr : LayerManager;
  w_oldLayerMap : LayerMap;
  w_generatedLayers : list Layer;
  w_layers : gmap nat LayerFields;
  w_states : gmap nat UserState;
  w_istates : gmap nat LayerState;
  w_async : gmap nat AsyncProp;
  w_models : gmap nat Model;
  w_arrays : gmap nat (list entry);
  w_pending : list pending;
  w_log : list log_entry;
  w_next : nat
}.

(** A layer object never touched since construction has no record yet. *)
Definition fields (w : World) (o : nat) : LayerFields :=
  default constructed (w_layers w !! o).

Definition set_layers f (w : World) : World :=
  {| w_mgr := w_mgr w; w_oldLayerMap := w_oldLayerMap w;
     w_generatedLayers := w_generatedLayers w; w_layers := f (w_layers w); w_states := w_states w; w_istates := w_istates w;
     w_async := w_async w; w_models := w_models w; w_arrays := w_arrays w;
     w_pending := w_pending w; w_log := w_log w; w_next := w_next w |}.
Definition set_states f (w : World) : World :=
  {| w_mgr := w_mgr w; w_oldLayerMap := w_oldLayerMap w;
     w_generatedLayers := w_generatedLayers w; w_layers := w_layers w; w_states := f (w_states w); w_istates := w_istates w;
     w_async := w_async w; w_models := w_models w; w_arrays := w_arrays w;
     w_pending := w_pending w; w_log := w_log w; w_next := w_next w |}.
Definition set_istates f (w : World) : World :=
  {| w_mgr := w_mgr w; w_oldLayerMap := w_oldLayerMap w;
     w_generatedLayers := w_generatedLayers w; w_layers := w_layers w; w_states := w_states w; w_istates := f (w_istates w);
     w_async := w_async w; w_models := w_models w; w_arrays := w_arrays w;
     w_pending := w_pending w; w_log := w_log w; w_next := w_next w |}.
Definition set_async f (w : World) : World :=
  {| w_mgr := w_mgr w; w_oldLayerMap := w_oldLayerMap w;
     w_generatedLayers := w_generatedLayers w; w_layers := w_layers w; w_states := w_states w; w_istates := w_istates w;
     w_async := f (w_async w); w_models := w_models w; w_arrays := w_arrays w;
     w_pending := w_pending w; w_log := w_log w; w_next := w_next w |}.
Definition set_models f (w : World) : World :=
  {| w_mgr := w_mgr w; w_oldLayerMap := w_oldLayerMap w;
     w_generatedLayers := w_generatedLayers w; w_layers := w_layers w; w_states := w_states w; w_istates := w_istates w;
     w_async := w_async w; w_models := f (w_models w); w_arrays := w_arrays w;
     w_pending := w_pending w; w_log := w_log w; w_next := w_next w |}.
Definition set_pending f (w : World) : World :=
  {| w_mgr := w_mgr w; w_oldLayerMap := w_oldLayerMap w;
     w_generatedLayers := w_generatedLayers w; w_layers := w_layers w; w_states := w_states w; w_istates := w_istates w;
     w_async := w_async w; w_models := w_models w; w_arrays := w_arrays w;
     w_pending := f (w_pending w); w_log := w_log w; w_next := w_next w |}.
Definition set_log f (w : World) : World :=
  {| w_mgr := w_mgr w; w_oldLayerMap := w_oldLayerMap w;
     w_generatedLayers := w_generatedLayers w; w_layers := w_layers w; w_states := w_states w; w_istates := w_istates w;
     w_async := w_async w; w_models := w_models w; w_arrays := w_arrays w;
     w_pending := w_pending w; w_log := f (w_log w); w_next := w_next w |}.
Definition set_oldLayerMap f (w : World) : World :=
  {| w_mgr := w_mgr w; w_oldLayerMap := f (w_oldLayerMap w);
     w_generatedLayers := w_generatedLayers w; w_layers := w_layers w;
     w_states := w_states w; w_istates := w_istates w; w_async := w_async w;
     w_models := w_models w; w_arrays := w_arrays w; w_pending := w_pending w;
     w_log := w_log w; w_next := w_next w |}.
Definition set_generatedLayers f (w : World) : World :=
  {| w_mgr := w_mgr w; w_oldLayerMap := w_oldLayerMap w;
     w_generatedLayers := f (w_generatedLayers w); w_layers := w_layers w;
     w_states := w_states w; w_istates := w_istates w; w_async := w_async w;
     w_models := w_models w; w_arrays := w_arrays w; w_pending := w_pending w;
     w_log := w_log w; w_next := w_next w |}.
Definition set_mgr f (w : World) : World :=
  {| w_mgr := f (w_mgr w); w_oldLayerMap := w_oldLayerMap w;
     w_generatedLayers := w_generatedLayers w; w_layers := w_layers w;
     w_states := w_states w;
     w_istates := w_istates w; w_async := w_async w; w_models := w_models w;
     w_arrays := w_arrays w; w_pending := w_pending w; w_log := w_log w;
     w_next := w_next w |}.
Definition set_next f (w : World) : World :=
  {| w_mgr := w_mgr w; w_oldLayerMap := w_oldLayerMap w;
     w_generatedLayers := w_generatedLayers w; w_layers := w_layers w; w_states := w_states w; w_istates := w_istates w;
     w_async := w_async w; w_models := w_models w; w_arrays := w_arrays w;
     w_pending := w_pending w; w_log := w_log w; w_next := f (w_next w) |}.

(* ===================================================================== *)
(** ** Computations: a state and exception monad                           *)
(* ===================================================================== *)

Inductive outcome (A : Type) : Type :=
| Return (a : A)
| Throw (e : error).
Arguments Return {A} a.
Arguments Throw {A} e.

Definition M (A : Type) : Type := World -> outcome A * World.

Definition ret {A} (a : A) : M A := fun w => (Return a, w).
Definition throw {A} (e : error) : M A := fun w => (Throw e, w).
Definition bind {A B} (m : M A) (k : A -> M B) : M B :=
  fun w => match m w with
           | (Return a, w') => k a w'
           | (Throw e, w') => (Throw e, w')
           end.
(** [try { m } catch (err) { h err }] *)
Definition try_catch {A} (m : M A) (h : error -> M A) : M A :=
  fun w => match m w with
           | (Return a, w') => (Return a, w')
           | (Throw e, w') => h e w'
           end.
Definition get : M World := fun w => (Return w, w).
Definition modify (f : World -> World) : M unit := fun w => (Return tt, f w).

Local Notation "x <- m ;; k" := (bind m (fun x => k))
  (at level 100, m at next level, right associativity).
Local Notation "' p <- m ;; k" := (bind m (fun x => match x with p => k end))
  (at level 100, p pattern, m at next level, right associativity).
Local Notation "m ;;; k" := (bind m (fun _ => k))
  (at level 100, right associativity).

(** [assert(c, msg)] *)
Definition assert (c : bool) (msg : string) : M unit :=
  if c then ret tt else throw (AssertionError msg).

Definition log (e : log_entry) : M unit := modify (set_log (fun l => l ++ [e])).

(** [for (const x of xs) body(x)] *)
Fixpoint for_of {A} (xs : list A) (body : A -> M unit) : M unit :=
  match xs with
  | [] => ret tt
  | x :: r => body x ;;; for_of r body
  end.

Definition update_fields (o : nat) (f : LayerFields -> LayerFields) : M unit :=
  modify (fun w => set_layers <[o := f (fields w o)]> w).

Definition set_lifecycle (v : LIFECYCLE) (x : LayerFields) : LayerFields :=
  {| lifecycle := v; state := state x; internalState := internalState x;
     oldProps := oldProps x; context := context x |}.
Definition set_state (v : option nat) (x : LayerFields) : LayerFields :=
  {| lifecycle := lifecycle x; state := v; internalState := internalState x;
     oldProps := oldProps x; context := context x |}.
Definition set_internalState (v : option nat) (x : LayerFields) : LayerFields :=
  {| lifecycle := lifecycle x; state := state x; internalState := v;
     oldProps := oldProps x; context := context x |}.
Definition set_oldProps (v : option Props) (x : LayerFields) : LayerFields :=
  {| lifecycle := lifecycle x; state := state x; internalState := internalState x;
     oldProps := v; context := context x |}.
Definition set_context (v : bool) (x : LayerFields) : LayerFields :=
  {| lifecycle := lifecycle x; state := state x; internalState := internalState x;
     oldProps := oldProps x; context := v |}.

(** Reading [this.internalState.<member>]: a [TypeError] when
    [internalState] is [null] (or names no record). *)
Definition the_internalState (l : Layer) : M (nat * LayerState) :=
  w <- get ;;
  match internalState (fields w (l_oid l)) with
  | Some r => match w_istates w !! r with
              | Some s => ret (r, s)
              | None => throw (TypeError "internalState")
              end
  | None => throw (TypeError "internalState is null")
  end.

Definition update_istate (r : nat) (f : LayerState -> LayerState) : M unit :=
  modify (set_istates (fun m => match m !! r with
                                | Some s => <[r := f s]> m
                                | None => m
                                end)).

Definition set_changeFlags (v : option ChangeFlags) (s : LayerState) : LayerState :=
  {| attributeManager := attributeManager s; needsRedraw := needsRedraw s;
     ls_layer := ls_layer s; asyncValues := asyncValues s; changeFlags := v;
     ls_data := ls_data s; lastUrl := lastUrl s; ls_loadPromise := ls_loadPromise s |}.
Definition set_needsRedraw (v : bool) (s : LayerState) : LayerState :=
  {| attributeManager := attributeManager s; needsRedraw := v;
     ls_layer := ls_layer s; asyncValues := asyncValues s; changeFlags := changeFlags s;
     ls_data := ls_data s; lastUrl := lastUrl s; ls_loadPromise := ls_loadPromise s |}.
Definition set_ls_layer (v : option Layer) (s : LayerState) : LayerState :=
  {| attributeManager := attributeManager s; needsRedraw := needsRedraw s;
     ls_layer := v; asyncValues := asyncValues s; changeFlags := changeFlags s;
     ls_data := ls_data s; lastUrl := lastUrl s; ls_loadPromise := ls_loadPromise s |}.
Definition set_asyncValues (v : gmap string nat) (s : LayerState) : LayerState :=
  {| attributeManager := attributeManager s; needsRedraw := needsRedraw s;
     ls_layer := ls_layer s; asyncValues := v; changeFlags := changeFlags s;
     ls_data := ls_data s; lastUrl := lastUrl s; ls_loadPromise := ls_loadPromise s |}.
Definition set_ls_data (v : dataval) (s : LayerState) : LayerState :=
  {| attributeManager := attributeManager s; needsRedraw := needsRedraw s;
     ls_layer := ls_layer s; asyncValues := asyncValues s; changeFlags := changeFlags s;
     ls_data := v; lastUrl := lastUrl s; ls_loadPromise := ls_loadPromise s |}.
Definition set_lastUrl (v : option string) (s : LayerState) : LayerState :=
  {| attributeManager := attributeManager s; needsRedraw := needsRedraw s;
     ls_layer := ls_layer s; asyncValues := asyncValues s; changeFlags := changeFlags s;
     ls_data := ls_data s; lastUrl := v; ls_loadPromise := ls_loadPromise s |}.
Definition set_ls_loadPromise (v : bool) (s : LayerState) : LayerState :=
  {| attributeManager := attributeManager s; needsRedraw := needsRedraw s;
     ls_layer := ls_layer s; asyncValues := asyncValues s; changeFlags := changeFlags s;
     ls_data := ls_data s; lastUrl := lastUrl s; ls_loadPromise := v |}.
Definition set_attributeManager (v : AttributeManager) (s : LayerState) : LayerState :=
  {| attributeManager := v; needsRedraw := needsRedraw s;
     ls_layer := ls_layer s; asyncValues := asyncValues s; changeFlags := changeFlags s;
     ls_data := ls_data s; lastUrl := lastUrl s; ls_loadPromise := ls_loadPromise s |}.

(** A new object: the next free reference. *)
Definition alloc : M nat :=
  w <- get ;; modify (set_next S) ;;; ret (w_next w).

(** [fetch(url).then(k)]: the callback waits in the store until the
    environment resolves the fetch (see [resolve] below). *)
Definition fetch_then (k : pending) : M unit :=
  modify (set_pending (fun q => q ++ [k])).

(* ===================================================================== *)
(** ** [LayerObject]: change flags                                         *)
(* ===================================================================== *)

(** [setChangeFlags(flags)]; members absent from [flags] are [false]. *)
Definition setChangeFlags (l : Layer) (flags : ChangeFlags) : M unit :=
  '(r, s) <- the_internalState l ;;
  let cf := default noFlags (changeFlags s) in
  (if dataChanged flags && negb (dataChanged cf)
   then log (LogFlag "dataChanged" (l_id l)) else ret tt) ;;;
  (if updateTriggersChanged flags && negb (updateTriggersChanged cf)
   then log (LogFlag "updateTriggersChanged" (l_id l)) else ret tt) ;;;
  (if propsChanged flags && negb (propsChanged cf)
   then log (LogFlag "propsChanged" (l_id l)) else ret tt) ;;;
  (if viewportChanged flags && negb (viewportChanged cf)
   then log (LogFlag "viewportChanged" (l_id l)) else ret tt) ;;;
  let propsOrData :=
    dataChanged flags || updateTriggersChanged flags || propsChanged flags in
  update_istate r (set_changeFlags (Some
    {| dataChanged := dataChanged cf || dataChanged flags;
       updateTriggersChanged := updateTriggersChanged cf || updateTriggersChanged flags;
       propsChanged := propsChanged cf || propsChanged flags;
       viewportChanged := viewportChanged cf || viewportChanged flags;
       propsOrDataChanged := propsOrDataChanged cf || propsOrData;
       somethingChanged :=
         somethingChanged cf || propsOrData || viewportChanged flags |})).

(** [clearChangeFlags()] *)
Definition clearChangeFlags (l : Layer) : M unit :=
  '(r, _) <- the_internalState l ;;
  update_istate r (set_changeFlags (Some noFlags)).

(** [getChangeFlags()]: [this.internalState.changeFlags]. *)
Definition getChangeFlags (l : Layer) : M (option ChangeFlags) :=
  '(_, s) <- the_internalState l ;; ret (changeFlags s).

(** [printChangeFlags()]; reading a member of [undefined] flags throws. *)
Definition printChangeFlags (l : Layer) : M string :=
  cf <- getChangeFlags l ;;
  match cf with
  | None => throw (TypeError "changeFlags is undefined")
  | Some f =>
      ret ((if dataChanged f then "data " else "") +:+
           (if propsChanged f then "props " else "") +:+
           (if updateTriggersChanged f then "triggers " else "") +:+
           (if viewportChanged f then "viewport" else ""))
  end.

Definition onlyData : ChangeFlags :=
  {| dataChanged := true; propsChanged := false; updateTriggersChanged := false;
     viewportChanged := false; propsOrDataChanged := false; somethingChanged := false |}.

(* ===================================================================== *)
(** ** [LayerState]                                                        *)
(* ===================================================================== *)

(** [new LayerState({attributeManager})] *)
Definition LayerState_new (am : option AttributeManager) : M nat :=
  match am with
  | None => throw (AssertionError "")
  | Some a =>
      r <- alloc ;;
      modify (set_istates <[r :=
        {| attributeManager := a; needsRedraw := true; ls_layer := None;
           asyncValues := ∅; changeFlags := None; ls_data := DUndefined;
           lastUrl := None; ls_loadPromise := false |}]>) ;;;
      ret r
  end.

Definition the_asyncProp (a : nat) : M AsyncProp :=
  w <- get ;;
  match w_async w !! a with
  | Some p => ret p
  | None => throw (TypeError "asyncProp")
  end.

Definition the_layerState (r : nat) : M LayerState :=
  w <- get ;;
  match w_istates w !! r with
  | Some s => ret s
  | None => throw (TypeError "layerState")
  end.

(** [getAsyncProp(propName, props)] *)
Definition getAsyncProp (this : nat) (propName : string) (props : Props) : M dataval :=
  s <- the_layerState this ;;
  match asyncValues s !! propName with
  | Some a => p <- the_asyncProp a ;; ret (value p)
  | None => ret (p_shadowValues props propName)
  end.

(** [_getAsyncProp(propName, value)] *)
Definition _getAsyncProp (this : nat) (propName : string) : M nat :=
  s <- the_layerState this ;;
  match asyncValues s !! propName with
  | Some a => ret a
  | None =>
      a <- alloc ;;
      modify (set_async <[a :=
        {| lastValue := DNull; loadValue := DNull; loadPromise := false;
           loadCount := 0; value := DEmptyArray; ap_data := DUndefined |}]>) ;;;
      update_istate this (fun s => set_asyncValues (<[propName := a]> (asyncValues s)) s) ;;;
      ret a
  end.

Definition update_asyncProp (a : nat) (f : AsyncProp -> AsyncProp) : M unit :=
  modify (set_async (fun m => match m !! a with
                              | Some p => <[a := f p]> m
                              | None => m
                              end)).

(** [_loadAsyncProp({url, asyncProp, fetch, dataTransform})] *)
Definition _loadAsyncProp (this : nat) (asyncProp : nat)
    (dataTransform : nat -> nat) : M unit :=
  p <- the_asyncProp asyncProp ;;
  let count := S (loadCount p) in
  update_asyncProp asyncProp (fun p =>
    {| lastValue := lastValue p; loadValue := loadValue p; loadPromise := true;
       loadCount := count; value := value p;
       ap_data := if truthy (ap_data p) then ap_data p else DEmptyArray |}) ;;;
  fetch_then (LoadAsyncPropThen this asyncProp count dataTransform).

(** [setAsyncProp(propName, value, props)] *)
Definition setAsyncProp (this : nat) (propName : string) (v : dataval)
    (props : Props) : M bool :=
  match v with
  | DString url =>
      a <- _getAsyncProp this propName ;;
      p <- the_asyncProp a ;;
      if dataval_eqb v (lastValue p) then ret false
      else
        update_asyncProp a (fun p =>
          {| lastValue := v; loadValue := loadValue p; loadPromise := loadPromise p;
             loadCount := loadCount p; value := value p; ap_data := ap_data p |}) ;;;
        _loadAsyncProp this a (p_dataTransform props) ;;;
        ret false
  | _ =>
      update_istate this (fun s => set_asyncValues (delete propName (asyncValues s)) s) ;;;
      ret false
  end.

(** [updateAsyncProps(props)] *)
Definition updateAsyncProps (this : nat) (props : Props) : M unit :=
  setAsyncProp this "data" (p_shadowValues props "data") props ;;; ret tt.

(** The callback of [_loadAsyncProp], run on data [d] (the fetched data
    after [dataTransform]). *)
Definition loadAsyncProp_then (this asyncProp count : nat) (d : nat) : M unit :=
  p <- the_asyncProp asyncProp ;;
  if Nat.eqb count (loadCount p) then
    update_asyncProp asyncProp (fun p =>
      {| lastValue := lastValue p; loadValue := DArray d; loadPromise := false;
         loadCount := loadCount p; value := DArray d; ap_data := ap_data p |}) ;;;
    s <- the_layerState this ;;
    match ls_layer s with
    | None => throw (TypeError "this.layer is null")
    | Some l => setChangeFlags l onlyData
    end
  else ret tt.

(* ===================================================================== *)
(** ** [LayerObject] and the overrides of [Layer]                          *)
(* ===================================================================== *)

(** A subclass hook: returns or throws. *)
Definition call_hook (h : option error) : M unit :=
  match h with
  | None => ret tt
  | Some e => throw e
  end.

Definition the_state (l : Layer) : M (option (nat * UserState)) :=
  w <- get ;;
  match state (fields w (l_oid l)) with
  | None => ret None
  | Some r => match w_states w !! r with
              | Some s => ret (Some (r, s))
              | None => throw (TypeError "state")
              end
  end.

(** [Layer.getModels()]:
    this.state && (this.state.models || (this.state.model ? [this.state.model] : []));
    [None] is the [null] it yields while [this.state] is [null].
    [LayerObject] has no such method. *)
Definition getModels (l : Layer) : M (option (list nat)) :=
  match l_class l with
  | LayerObjectClass => throw (TypeError "this.getModels is not a function")
  | LayerClass =>
      st <- the_state l ;;
      match st with
      | None => ret None
      | Some (_, s) =>
          match st_models s with
          | Some ms => ret (Some ms)
          | None => ret (Some (match st_model s with Some m => [m] | None => [] end))
          end
      end
  end.

(** [for (const model of this.getModels()) body(model)] *)
Definition for_models (l : Layer) (body : nat -> M unit) : M unit :=
  ms <- getModels l ;;
  match ms with
  | None => throw (TypeError "null is not iterable")
  | Some ms => for_of ms body
  end.

Definition set_model_layer (l : Layer) (m : nat) : M unit :=
  modify (set_models (fun ms =>
    match ms !! m with
    | Some x => <[m := {| userData_layer := Some (l_oid l);
                          md_needsRedraw := md_needsRedraw x |}]> ms
    | None => ms
    end)).

(** [setNeedsRedraw(redraw = true)] *)
Definition setNeedsRedraw (l : Layer) (rd : bool) : M unit :=
  w <- get ;;
  match internalState (fields w (l_oid l)) with
  | Some r => update_istate r (set_needsRedraw rd)
  | None => ret tt
  end.

(** [LayerObject._getNeedsRedraw(clearRedrawFlags)] *)
Definition LayerObject__getNeedsRedraw (l : Layer) (clearRedrawFlags : bool) : M redraw :=
  w <- get ;;
  match internalState (fields w (l_oid l)) with
  | None => ret RFalse
  | Some _ =>
      '(r, s) <- the_internalState l ;;
      let rd := if needsRedraw s then RReason (l_id l) else RFalse in
      update_istate r (set_needsRedraw (needsRedraw s && negb clearRedrawFlags)) ;;;
      ret rd
  end.

(** [attributeManager.getNeedsRedraw({clearRedrawFlags})] and
    [model.getNeedsRedraw({clearRedrawFlags})], of the attribute manager
    and of the rendering library: the flag is read and, when asked, reset. *)
Definition attributeManager_getNeedsRedraw (r : nat) (clear : bool) : M redraw :=
  s <- the_layerState r ;;
  update_istate r (set_attributeManager
    {| am_needsRedraw := am_needsRedraw (attributeManager s) && negb clear |}) ;;;
  ret (if am_needsRedraw (attributeManager s) then RReason "attributes" else RFalse).

Definition model_getNeedsRedraw (m : nat) (clear : bool) : M redraw :=
  w <- get ;;
  match w_models w !! m with
  | None => throw (TypeError "model")
  | Some x =>
      modify (set_models <[m := {| userData_layer := userData_layer x;
                                   md_needsRedraw := if clear then RFalse
                                                     else md_needsRedraw x |}]>) ;;;
      ret (md_needsRedraw x)
  end.

Fixpoint models_needRedraw (ms : list nat) (clear : bool) (rd : redraw) : M redraw :=
  match ms with
  | [] => ret rd
  | m :: r =>
      n <- model_getNeedsRedraw m clear ;;
      models_needRedraw r clear (redraw_or rd n)
  end.

(** [Layer._getNeedsRedraw(clearRedrawFlags)], the override. *)
Definition Layer__getNeedsRedraw (l : Layer) (clearRedrawFlags : bool) : M redraw :=
  rd <- LayerObject__getNeedsRedraw l clearRedrawFlags ;;
  w <- get ;;
  amNeedsRedraw <-
    match internalState (fields w (l_oid l)) with
    | None => ret RNull
    | Some r => attributeManager_getNeedsRedraw r clearRedrawFlags
    end ;;
  let rd := redraw_or rd amNeedsRedraw in
  ms <- getModels l ;;
  match ms with
  | None => throw (TypeError "null is not iterable")
  | Some ms => models_needRedraw ms clearRedrawFlags rd
  end.

(** [this._getNeedsRedraw(...)] by the class of the receiver. *)
Definition _getNeedsRedraw (l : Layer) (clearRedrawFlags : bool) : M redraw :=
  match l_class l with
  | LayerObjectClass => LayerObject__getNeedsRedraw l clearRedrawFlags
  | LayerClass => Layer__getNeedsRedraw l clearRedrawFlags
  end.

(** [getNeedsRedraw({clearRedrawFlags = false} = {})] *)
Definition getNeedsRedraw (l : Layer) (clearRedrawFlags : option bool) : M redraw :=
  _getNeedsRedraw l (default false clearRedrawFlags).

(** [_loadData()] *)
Definition _loadData (l : Layer) : M bool :=
  match p_data (l_props l) with
  | DString url =>
      '(r, s) <- the_internalState l ;;
      if bool_decide (lastUrl s = Some url) then ret false
      else
        update_istate r (fun s =>
          set_lastUrl (Some url)
            (set_ls_data (if truthy (ls_data s) then ls_data s else DEmptyArray) s)) ;;;
        fetch_then (LoadDataThen l) ;;;
        update_istate r (set_ls_loadPromise true) ;;;
        ret true
  | _ =>
      '(r, _) <- the_internalState l ;;
      update_istate r (set_ls_data DNull) ;;;
      ret false
  end.

(** The callback of [_loadData], run on the loaded data. *)
Definition loadData_then (this : Layer) (d : nat) : M unit :=
  '(r, _) <- the_internalState this ;;
  update_istate r (set_ls_data (DArray d)) ;;;
  setChangeFlags this onlyData.

(** The environment resolves the [k]-th waiting fetch with data [d]. *)
Definition resolve (k : nat) (d : nat) : M unit :=
  w <- get ;;
  match w_pending w !! k with
  | None => ret tt
  | Some p =>
      modify (set_pending (delete k)) ;;;
      match p with
      | LoadDataThen this => loadData_then this d
      | LoadAsyncPropThen this a count dataTransform =>
          loadAsyncProp_then this a count (dataTransform d)
      end
  end.

(** Modelled from the spec: [diffProps] of [./props], which is not among
    the sources ("computes changed keys by shallow+semantic comparison of
    props", one flag per kind of change).  Against the frozen empty props
    every prop counts as changed. *)
Definition diffProps_props (newProps : Props) (old : option Props) : ChangeFlags :=
  match old with
  | Some oldProps =>
      {| dataChanged := negb (dataval_eqb (p_data newProps) (p_data oldProps));
         propsChanged := negb (Nat.eqb (p_rest newProps) (p_rest oldProps));
         updateTriggersChanged := negb (Nat.eqb (p_triggers newProps) (p_triggers oldProps));
         viewportChanged := false; propsOrDataChanged := false;
         somethingChanged := false |}
  | None =>
      {| dataChanged := negb (dataval_eqb (p_data newProps) DUndefined);
         propsChanged := true; updateTriggersChanged := false;
         viewportChanged := false; propsOrDataChanged := false;
         somethingChanged := false |}
  end.

(** [_activeUpdateTrigger(propName)]: [this.invalidateAttribute(propName)],
    a method [Layer] defines; the attribute manager's [invalidate] is
    external. *)
Definition _activeUpdateTrigger (l : Layer) : M unit :=
  match l_class l with
  | LayerObjectClass => throw (TypeError "this.invalidateAttribute is not a function")
  | LayerClass =>
      w <- get ;;
      match internalState (fields w (l_oid l)) with
      | None => ret tt
      | Some _ => log (LogInvalidating (l_id l))
      end
  end.

(** [diffProps(newProps = this.props, oldProps = this.oldProps)] *)
Definition diffProps (l : Layer) : M unit :=
  w <- get ;;
  let cf := diffProps_props (l_props l) (oldProps (fields w (l_oid l))) in
  (if updateTriggersChanged cf then _activeUpdateTrigger l else ret tt) ;;;
  cf <- (if dataChanged cf then
           loading <- _loadData l ;;
           ret (if loading : bool then
                  {| dataChanged := false; propsChanged := propsChanged cf;
                     updateTriggersChanged := updateTriggersChanged cf;
                     viewportChanged := viewportChanged cf;
                     propsOrDataChanged := propsOrDataChanged cf;
                     somethingChanged := somethingChanged cf |}
                else cf)
         else ret cf) ;;
  setChangeFlags l cf.

(** [needsUpdate()]: [this.shouldUpdateState(this._getUpdateParams())] *)
Definition needsUpdate (l : Layer) : M bool :=
  cf <- getChangeFlags l ;;
  match shouldUpdateState (l_hooks l) with
  | Some b => ret b
  | None =>
      match cf with
      | Some f => ret (propsOrDataChanged f)
      | None => throw (TypeError "changeFlags is undefined")
      end
  end.

(** [_updateState(updateParams)]; in [Layer] the hook is followed by
    [updateAttributes], [_updateBaseUniforms], [_updateModuleSettings] and
    the instance count, whose calls into the attribute manager and the
    models are external. *)
Definition _updateState (l : Layer) : M unit :=
  call_hook (updateState (l_hooks l)) ;;;
  match l_class l with
  | LayerObjectClass => ret tt
  | LayerClass =>
      the_internalState l ;;;
      for_models l (fun _ => ret tt) ;;;
      setNeedsRedraw l true ;;;
      for_models l (fun _ => ret tt) ;;;
      st <- the_state l ;;
      match st with
      | None => throw (TypeError "this.state is null")
      | Some _ => ret tt
      end
  end.

(** [_update()] *)
Definition _update (l : Layer) : M unit :=
  stateNeedsUpdate <- needsUpdate l ;;
  (if stateNeedsUpdate : bool then _updateState l else ret tt) ;;;
  (if isComposite l then call_hook (renderLayers (l_hooks l)) else ret tt) ;;;
  clearChangeFlags l.

Definition allChanged : ChangeFlags :=
  {| dataChanged := true; propsChanged := true; updateTriggersChanged := false;
     viewportChanged := true; propsOrDataChanged := false; somethingChanged := false |}.

(** [LayerObject._initialize()] *)
Definition LayerObject__initialize (l : Layer) : M unit :=
  w <- get ;;
  let f := fields w (l_oid l) in
  assert (match internalState f, state f with None, None => true | _, _ => false end) "" ;;;
  r <- LayerState_new None ;;
  update_fields (l_oid l) (set_internalState (Some r)) ;;;
  s <- alloc ;;
  modify (set_states <[s := {| st_layer := None; st_model := None; st_models := None |}]>) ;;;
  update_fields (l_oid l) (set_state (Some s)) ;;;
  call_hook (initializeState (l_hooks l)) ;;;
  setChangeFlags l allChanged ;;;
  _loadData l ;;;
  getChangeFlags l ;;;
  _updateState l ;;;
  (if isComposite l then call_hook (renderLayers (l_hooks l)) else ret tt) ;;;
  clearChangeFlags l.

(** [Layer._initialize()]: after building an attribute manager from
    [this.context.gl] it calls [super.initialize], which [LayerObject] does
    not define; what follows that call is never reached. *)
Definition Layer__initialize (l : Layer) : M unit :=
  w <- get ;;
  (if context (fields w (l_oid l)) then ret tt
   else throw (TypeError "this.context is null")) ;;;
  throw (TypeError "super.initialize is not a function").

Definition _initialize (l : Layer) : M unit :=
  match l_class l with
  | LayerObjectClass => LayerObject__initialize l
  | LayerClass => Layer__initialize l
  end.

(** [_finalize()] *)
Definition _finalize (l : Layer) : M unit :=
  w <- get ;;
  let f := fields w (l_oid l) in
  assert (match internalState f, state f with Some _, Some _ => true | _, _ => false end) "" ;;;
  call_hook (finalizeState (l_hooks l)).

(** [LayerObject._transferState(oldLayer)] *)
Definition LayerObject__transferState (l oldLayer : Layer) : M unit :=
  w <- get ;;
  let old := fields w (l_oid oldLayer) in
  match state old, internalState old with
  | Some s, Some i =>
      modify (set_states (fun m =>
        match m !! s with
        | Some x => <[s := {| st_layer := Some (l_oid l); st_model := st_model x;
                              st_models := st_models x |}]> m
        | None => m
        end)) ;;;
      update_fields (l_oid l) (set_state (Some s)) ;;;
      update_fields (l_oid l) (set_internalState (Some i)) ;;;
      update_fields (l_oid l) (set_oldProps (Some (l_props oldLayer))) ;;;
      for_models l (set_model_layer l) ;;;
      diffProps l
  | _, _ => throw (AssertionError "")
  end.

(** [Layer._transferState(oldLayer)] *)
Definition Layer__transferState (l oldLayer : Layer) : M unit :=
  LayerObject__transferState l oldLayer ;;;
  for_models l (set_model_layer l).

Definition _transferState (l oldLayer : Layer) : M unit :=
  match l_class l with
  | LayerObjectClass => LayerObject__transferState l oldLayer
  | LayerClass => Layer__transferState l oldLayer
  end.

(* ===================================================================== *)
(** ** [LayerManager]                                                      *)
(* ===================================================================== *)

Local Open Scope Z_scope.

(** [s.indexOf(t)]: where [t] first occurs in [s], or -1. *)
Fixpoint indexOf (s t : string) : Z :=
  if String.prefix t s then 0
  else match s with
       | EmptyString => -1
       | String _ s' => let r := indexOf s' t in if r <? 0 then -1 else r + 1
       end.

Local Close Scope Z_scope.

(** [layerIds.find(layerId => id.indexOf(layerId) === 0)] *)
Definition find_layerId (layerIds : list string) (id : string) : option string :=
  List.find (fun layerId => (indexOf id layerId =? 0)%Z) layerIds.

(** Truthiness of what [find] yields: [undefined] and [''] are falsy. *)
Definition found (r : option string) : bool :=
  match r with
  | Some s => negb (bool_decide (s = ""))
  | None => false
  end.

(** [getLayers({layerIds = null} = {})] *)
Definition getLayers (layerIds : option (list string)) : M (list Layer) :=
  w <- get ;;
  match layerIds with
  | Some ids => ret (List.filter (fun layer => found (find_layerId ids (l_id layer)))
                            (layers (w_mgr w)))
  | None => ret (layers (w_mgr w))
  end.

Definition set_lastRenderedLayers (v : nat) (m : LayerManager) : LayerManager :=
  {| lastRenderedLayers := v; prevLayers := prevLayers m; layers := layers m;
     mgr_context := mgr_context m; _needsRedraw := _needsRedraw m |}.
Definition set_prevLayers (v : list Layer) (m : LayerManager) : LayerManager :=
  {| lastRenderedLayers := lastRenderedLayers m; prevLayers := v; layers := layers m;
     mgr_context := mgr_context m; _needsRedraw := _needsRedraw m |}.
Definition set_layers_of (v : list Layer) (m : LayerManager) : LayerManager :=
  {| lastRenderedLayers := lastRenderedLayers m; prevLayers := prevLayers m; layers := v;
     mgr_context := mgr_context m; _needsRedraw := _needsRedraw m |}.
Definition set_mgr_context (v : Context) (m : LayerManager) : LayerManager :=
  {| lastRenderedLayers := lastRenderedLayers m; prevLayers := prevLayers m;
     layers := layers m; mgr_context := v; _needsRedraw := _needsRedraw m |}.
Definition set__needsRedraw (v : redraw) (m : LayerManager) : LayerManager :=
  {| lastRenderedLayers := lastRenderedLayers m; prevLayers := prevLayers m;
     layers := layers m; mgr_context := mgr_context m; _needsRedraw := v |}.

(** [LayerManager.setNeedsRedraw(reason)] *)
Definition mgr_setNeedsRedraw (reason : string) : M unit :=
  modify (set_mgr (fun m => set__needsRedraw (redraw_or (_needsRedraw m) (RReason reason)) m)).

Fixpoint layers_needRedraw (ls : list Layer) (clear : bool) (rd : redraw) : M redraw :=
  match ls with
  | [] => ret rd
  | layer :: r =>
      layerNeedsRedraw <- getNeedsRedraw layer (Some clear) ;;
      layers_needRedraw r clear (redraw_or rd layerNeedsRedraw)
  end.

(** [_checkIfNeedsRedraw(clearRedrawFlags)] *)
Definition _checkIfNeedsRedraw (clearRedrawFlags : bool) : M redraw :=
  w <- get ;;
  let rd := _needsRedraw (w_mgr w) in
  (if clearRedrawFlags then modify (set_mgr (set__needsRedraw RFalse)) else ret tt) ;;;
  layers_needRedraw (layers (w_mgr w)) clearRedrawFlags rd.

(** [needsRedraw({clearRedrawFlags = true} = {})] *)
Definition needsRedraw_mgr (clearRedrawFlags : option bool) : M redraw :=
  _checkIfNeedsRedraw (default true clearRedrawFlags).

Fixpoint map_get (m : LayerMap) (id : string) : option (option Layer) :=
  match m with
  | [] => None
  | (k, v) :: r => if bool_decide (k = id) then Some v else map_get r id
  end.

Fixpoint map_set (m : LayerMap) (id : string) (v : option Layer) : LayerMap :=
  match m with
  | [] => [(id, v)]
  | (k, x) :: r => if bool_decide (k = id) then (k, v) :: r
                   else (k, x) :: map_set r id v
  end.

(** The string a layer prints as; the entries of the log name the object. *)
Definition layerName (l : Layer) : nat := l_oid l.

(** [_initializeLayer(layer)] *)
Definition _initializeLayer (layer : Layer) : M (option error) :=
  log (LogInitializing (layerName layer)) ;;;
  seen <- try_catch
            (_initialize layer ;;;
             update_fields (l_oid layer) (set_lifecycle INITIALIZED) ;;;
             ret None)
            (fun err => log (WarnInitializing (layerName layer) err) ;;;
                        ret (Some err)) ;;
  '(r, _) <- the_internalState layer ;;
  update_istate r (set_ls_layer (Some layer)) ;;;
  for_models layer (set_model_layer layer) ;;;
  ret seen.

(** [_transferLayerState(oldLayer, newLayer)] *)
Definition _transferLayerState (oldLayer newLayer : Layer) : M unit :=
  if negb (Nat.eqb (l_oid newLayer) (l_oid oldLayer)) then
    log (LogMatched (layerName oldLayer) (layerName newLayer)) ;;;
    update_fields (l_oid newLayer) (set_lifecycle MATCHED) ;;;
    update_fields (l_oid oldLayer) (set_lifecycle AWAITING_GC) ;;;
    _transferState newLayer oldLayer
  else
    log (LogUnchanged (l_id newLayer)) ;;;
    update_fields (l_oid newLayer) (set_lifecycle MATCHED) ;;;
    update_fields (l_oid newLayer) (set_oldProps (Some (l_props newLayer))).

(** [_updateLayer(layer)] *)
Definition _updateLayer (layer : Layer) : M (option error) :=
  flags <- printChangeFlags layer ;;
  log (LogUpdating (layerName layer) flags) ;;;
  try_catch (_update layer ;;; ret None)
            (fun err => log (WarnUpdate (layerName layer) err) ;;; ret (Some err)).

(** [_finalizeLayer(layer)] *)
Definition _finalizeLayer (layer : Layer) : M (option error) :=
  w <- get ;;
  assert (negb (LIFECYCLE_eqb (lifecycle (fields w (l_oid layer))) AWAITING_FINALIZATION)) "" ;;;
  update_fields (l_oid layer) (set_lifecycle AWAITING_FINALIZATION) ;;;
  mgr_setNeedsRedraw ("finalized " +:+ l_id layer) ;;;
  seen <- try_catch (_finalize layer ;;; ret None)
            (fun err => log (WarnFinalization (layerName layer) err) ;;;
                        ret (Some err)) ;;
  update_fields (l_oid layer) (set_lifecycle FINALIZED) ;;;
  log (LogFinalizing (layerName layer)) ;;;
  ret seen.

(** [error || x], on errors. *)
Definition first_error (a b : option error) : option error :=
  match a with Some _ => a | None => b end.

(** The loop of [_finalizeOldLayers]; [error || this._finalizeLayer(layer)]
    only evaluates the call while [error] is still [null]. *)
Fixpoint finalize_entries (m : LayerMap) (seen : option error) : M (option error) :=
  match m with
  | [] => ret seen
  | (_, Some layer) :: r =>
      seen <- match seen with
              | Some e => ret (Some e)
              | None => _finalizeLayer layer
              end ;;
      finalize_entries r seen
  | (_, None) :: r => finalize_entries r seen
  end.

(** [_finalizeOldLayers(oldLayerMap)] *)
Definition _finalizeOldLayers : M (option error) :=
  w <- get ;; finalize_entries (w_oldLayerMap w) None.

(** The body of the [try] block in [_updateSublayersRecursively]; it
    yields whether there are sublayers to descend into.  The seer calls
    are external and leave the store alone. *)
Definition match_layer (oldLayer : option (option Layer)) (newLayer : Layer) : M bool :=
  match oldLayer with
  | Some (Some old) =>
      _transferLayerState old newLayer ;;;
      _updateLayer newLayer ;;;
      ret tt
  | _ =>
      _initializeLayer newLayer ;;;
      ret tt
  end ;;;
  modify (set_generatedLayers (fun g => g ++ [newLayer])) ;;;
  if isComposite newLayer then
    call_hook (getSubLayers_throws (l_hooks newLayer)) ;;; ret true
  else ret false.

(** The head of a turn of the loop of [_updateSublayersRecursively]: the
    context is set, the candidate for the id is looked up (with a warning
    when it is [null]) and its entry is set to [null]. *)
Definition take_candidate (newLayer : Layer) : M (option (option Layer)) :=
  update_fields (l_oid newLayer) (set_context true) ;;;
  w <- get ;;
  let oldLayer := map_get (w_oldLayerMap w) (l_id newLayer) in
  (match oldLayer with
   | Some None => log (WarnMultipleNew (layerName newLayer))
   | _ => ret tt
   end) ;;;
  modify (set_oldLayerMap (fun m => map_set m (l_id newLayer) None)) ;;;
  ret oldLayer.

(** One turn of the loop, up to the descent into the sublayers: the new
    value of [error] and whether to descend. *)
Definition visit_layer (newLayer : Layer) (seen : option error) : M (option error * bool) :=
  oldLayer <- take_candidate newLayer ;;
  try_catch
    (descend <- match_layer oldLayer newLayer ;; ret (seen, descend))
    (fun err =>
       log (WarnMatching (layerName newLayer) err) ;;;
       ret (first_error seen (Some err), false)).

(** [_updateSublayersRecursively({newLayers, oldLayerMap, generatedLayers})]
    for one layer and for a list; what the descent returns is dropped by
    the caller, as in the source. *)
Fixpoint update_sublayers_of (newLayer : Layer) (seen : option error)
    {struct newLayer} : M (option error) :=
  match newLayer with
  | MkLayer _ _ _ _ _ sub =>
      '(seen, descend) <- visit_layer newLayer seen ;;
      (if descend : bool then
         match sub with
         | Some sublayers =>
             (fix loop (ls : list Layer) (seen : option error) : M (option error) :=
                match ls with
                | [] => ret seen
                | x :: r => seen <- update_sublayers_of x seen ;; loop r seen
                end) sublayers None ;;; ret tt
         | None => ret tt
         end
       else ret tt) ;;;
      ret seen
  end.

Fixpoint update_sublayers_loop (newLayers : list Layer) (seen : option error)
    : M (option error) :=
  match newLayers with
  | [] => ret seen
  | x :: r => seen <- update_sublayers_of x seen ;; update_sublayers_loop r seen
  end.

Definition _updateSublayersRecursively (newLayers : list Layer) : M (option error) :=
  update_sublayers_loop newLayers None.

(** The first loop of [_updateLayers]: the map of the old layers. *)
Fixpoint make_oldLayerMap (oldLayers : list Layer) : M unit :=
  match oldLayers with
  | [] => ret tt
  | oldLayer :: r =>
      w <- get ;;
      (match map_get (w_oldLayerMap w) (l_id oldLayer) with
       | Some (Some _) => log (WarnMultipleOld (layerName oldLayer))
       | _ => modify (set_oldLayerMap (fun m => map_set m (l_id oldLayer) (Some oldLayer)))
       end) ;;;
      make_oldLayerMap r
  end.

(** [_updateLayers({oldLayers, newLayers})] *)
Definition _updateLayers (oldLayers newLayers : list Layer)
    : M (option error * list Layer) :=
  modify (set_oldLayerMap (fun _ => [])) ;;;
  make_oldLayerMap oldLayers ;;;
  modify (set_generatedLayers (fun _ => [])) ;;;
  error1 <- _updateSublayersRecursively newLayers ;;
  error2 <- _finalizeOldLayers ;;
  w <- get ;;
  ret (first_error error1 error2, w_generatedLayers w).

(** Modelled from the spec: [flatten(array, {filter: Boolean})] of
    [../utils/flatten], which is not among the sources ("flattens
    nested/falsy entries out of the list"). *)
Fixpoint flatten_entry (e : entry) : list Layer :=
  match e with
  | Falsy => []
  | Item l => [l]
  | Nested es =>
      (fix go (es : list entry) : list Layer :=
         match es with
         | [] => []
         | x :: r => flatten_entry x ++ go r
         end) es
  end.

Definition flatten (es : list entry) : list Layer :=
  flatten_entry (Nested es).

(** [setLayers(newLayers)], given the array object. *)
Definition setLayers (newLayers : nat) : M unit :=
  w <- get ;;
  assert (bool_decide (is_Some (viewport (mgr_context (w_mgr w)))))
         "LayerManager.updateLayers: viewport not set" ;;;
  if Nat.eqb newLayers (lastRenderedLayers (w_mgr w)) then
    log LogIgnoringUpdate
  else
    modify (set_mgr (set_lastRenderedLayers newLayers)) ;;;
    let newLayers := flatten (default [] (w_arrays w !! newLayers)) in
    for_of newLayers (fun layer => update_fields (l_oid layer) (set_context true)) ;;;
    modify (set_mgr (fun m => set_prevLayers (layers m) m)) ;;;
    '(first, generatedLayers) <- _updateLayers (layers (w_mgr w)) newLayers ;;
    modify (set_mgr (set_layers_of generatedLayers)) ;;;
    match first with
    | Some e => throw e
    | None => ret tt
    end.

(** [setParameters(parameters)], for the parameters [layers] and
    [viewport]. *)
Definition setParameters (p_layers : option nat) (p_viewport : option (option nat)) : M unit :=
  (match p_layers with Some a => setLayers a | None => ret tt end) ;;;
  match p_viewport with
  | Some v => modify (set_mgr (set_mgr_context {| viewport := v |}))
  | None => ret tt
  end.

(** A manager as its constructor leaves it, in an otherwise empty store:
    [lastRenderedLayers] is a fresh empty array (object 0). *)
Definition new_world : World :=
  {| w_mgr := {| lastRenderedLayers := 0; prevLayers := []; layers := [];
                 mgr_context := {| viewport := None |};
                 _needsRedraw := RReason "Initial render" |};
     w_oldLayerMap := []; w_generatedLayers := [];
     w_layers := ∅; w_states := ∅; w_istates := ∅; w_async := ∅; w_models := ∅;
     w_arrays := {[ 0 := [] ]}; w_pending := []; w_log := []; w_next := 1 |}.

Definition set_arrays f (w : World) : World :=
  {| w_mgr := w_mgr w; w_oldLayerMap := w_oldLayerMap w;
     w_generatedLayers := w_generatedLayers w; w_layers := w_layers w;
     w_states := w_states w; w_istates := w_istates w; w_async := w_async w;
     w_models := w_models w; w_arrays := f (w_arrays w); w_pending := w_pending w;
     w_log := w_log w; w_next := w_next w |}.

(* ===================================================================== *)
(** ** Sample objects                                                      *)
(* ===================================================================== *)

(** Hooks that all return. *)
Definition quiet : Hooks :=
  {| initializeState := None; shouldUpdateState := None; updateState := None;
     finalizeState := None; renderLayers := None; getSubLayers_throws := None |}.

(** Props with the given [data] and nothing else of note. *)
Definition props_of (d : dataval) : Props :=
  {| p_data := d; p_rest := 0; p_triggers := 0; p_dataTransform := fun x => x;
     p_shadowValues := fun _ => DUndefined |}.

(** A non-composite [Layer] with inline data. *)
Definition sample (o : nat) (id : string) (h : Hooks) : Layer :=
  MkLayer o LayerClass id (props_of (DArray 0)) h None.

(** The members of a layer that went through a pass, the state object and
    the layer state it owns. *)
Definition live (st ist : nat) : LayerFields :=
  {| lifecycle := MATCHED; state := Some st; internalState := Some ist;
     oldProps := Some (props_of (DArray 0)); context := true |}.
Definition state_of (o : nat) : UserState :=
  {| st_layer := Some o; st_model := None; st_models := None |}.
Definition layerState_of (l : Layer) : LayerState :=
  {| attributeManager := {| am_needsRedraw := false |}; needsRedraw := false;
     ls_layer := Some l; asyncValues := ∅; changeFlags := Some noFlags;
     ls_data := DNull; lastUrl := None; ls_loadPromise := false |}.

(** A manager whose live list holds the ids "ab" and "ac". *)
Definition two_layers : World :=
  set_mgr (set_layers_of [sample 1 "ab" quiet; sample 2 "ac" quiet]) new_world.

(** The store after running a computation, and what it returned. *)
Definition after {A} (m : M A) (w : World) : World := snd (m w).
Definition result_of {A} (m : M A) (w : World) : outcome A := fst (m w).

(** Two live layers, "a" (object 1) and "b" (object 2), each with its
    state object and layer state, under a manager with a viewport; the
    arrays the application will submit are given. *)
Definition old_a : Layer := sample 1 "a" quiet.
Definition old_b : Layer := sample 2 "b" quiet.

Definition stage (arrays : gmap nat (list entry)) : World :=
  {| w_mgr := {| lastRenderedLayers := 0; prevLayers := []; layers := [old_a; old_b];
                 mgr_context := {| viewport := Some 0 |}; _needsRedraw := RFalse |};
     w_oldLayerMap := []; w_generatedLayers := [];
     w_layers := {[ 1 := live 11 21; 2 := live 12 22 ]};
     w_states := {[ 11 := state_of 1; 12 := state_of 2 ]};
     w_istates := {[ 21 := layerState_of old_a; 22 := layerState_of old_b ]};
     w_async := ∅; w_models := ∅; w_arrays := arrays;
     w_pending := []; w_log := []; w_next := 100 |}.

(** Hooks whose [updateState] throws. *)
Definition failing_update : Hooks :=
  {| initializeState := None; shouldUpdateState := Some true;
     updateState := Some (UserError "updateState failed");
     finalizeState := None; renderLayers := None; getSubLayers_throws := None |}.

(** The next frame: new objects for "a" and "b"; the update hook of the
    new "a" throws. *)
Definition new_a : Layer := sample 3 "a" failing_update.
Definition new_b : Layer := sample 4 "b" quiet.
Definition next_frame : World := stage {[ 0 := []; 5 := [Item new_a; Item new_b] ]}.

(** A manager with a viewport and nothing else. *)
Definition empty_stage : World :=
  set_mgr (set_mgr_context {| viewport := Some 0 |}) new_world.

(** A plain [LayerObject] rather than a [Layer]. *)
Definition sample_object (o : nat) (id : string) (h : Hooks) : Layer :=
  MkLayer o LayerObjectClass id (props_of (DArray 0)) h None.

(** Three frames on the two live layers: everything is dropped, the two
    finalized objects are submitted again, then a new object for "b"
    arrives alone. *)
Definition three_frames : World :=
  stage {[ 0 := []; 5 := []; 6 := [Item old_a; Item old_b]; 7 := [Item new_b] ]}.

(** How often an object was reported as finalized. *)
Definition finalizations (o : nat) (w : World) : nat :=
  length (List.filter (fun e => match e with
                                | LogFinalizing x => Nat.eqb x o
                                | _ => false
                                end) (w_log w)).

(** A [Layer] whose [data] prop is a URL. *)
Definition remote (o : nat) (id : string) (url : string) : Layer :=
  MkLayer o LayerClass id (props_of (DString url)) quiet None.

(** One live layer "a" (object 1) whose data is the URL "u1", nothing
    loaded yet; the next frame brings object 3 for "a" with the URL "u2". *)
Definition remote_stage : World :=
  {| w_mgr := {| lastRenderedLayers := 0; prevLayers := []; layers := [remote 1 "a" "u1"];
                 mgr_context := {| viewport := Some 0 |}; _needsRedraw := RFalse |};
     w_oldLayerMap := []; w_generatedLayers := [];
     w_layers := {[ 1 := live 11 21 ]};
     w_states := {[ 11 := state_of 1 ]};
     w_istates := {[ 21 := layerState_of (remote 1 "a" "u1") ]};
     w_async := ∅; w_models := ∅;
     w_arrays := {[ 0 := []; 5 := [Item (remote 3 "a" "u2")] ]};
     w_pending := []; w_log := []; w_next := 100 |}.

(** The load of "u1" starts, the next frame starts the load of "u2",
    "u2" resolves with the data 20 and "u1" resolves after it with 10. *)
Definition late_u1 : M unit :=
  _loadData (remote 1 "a" "u1") ;;;
  setLayers 5 ;;;
  resolve 1 20 ;;;
  resolve 0 10.

(** The same race on the async property "data" of the layer state 21:
    [setAsyncProp] sees "u1" then "u2"; "u2" resolves first. *)
Definition async_u2_wins : M unit :=
  setAsyncProp 21 "data" (DString "u1") (props_of (DString "u1")) ;;;
  setAsyncProp 21 "data" (DString "u2") (props_of (DString "u2")) ;;;
  resolve 1 20.

(** The displayed value of an async property. *)
Definition displayed (this : nat) (propName : string) (w : World) : outcome dataval :=
  result_of (getAsyncProp this propName (props_of DUndefined)) w.

(** A frame in which a new object for "a" comes together with the old
    object for "a" itself. *)
Definition fresh_a : Layer := sample 5 "a" quiet.


(* ===================================================================== *)
(** ** Relations between the store before and after a computation         *)
(* ===================================================================== *)

(** [m] takes every store to one related to it by [R], whether it returns
    or throws. *)
Definition preserves (R : World -> World -> Prop) {A} (m : M A) : Prop :=
  forall w, R w (after m w).

(** The manager still remembers the same array and has the same context. *)
Definition same_request (w w' : World) : Prop :=
  lastRenderedLayers (w_mgr w') = lastRenderedLayers (w_mgr w) /\
  mgr_context (w_mgr w') = mgr_context (w_mgr w).

(** The log only grows. *)
Definition log_grows (w w' : World) : Prop :=
  exists more, w_log w' = w_log w ++ more.

(** A candidate entry that is [null] stays [null]. *)
Definition consumed_stay (w w' : World) : Prop :=
  forall id, map_get (w_oldLayerMap w) id = Some None ->
             map_get (w_oldLayerMap w') id = Some None.

(** No member of a layer object or of a state object was written and no
    object was created. *)
Definition same_objects (w w' : World) : Prop :=
  w_layers w' = w_layers w /\ w_states w' = w_states w /\ w_next w' = w_next w.

(** The ids a walk over a layer can meet: its own and those of the
    sublayers below it. *)
Fixpoint ids_of (l : Layer) : list string :=
  match l with
  | MkLayer _ _ i _ _ sub =>
      i :: match sub with
           | Some ls => (fix go (ls : list Layer) : list string :=
                           match ls with
                           | [] => []
                           | x :: r => ids_of x ++ go r
                           end) ls
           | None => []
           end
  end.

Definition ids_of_all (ls : list Layer) : list string := flat_map ids_of ls.

(** The candidate entry of one id is left as it is. *)
Definition entry_kept (id : string) (w w' : World) : Prop :=
  map_get (w_oldLayerMap w') id = map_get (w_oldLayerMap w) id.

(** [m] never throws. *)
Definition returns {A} (m : M A) : Prop :=
  forall w, exists a, result_of m w = Return a.


(** The derived change flags say what the primary ones say. *)
Definition derived_agree (cf : ChangeFlags) : Prop :=
  propsOrDataChanged cf = dataChanged cf || updateTriggersChanged cf || propsChanged cf /\
  somethingChanged cf = propsOrDataChanged cf || viewportChanged cf.

(** One flag record is at least another: no flag that was set is cleared. *)
Definition flags_le (a b : ChangeFlags) : Prop :=
  (dataChanged a -> dataChanged b) /\ (propsChanged a -> propsChanged b) /\
  (updateTriggersChanged a -> updateTriggersChanged b) /\
  (viewportChanged a -> viewportChanged b) /\
  (propsOrDataChanged a -> propsOrDataChanged b) /\
  (somethingChanged a -> somethingChanged b).

(** The change flags of a layer, through its internal state. *)
Definition flags_of (w : World) (l : Layer) : option ChangeFlags :=
  r ← internalState (fields w (l_oid l));
  s ← w_istates w !! r;
  changeFlags s.

(** The models [getModels] yields for a layer with a state object. *)
Definition models_of (w : World) (l : Layer) : list nat :=
  match state (fields w (l_oid l)) with
  | Some r =>
      match w_states w !! r with
      | Some s => match st_models s with
                  | Some ms => ms
                  | None => match st_model s with Some m => [m] | None => [] end
                  end
      | None => []
      end
  | None => []
  end.

(** Between two stores only redraw flags of layer states, attribute
    managers and models were written, and none of them was raised. *)
Definition redraw_lowered (w w' : World) : Prop :=
  w_mgr w' = w_mgr w /\ w_layers w' = w_layers w /\ w_states w' = w_states w /\
  (forall r s', w_istates w' !! r = Some s' ->
     exists s, w_istates w !! r = Some s /\
               (needsRedraw s' = true -> needsRedraw s = true) /\
               (am_needsRedraw (attributeManager s') = true ->
                am_needsRedraw (attributeManager s) = true)) /\
  (forall m x', w_models w' !! m = Some x' ->
     exists x, w_models w !! m = Some x /\
               (redraw_truthy (md_needsRedraw x') = true ->
                redraw_truthy (md_needsRedraw x) = true)).

(** Nothing a redraw query of the layer reads asks for a redraw: the flag
    of its layer state and, for a [Layer], those of its attribute manager
    and of its models. *)
Definition redraw_flags_clear (w : World) (l : Layer) : Prop :=
  (forall r s, internalState (fields w (l_oid l)) = Some r -> w_istates w !! r = Some s ->
     needsRedraw s = false /\
     (l_class l = LayerClass -> am_needsRedraw (attributeManager s) = false)) /\
  (l_class l = LayerClass ->
   forall m x, In m (models_of w l) -> w_models w !! m = Some x ->
     redraw_truthy (md_needsRedraw x) = false).

(** A layer and the sublayers below it, in the order of the walk. *)
Fixpoint preorder (l : Layer) : list Layer :=
  l :: match l_sub l with
       | Some ls => (fix go (ls : list Layer) : list Layer :=
                       match ls with
                       | [] => []
                       | x :: r => preorder x ++ go r
                       end) ls
       | None => []
       end.

Definition preorder_all (ls : list Layer) : list Layer := flat_map preorder ls.

(** The output list of the walk is as it was. *)
Definition same_generated (w w' : World) : Prop :=
  w_generatedLayers w' = w_generatedLayers w.

(** The first layer of a list with a given id. *)
Definition first_with_id (id : string) (ls : list Layer) : option Layer :=
  List.find (fun l => bool_decide (l_id l = id)) ls.

(** Hooks whose [finalizeState] throws. *)
Definition failing_finalize : Hooks :=
  {| initializeState := None; shouldUpdateState := None; updateState := None;
     finalizeState := Some (UserError "finalizeState failed");
     renderLayers := None; getSubLayers_throws := None |}.

(** The two live layers left as unmatched candidates, the finalizer of "a"
    being one that throws. *)
Definition unmatched_stage : World :=
  set_oldLayerMap
    (fun _ => [("a", Some (sample 1 "a" failing_finalize)); ("b", Some old_b)]) next_frame.

(** The output list of the walk grew by layers taken, in order, from [ls]. *)
Definition generated_within (ls : list Layer) (w w' : World) : Prop :=
  exists g, w_generatedLayers w' = w_generatedLayers w ++ g /\ sublist g ls.

(** The live list is as it was. *)
Definition same_live (w w' : World) : Prop :=
  layers (w_mgr w') = layers (w_mgr w).
(* ===================================================================== *)
(** ** Prop types ([parsePropTypes])                                       *)
(* ===================================================================== *)

Module PropTypes.

Import Picking.

(** A JavaScript number as far as [Math.max], [Math.min] and
    [Number.isFinite] tell numbers apart: the finite doubles are rationals
    and are compared as such. *)
Inductive number : Set :=
| NaN
| PosInfinity
| NegInfinity
| Finite (q : Q).

(** A JavaScript value.  An object is a plain object, given by its own
    enumerable members; a view is a typed array ([length] is a number) or
    a [DataView] (no [length]). *)
Inductive value : Type :=
| VUndefined
| VNull
| VBoolean (b : bool)
| VNumber (n : number)
| VString (s : string)
| VFunction (f : nat)
| VArray (items : list value)
| VView (length : option nat)
| VObject (members : gmap string value).

Abbreviation object := (gmap string value) (only parsing).

(** ['k' in o], [o.k] and [Object.assign(target, source)]. *)
Definition js_in (k : string) (o : object) : bool := bool_decide (is_Some (o !! k)).
Definition member (k : string) (o : object) : value := default VUndefined (o !! k).
Definition Object_assign (target source : object) : object := source ∪ target.

Definition Number_isFinite (v : value) : bool :=
  match v with
  | VNumber (Finite _) => true
  | _ => false
  end.

Definition Math_max (a b : number) : number :=
  match a, b with
  | NaN, _ | _, NaN => NaN
  | PosInfinity, _ | _, PosInfinity => PosInfinity
  | NegInfinity, x | x, NegInfinity => x
  | Finite x, Finite y => if Qle_bool x y then b else a
  end.

Definition Math_min (a b : number) : number :=
  match a, b with
  | NaN, _ | _, NaN => NaN
  | NegInfinity, _ | _, NegInfinity => NegInfinity
  | PosInfinity, x | x, PosInfinity => x
  | Finite x, Finite y => if Qle_bool x y then a else b
  end.

(** [getTypeOf(value)] *)
Definition getTypeOf (v : value) : string :=
  match v with
  | VArray _ | VView _ => "array"
  | VNull => "null"
  | VUndefined => "undefined"
  | VBoolean _ => "boolean"
  | VNumber _ => "number"
  | VString _ => "string"
  | VFunction _ => "function"
  | VObject _ => "object"
  end.

(** Regular expressions on a name, whose characters are code units below
    256.  With the flag [i] a letter of the pattern matches the code units
    with the same upper case; a code unit from 128 on never matches an
    ASCII letter. *)
Definition upper (c : ascii) : ascii :=
  let n := nat_of_ascii c in
  if (97 <=? n)%nat && (n <=? 122)%nat then ascii_of_nat (n - 32) else c.

Fixpoint prefix_i (p s : string) : bool :=
  match p, s with
  | EmptyString, _ => true
  | String a p', String b s' => Ascii.eqb (upper a) (upper b) && prefix_i p' s'
  | String _ _, EmptyString => false
  end.

(** [re.test(s)] for a pattern without anchor: some suffix of [s] begins
    with a match. *)
Fixpoint search (at_start : string -> bool) (s : string) : bool :=
  at_start s ||
  match s with
  | EmptyString => false
  | String _ s' => search at_start s'
  end.

(** [/color/i.test(name)] *)
Definition re_color (name : string) : bool := search (prefix_i "color") name.

(** [/radius|scale|width|height|pixel|size|miter/i.test(name)] *)
Definition re_known (name : string) : bool :=
  search (fun s => existsb (fun p => prefix_i p s)
                     ["radius"; "scale"; "width"; "height"; "pixel"; "size"; "miter"])
         name.

(** [.] matches any code unit but a line terminator. *)
Definition line_terminator (c : ascii) : bool :=
  Ascii.eqb c "010" || Ascii.eqb c "013".

(** [/^((?!scale).)*$/.test(name)]: at every position, [scale] does not
    begin there and the character is not a line terminator. *)
Fixpoint re_no_scale (name : string) : bool :=
  match name with
  | EmptyString => true
  | String c rest =>
      negb (String.prefix "scale" name) && negb (line_terminator c) && re_no_scale rest
  end.

(** [array.length === 3 || array.length === 4] *)
Definition length_3_or_4 (array : value) : bool :=
  match array with
  | VArray items => Nat.eqb (length items) 3 || Nat.eqb (length items) 4
  | VView (Some n) => Nat.eqb n 3 || Nat.eqb n 4
  | _ => false
  end.

(** [guessArrayType(name, array)] *)
Definition guessArrayType (name : string) (array : value) : object :=
  if re_color name && length_3_or_4 array then
    {[ "name" := VString name; "type" := VString "color"; "value" := array ]}
  else
    {[ "name" := VString name; "type" := VString "array"; "value" := array ]}.

(** [normalizePropDefinition(name, propDef)] *)
Definition normalizePropDefinition (name : string) (propDef : object) : object :=
  if negb (js_in "type" propDef) then
    if negb (js_in "value" propDef) then
      {[ "name" := VString name; "type" := VString "object"; "value" := VObject propDef ]}
    else
      Object_assign
        {[ "name" := VString name;
           "type" := VString (getTypeOf (member "value" propDef)) ]}
        propDef
  else Object_assign {[ "name" := VString name ]} propDef.

(** [parsePropDefinition(propDef)]; the [case] labels are compared with
    [===], and [undefined] is a label of its own. *)
Definition parsePropDefinition (propDef : object) : result object :=
  match member "type" propDef with
  | VString t =>
      if String.eqb t "number" then
        if js_in "value" propDef &&
           (negb (js_in "max" propDef) || Number_isFinite (member "max" propDef)) &&
           (negb (js_in "min" propDef) || Number_isFinite (member "min" propDef))
        then Returns propDef
        else AssertionFailed ""
      else Returns propDef
  | VUndefined => AssertionFailed ""
  | _ => Returns propDef
  end.

Definition isKnownProp (name : string) : bool := re_known name && re_no_scale name.

(** [guessNumberType(name, value)] *)
Definition guessNumberType (name : string) (v : number) : object :=
  let max := if isKnownProp name then 100%Q else 1%Q in
  let min := 0%Q in
  {[ "name" := VString name; "type" := VString "number";
     "max" := VNumber (Math_max v (Finite max));
     "min" := VNumber (Math_min v (Finite min));
     "value" := VNumber v ]}.

(** [parsePropType(name, propDef)], by the cases of
    [switch (getTypeOf(propDef))]: 'object', 'array', 'boolean', 'number',
    'function' and the default. *)
Definition parsePropType (name : string) (propDef : value) : result object :=
  match propDef with
  | VObject o => parsePropDefinition (normalizePropDefinition name o)
  | VArray _ | VView _ => Returns (guessArrayType name propDef)
  | VBoolean _ =>
      Returns {[ "name" := VString name; "type" := VString "boolean"; "value" := propDef ]}
  | VNumber n => Returns (guessNumberType name n)
  | VFunction _ =>
      Returns {[ "name" := VString name; "type" := VString "function"; "value" := propDef ]}
  | _ =>
      Returns {[ "name" := VString name; "type" := VString "unknown"; "value" := propDef ]}
  end.

(** The loop of [parsePropTypes] over the entries of [propDefs]. *)
Fixpoint parse_entries (entries : list (string * value)) (propTypes defaultProps : object)
    : result (object * object) :=
  match entries with
  | [] => Returns (propTypes, defaultProps)
  | (propName, propDef) :: rest =>
      match parsePropType propName propDef with
      | Returns propType =>
          parse_entries rest (<[propName := VObject propType]> propTypes)
                             (<[propName := member "value" propType]> defaultProps)
      | AssertionFailed msg => AssertionFailed msg
      end
  end.

(** [parsePropTypes(propDefs)]; the entries come in some order, on which
    the outcome does not depend. *)
Definition parsePropTypes (propDefs : object) : result (object * object) :=
  parse_entries (map_to_list propDefs) ∅ ∅.

(** The order of two numbers, [NaN] being comparable with nothing. *)
Definition num_le (a b : number) : Prop :=
  match a, b with
  | NaN, _ | _, NaN => False
  | NegInfinity, _ | _, PosInfinity => True
  | Finite x, Finite y => (x <= y)%Q
  | _, _ => False
  end.

(** The default value a property definition stands for: its [value]
    member when it is a definition object, else the definition itself. *)
Definition default_of (propDef : value) : value :=
  match propDef with
  | VObject o => if js_in "type" o || js_in "value" o then member "value" o else propDef
  | _ => propDef
  end.

End PropTypes.

(** The names every plain object inherits from [Object.prototype]: on the
    candidate map, a plain object, [oldLayerMap[id]] yields the inherited
    member for such an id that has no entry of its own. *)
Definition Object_prototype_names : list string :=
  ["constructor"; "hasOwnProperty"; "isPrototypeOf"; "propertyIsEnumerable";
   "toLocaleString"; "toString"; "valueOf"; "__proto__";
   "__defineGetter__"; "__defineSetter__"; "__lookupGetter__"; "__lookupSetter__"].

Definition inherited_name (id : string) : bool :=
  existsb (String.eqb id) Object_prototype_names.

(** A decimal numeral.  The keys of a plain object that are array indices
    (numerals, all of them) are enumerated by [for ... in] before the other
    keys, in numeric order; the other keys come in the order in which they
    were created. *)
Definition is_digit (c : ascii) : bool :=
  (48 <=? nat_of_ascii c)%nat && (nat_of_ascii c <=? 57)%nat.

Fixpoint only_digits (s : string) : bool :=
  match s with
  | EmptyString => true
  | String c rest => is_digit c && only_digits rest
  end.

Definition numeral (id : string) : bool :=
  negb (String.eqb id "") && only_digits id.








(** An id for which a plain object used as a map behaves as a map: it
    names no member of [Object.prototype] and is no array index. *)
Definition ordinary_id (id : string) : bool :=
  negb (inherited_name id) && negb (numeral id).


(** What the spec asks of an id kept by [getLayers], for a separator
    [sep]: it is a filter string, or begins with one followed by [sep]. *)
Definition equal_or_followed_by (sep : string) (ids : list string) (id : string) : Prop :=
  exists f, In f ids /\ (id = f \/ String.prefix (f +:+ sep) id = true).

(* ===================================================================== *)
(** * Properties                                                           *)
(* ===================================================================== *)

(** ** Picking colors *)

Module PickingFacts.
Import Picking.
Local Open Scope Z_scope.

Lemma ToInt32_small x : - 2 ^ 31 <= x < 2 ^ 31 -> ToInt32 x = x.
Proof. intros H. unfold ToInt32. rewrite Z.mod_small; lia. Qed.

Lemma ToInt32_mod256 a : ToInt32 a mod 256 = a mod 256.
Proof. unfold ToInt32. Z.div_mod_to_equations. lia. Qed.

Lemma js_and_255 a : js_and a 255 = a mod 256.
Proof.
  unfold js_and. rewrite (ToInt32_small 255) by lia.
  change 255 with (Z.ones 8). rewrite Z.land_ones by lia.
  change (2 ^ 8) with 256. rewrite ToInt32_mod256.
  apply ToInt32_small. pose proof (Z.mod_pos_bound a 256). lia.
Qed.

Lemma js_shr_div a k : 0 <= k -> js_shr a k = ToInt32 a / 2 ^ k.
Proof. intros. unfold js_shr. apply Z.shiftr_div_pow2; lia. Qed.

(** The asserted expression is the byte made of bits 24 to 31. *)
Lemma asserted_byte n : js_and (js_shr n 24) 255 = (n / 2 ^ 24) mod 256.
Proof.
  rewrite js_and_255, js_shr_div by lia.
  unfold ToInt32. Z.div_mod_to_equations. lia.
Qed.

(** Below 2^24 the three components are the three low bytes. *)
Lemma encodePickingColor_in_range i :
  0 <= i -> i + 1 < 2 ^ 24 ->
  encodePickingColor i =
    Returns [ (i + 1) mod 256; ((i + 1) / 256) mod 256; (i + 1) / 65536 ].
Proof.
  intros H0 H1. unfold encodePickingColor.
  rewrite asserted_byte, !js_and_255.
  rewrite Z.div_small, Z.mod_0_l by lia. cbn [Z.eqb].
  rewrite !js_shr_div by lia.
  rewrite (ToInt32_small (i + 1)) by lia.
  assert (Hq : 0 <= (i + 1) / 2 ^ 8 < 2 ^ 16).
  { split; [apply Z.div_pos; lia | apply Z.div_lt_upper_bound; lia]. }
  rewrite (ToInt32_small ((i + 1) / 2 ^ 8)) by lia.
  rewrite Z.div_div by lia. change (2 ^ 8 * 2 ^ 8) with 65536.
  change (2 ^ 8) with 256.
  rewrite (Z.mod_small ((i + 1) / 65536)); [reflexivity|].
  split; [apply Z.div_pos; lia | apply Z.div_lt_upper_bound; lia].
Qed.

(** For indices with [i + 1] below 2^24, decoding the bytes written by
    [encodePickingColor] gives the index back. *)
Lemma roundtrip_in_range i :
  0 <= i -> i + 1 < 2 ^ 24 -> roundtrip i = Returns (Some i).
Proof.
  intros H0 H1. unfold roundtrip. rewrite encodePickingColor_in_range by lia.
  cbn [Uint8Array_from map decodePickingColor]. do 2 f_equal.
  rewrite Zmod_mod, Zmod_mod.
  assert (Hq : 0 <= (i + 1) / 65536 < 256).
  { split; [apply Z.div_pos; lia | apply Z.div_lt_upper_bound; lia]. }
  rewrite (Z.mod_small ((i + 1) / 65536)) by lia.
  Z.div_mod_to_equations. lia.
Qed.

(** From 2^24 up to (not including) 2^32 the assertion fails. *)
Lemma encodePickingColor_rejects i :
  2 ^ 24 <= i + 1 < 2 ^ 32 ->
  encodePickingColor i = AssertionFailed "index out of picking color range".
Proof.
  intros H. unfold encodePickingColor. rewrite asserted_byte.
  assert (Hq : 1 <= (i + 1) / 2 ^ 24 < 256).
  { split; [apply Z.div_le_lower_bound; lia | apply Z.div_lt_upper_bound; lia]. }
  rewrite (Z.mod_small ((i + 1) / 2 ^ 24)) by lia.
  destruct ((i + 1) / 2 ^ 24 =? 0) eqn:E; [lia | reflexivity].
Qed.

(** C9, at the index 2^32 - 1: the assertion only looks at bits 24 to 31
    of [i + 1], which are all 0 in 2^32, so it passes although the index
    is far outside the 24-bit range; the color is black (the null picking
    color) and decodes to -1, not to the index. *)
Theorem C9_encode_accepts_2_32_minus_1 :
  encodePickingColor (2 ^ 32 - 1) = Returns [0; 0; 0] /\
  roundtrip (2 ^ 32 - 1) = Returns (Some (-1)) /\
  ~ (2 ^ 32 - 1) + 1 < 2 ^ 24.
Proof. repeat split; vm_compute; congruence. Qed.

End PickingFacts.

(** ** [getLayers] *)

Section GetLayers.
Local Open Scope Z_scope.

Lemma indexOf_lower s t : -1 <= indexOf s t.
Proof.
  induction s as [|c s IH]; cbn [indexOf].
  - destruct (String.prefix t ""); lia.
  - destruct (String.prefix t (String c s)); [lia|].
    destruct (indexOf s t <? 0) eqn:E; lia.
Qed.

(** [id.indexOf(layerId) === 0] says that [layerId] is a prefix of [id]. *)
Lemma indexOf_0_prefix s t :
  (indexOf s t =? 0) = String.prefix t s.
Proof.
  destruct s as [|c s]; cbn [indexOf].
  - destruct (String.prefix t ""); reflexivity.
  - destruct (String.prefix t (String c s)); [reflexivity|].
    pose proof (indexOf_lower s t).
    destruct (indexOf s t <? 0) eqn:E; [reflexivity|].
    apply Z.eqb_neq. lia.
Qed.

Lemma find_layerId_prefix ids id :
  find_layerId ids id = List.find (fun f => String.prefix f id) ids.
Proof.
  unfold find_layerId. induction ids as [|f ids IH]; cbn [List.find]; [reflexivity|].
  rewrite indexOf_0_prefix, IH. reflexivity.
Qed.

(** With non-empty filter strings, [find] yields a truthy value exactly
    when some filter string is a prefix of the id. *)
Lemma found_iff_prefix ids id :
  Forall (fun f => f <> "") ids ->
  found (find_layerId ids id) = true <->
  exists f, In f ids /\ String.prefix f id = true.
Proof.
  intros Hne. rewrite find_layerId_prefix. split.
  - destruct (List.find _ ids) as [f|] eqn:E; [|discriminate].
    intros _. apply List.find_some in E. exists f. exact E.
  - intros (f & Hin & Hp).
    destruct (List.find (fun f => String.prefix f id) ids) as [g|] eqn:E.
    + apply List.find_some in E as [Hg _].
      rewrite Forall_forall in Hne. apply list_elem_of_In in Hg.
      specialize (Hne g Hg). cbn [found].
      destruct (bool_decide (g = "")) eqn:B; [|reflexivity].
      apply bool_decide_eq_true in B. contradiction.
    + eapply List.find_none in E; [|exact Hin]. cbv beta in E. congruence.
Qed.

End GetLayers.

Section GetLayersClaim.

(** C8 (as amended): [getLayers({layerIds})], for non-empty filter strings,
    returns in order exactly the live layers whose id begins with one of
    the filter strings, a plain prefix test; with no filter it returns the
    live list itself.  The store is left as it was. *)
Theorem C8_getLayers_prefix (w : World) (ids : list string) :
  Forall (fun f => f <> "") ids ->
  getLayers (Some ids) w =
    (Return (List.filter (fun l => existsb (fun f => String.prefix f (l_id l)) ids)
                         (layers (w_mgr w))), w)
  /\ getLayers None w = (Return (layers (w_mgr w)), w).
Proof.
  intros Hne. split; [|reflexivity].
  unfold getLayers, bind, get, ret. do 2 f_equal.
  apply List.filter_ext. intros l.
  apply eq_true_iff_eq. rewrite found_iff_prefix by exact Hne.
  rewrite existsb_exists. reflexivity.
Qed.

Lemma C8_getLayers_prefix_witness :
  Forall (fun f => f <> "") ["a"] /\
  getLayers (Some ["a"]) two_layers =
    (Return [sample 1 "ab" quiet; sample 2 "ac" quiet], two_layers).
Proof.
  assert (H : Forall (fun f : string => f <> "") ["a"]).
  { repeat constructor. discriminate. }
  split; [exact H|].
  exact (proj1 (C8_getLayers_prefix two_layers ["a"] H)).
Defined.

(** C8 as stated fails: with live ids "ab" and "ac" and the filter "a",
    both layers are returned, and whatever the separator is, one of the two
    ids neither equals "a" nor begins with "a" followed by the separator. *)
Lemma C8_no_separator_needed :
  exists res, getLayers (Some ["a"]) two_layers = (Return res, two_layers) /\
    forall sep, sep <> "" ->
      exists l, In l res /\ ~ equal_or_followed_by sep ["a"] (l_id l).
Proof.
  exists [sample 1 "ab" quiet; sample 2 "ac" quiet]. split; [reflexivity|].
  intros sep Hsep. destruct sep as [|c sep]; [contradiction|].
  destruct (Ascii.ascii_dec c "b"%char) as [->|Hc].
  - exists (sample 2 "ac" quiet). split; [right; left; reflexivity|].
    intros HC. destruct HC as (f & Hin & H). destruct Hin as [<-|[]].
    destruct H as [H|H]; [discriminate|].
    change ("a" +:+ String "b" sep) with (String "a" (String "b" sep)) in H.
    cbn in H. discriminate.
  - exists (sample 1 "ab" quiet). split; [left; reflexivity|].
    intros HC. destruct HC as (f & Hin & H). destruct Hin as [<-|[]].
    destruct H as [H|H]; [discriminate|].
    change ("a" +:+ String c sep) with (String "a" (String c sep)) in H.
    cbn in H. destruct (Ascii.ascii_dec c "b"); [contradiction|discriminate].
Qed.

End GetLayersClaim.

(** ** Running a sequence *)

Lemma after_bind {A B} (m : M A) (k : A -> M B) (w w1 : World) (a : A) :
  m w = (Return a, w1) -> after (bind m k) w = after (k a) w1.
Proof. intros H. unfold after, bind. rewrite H. reflexivity. Qed.

(** ** Redraw queries before initialization *)

Section Uninitialized.

(** The base-class methods are guarded: while [internalState] is [null],
    [_getNeedsRedraw] answers [false] and [setNeedsRedraw] does nothing. *)
Lemma LayerObject__getNeedsRedraw_uninitialized (w : World) (l : Layer) (clear : bool) :
  internalState (fields w (l_oid l)) = None ->
  LayerObject__getNeedsRedraw l clear w = (Return RFalse, w).
Proof.
  intros H. unfold LayerObject__getNeedsRedraw, bind, get. rewrite H. reflexivity.
Qed.

Lemma setNeedsRedraw_uninitialized (w : World) (l : Layer) (rd : bool) :
  internalState (fields w (l_oid l)) = None ->
  setNeedsRedraw l rd w = (Return tt, w).
Proof.
  intros H. unfold setNeedsRedraw, bind, get. rewrite H. reflexivity.
Qed.

Lemma getNeedsRedraw_LayerObject_uninitialized (w : World) (l : Layer) (clear : option bool) :
  l_class l = LayerObjectClass ->
  internalState (fields w (l_oid l)) = None ->
  getNeedsRedraw l clear w = (Return RFalse, w).
Proof.
  intros Hc H. unfold getNeedsRedraw, _getNeedsRedraw. rewrite Hc.
  apply LayerObject__getNeedsRedraw_uninitialized, H.
Qed.

(** The override in [Layer] goes on to iterate over [this.getModels()],
    which is [null] while [this.state] is [null]. *)
Lemma getNeedsRedraw_Layer_constructed (w : World) (l : Layer) (clear : option bool) :
  l_class l = LayerClass ->
  internalState (fields w (l_oid l)) = None ->
  state (fields w (l_oid l)) = None ->
  getNeedsRedraw l clear w = (Throw (TypeError "null is not iterable"), w).
Proof.
  intros Hc Hi Hs.
  unfold getNeedsRedraw, _getNeedsRedraw, Layer__getNeedsRedraw. rewrite Hc.
  unfold bind. rewrite (LayerObject__getNeedsRedraw_uninitialized _ _ _ Hi).
  unfold get. rewrite Hi. cbn [ret].
  unfold getModels, the_state, bind, get. rewrite Hc, Hs. reflexivity.
Qed.

(** C10, on a [Layer] just constructed (no record in the store yet):
    [getNeedsRedraw] throws, with and without [clearRedrawFlags], while
    [setNeedsRedraw] does nothing; on a plain [LayerObject] both are
    harmless. *)
Theorem C10_Layer_getNeedsRedraw_throws :
  getNeedsRedraw (sample 1 "a" quiet) None new_world
    = (Throw (TypeError "null is not iterable"), new_world) /\
  getNeedsRedraw (sample 1 "a" quiet) (Some true) new_world
    = (Throw (TypeError "null is not iterable"), new_world) /\
  getNeedsRedraw (sample 1 "a" quiet) (Some false) new_world
    = (Throw (TypeError "null is not iterable"), new_world) /\
  setNeedsRedraw (sample 1 "a" quiet) true new_world = (Return tt, new_world) /\
  getNeedsRedraw (sample_object 1 "a" quiet) None new_world = (Return RFalse, new_world).
Proof.
  repeat split;
    first [ apply getNeedsRedraw_Layer_constructed; reflexivity
          | apply setNeedsRedraw_uninitialized; reflexivity
          | apply getNeedsRedraw_LayerObject_uninitialized; reflexivity ].
Qed.

End Uninitialized.

(** ** Initialization of a fresh layer *)

Section FreshLayer.

(** [new LayerState({})] fails the constructor's assertion, so
    [LayerObject._initialize] throws whenever its own assertion passes,
    and the store is left untouched. *)
Lemma LayerObject__initialize_throws (w : World) (l : Layer) :
  LayerObject__initialize l w = (Throw (AssertionError ""), w).
Proof.
  unfold LayerObject__initialize, bind, get.
  destruct (internalState (fields w (l_oid l))), (state (fields w (l_oid l)));
    reflexivity.
Qed.

Lemma Layer__initialize_throws (w : World) (l : Layer) :
  exists msg, Layer__initialize l w = (Throw (TypeError msg), w).
Proof.
  unfold Layer__initialize, bind, get.
  destruct (context (fields w (l_oid l))); eexists; reflexivity.
Qed.

(** In either class [_initialize] throws and changes nothing. *)
Lemma _initialize_throws (w : World) (l : Layer) :
  exists e, _initialize l w = (Throw e, w).
Proof.
  unfold _initialize. destruct (l_class l).
  - eexists. apply LayerObject__initialize_throws.
  - destruct (Layer__initialize_throws w l) as [msg H]. eexists. exact H.
Qed.

Lemma the_internalState_null (w : World) (l : Layer) :
  internalState (fields w (l_oid l)) = None ->
  the_internalState l w = (Throw (TypeError "internalState is null"), w).
Proof. intros H. unfold the_internalState, bind, get. rewrite H. reflexivity. Qed.

(** So [_initializeLayer] on a layer without [internalState] logs the
    failure, then throws on [layer.internalState.layer = layer]; the
    lifecycle is never advanced. *)
Lemma _initializeLayer_fresh (w : World) (l : Layer) :
  internalState (fields w (l_oid l)) = None ->
  result_of (_initializeLayer l) w = Throw (TypeError "internalState is null") /\
  w_layers (after (_initializeLayer l) w) = w_layers w.
Proof.
  intros Hi.
  destruct (_initialize_throws (set_log (fun q => q ++ [LogInitializing (layerName l)]) w) l)
    as [e He].
  unfold result_of, after, _initializeLayer, bind, try_catch, log, modify.
  rewrite He. cbn [fst snd ret].
  rewrite the_internalState_null by exact Hi. split; reflexivity.
Qed.

(** C7, on an id present only in the new list: a [Layer] and a plain
    [LayerObject] submitted to a manager with no previous layers.  Neither
    reaches [INITIALIZED], no change flag is ever set (no layer state
    exists), neither is appended, and [setLayers] raises the [TypeError]. *)
Theorem C7_fresh_layer_not_initialized :
  let w := set_arrays <[5 := [Item (sample 1 "a" quiet); Item (sample_object 2 "b" quiet)]]>
             empty_stage in
  let w' := after (setLayers 5) w in
  result_of (setLayers 5) w = Throw (TypeError "internalState is null") /\
  lifecycle (fields w' 1) = NO_STATE /\ lifecycle (fields w' 2) = NO_STATE /\
  internalState (fields w' 1) = None /\ internalState (fields w' 2) = None /\
  w_istates w' = ∅ /\
  layers (w_mgr w') = [] /\
  w_log w' =
    [ LogInitializing 1;
      WarnInitializing 1 (TypeError "super.initialize is not a function");
      WarnMatching 1 (TypeError "internalState is null");
      LogInitializing 2;
      WarnInitializing 2 (AssertionError "");
      WarnMatching 2 (TypeError "internalState is null") ].
Proof. vm_compute. repeat split. Qed.

End FreshLayer.

(** ** Failure isolation *)

Section FailureIsolation.

(** C1, on the frame where the update hook of the new "a" throws: both new
    layers are matched, updated and appended, and the old ones retired, but
    the error caught in [_updateLayer] is only logged: what [_updateLayer]
    returns is dropped by its caller, and [setLayers] returns normally. *)
Theorem C1_update_error_not_raised :
  let w' := after (setLayers 5) next_frame in
  result_of (setLayers 5) next_frame = Return tt /\
  In (WarnUpdate 3 (UserError "updateState failed")) (w_log w') /\
  map l_oid (layers (w_mgr w')) = [3; 4] /\
  map (fun o => lifecycle (fields w' o)) [1; 2; 3; 4]
    = [AWAITING_GC; AWAITING_GC; MATCHED; MATCHED] /\
  w_log w' = [ LogMatched 1 3; LogUpdating 3 "";
               WarnUpdate 3 (UserError "updateState failed");
               LogMatched 2 4; LogUpdating 4 "" ].
Proof. vm_compute. repeat split. right; right; left; reflexivity. Qed.

End FailureIsolation.

(** ** Finalization *)

Section Finalization.

(** The assertion of [_finalizeLayer] stops a layer that is in the middle
    of being finalized. *)
Lemma _finalizeLayer_while_finalizing (w : World) (l : Layer) :
  lifecycle (fields w (l_oid l)) = AWAITING_FINALIZATION ->
  _finalizeLayer l w = (Throw (AssertionError ""), w).
Proof.
  intros H. unfold _finalizeLayer, bind, get. rewrite H. reflexivity.
Qed.

(** It does not stop one that is already [FINALIZED]. *)
Lemma _finalizeLayer_again (w : World) (l : Layer) :
  lifecycle (fields w (l_oid l)) = FINALIZED ->
  exists r, result_of (_finalizeLayer l) w = Return r /\
    In (LogFinalizing (l_oid l)) (w_log (after (_finalizeLayer l) w)).
Proof.
  intros H. unfold result_of, after, _finalizeLayer, bind, get. rewrite H.
  cbn [LIFECYCLE_eqb negb assert ret].
  unfold update_fields, mgr_setNeedsRedraw, modify, try_catch, bind.
  match goal with |- context [_finalize l ?w0] => destruct (_finalize l w0) as [[[]|e] w1] end;
    cbn; eexists; (split; [reflexivity|]);
    apply in_or_app; right; left; reflexivity.
Qed.

(** C6, over three frames: "a" and "b" are finalized in the first; in the
    third, "a" (unmatched again) goes through [_finalizeLayer] a second
    time without any assertion failure, and "b", matched by a new object,
    leaves [FINALIZED] for [AWAITING_GC]. *)
Theorem C6_finalized_twice :
  let w1 := after (setLayers 5) three_frames in
  let w2 := after (setLayers 6) w1 in
  let w3 := after (setLayers 7) w2 in
  lifecycle (fields w1 1) = FINALIZED /\ lifecycle (fields w1 2) = FINALIZED /\
  finalizations 1 w1 = 1 /\
  lifecycle (fields w2 1) = FINALIZED /\ lifecycle (fields w2 2) = FINALIZED /\
  result_of (setLayers 7) w2 = Return tt /\
  finalizations 1 w3 = 2 /\
  lifecycle (fields w3 2) = AWAITING_GC.
Proof. vm_compute. repeat split. Qed.

End Finalization.

(** ** Asynchronous loads *)

Section AsyncLoads.

(** A callback of [_loadAsyncProp] whose count is no longer the current
    [loadCount] leaves the store exactly as it is. *)
Lemma loadAsyncProp_then_stale (w : World) (this a count d : nat) (p : AsyncProp) :
  w_async w !! a = Some p ->
  count <> loadCount p ->
  loadAsyncProp_then this a count d w = (Return tt, w).
Proof.
  intros Hp Hc. unfold loadAsyncProp_then, the_asyncProp, bind, get. rewrite Hp.
  cbn [ret]. destruct (Nat.eqb_spec count (loadCount p)); [contradiction|reflexivity].
Qed.

(** The callback of [_loadData] has no such test: whatever was requested
    since, it installs what it is given. *)
Lemma loadData_then_installs (w : World) (l : Layer) (d r : nat) (s : LayerState) :
  internalState (fields w (l_oid l)) = Some r ->
  w_istates w !! r = Some s ->
  ls_data <$> (w_istates (after (loadData_then l d) w) !! r) = Some (DArray d).
Proof.
  intros Hi Hs.
  assert (E : the_internalState l w = (Return (r, s), w)).
  { unfold the_internalState, bind, get. rewrite Hi, Hs. reflexivity. }
  unfold loadData_then. rewrite (after_bind _ _ w w (r, s) E).
  assert (E1 : update_istate r (set_ls_data (DArray d)) w
               = (Return tt, set_istates <[r := set_ls_data (DArray d) s]> w)).
  { unfold update_istate, modify, set_istates. cbv beta. rewrite Hs. reflexivity. }
  rewrite (after_bind _ _ w _ tt E1).
  set (w1 := set_istates _ w).
  assert (H1 : w_istates w1 !! r = Some (set_ls_data (DArray d) s)).
  { unfold w1. cbn [w_istates set_istates]. apply lookup_insert_eq. }
  assert (E2 : the_internalState l w1 = (Return (r, set_ls_data (DArray d) s), w1)).
  { unfold the_internalState, bind, get.
    change (internalState (fields w1 (l_oid l))) with (internalState (fields w (l_oid l))).
    rewrite Hi, H1. reflexivity. }
  unfold setChangeFlags. rewrite (after_bind _ _ w1 w1 _ E2). cbv beta iota.
  cbn [onlyData dataChanged updateTriggersChanged propsChanged viewportChanged andb].
  destruct (negb (dataChanged (default noFlags (changeFlags (set_ls_data (DArray d) s)))));
    unfold after, bind, log, update_istate, modify, ret;
    cbn [fst snd w_istates set_log set_istates];
    rewrite H1; cbn [fst snd w_istates set_log set_istates];
    rewrite lookup_insert_eq; reflexivity.
Qed.

(** On the layer-state path the later request wins: after "u2" resolved,
    the late result of "u1" changes nothing. *)
Lemma async_prop_last_request_wins :
  let w := after async_u2_wins next_frame in
  displayed 21 "data" w = Return (DArray 20) /\
  (changeFlags <$> (w_istates w !! 21)) = Some (Some
    {| dataChanged := true; propsChanged := false; updateTriggersChanged := false;
       viewportChanged := false; propsOrDataChanged := true; somethingChanged := true |}) /\
  resolve 0 10 w = (Return tt, set_pending (fun _ => []) w).
Proof. vm_compute. repeat split. Qed.

(** C2, on [_loadData]: its callback carries no count.  "u1" is requested,
    then "u2"; "u2" resolves with 20 and is installed; "u1" resolves last
    with 10 and overwrites it, raising [dataChanged] once more. *)
Theorem C2_loadData_stale_result_installed :
  let before := after (_loadData (remote 1 "a" "u1") ;;; setLayers 5 ;;; resolve 1 20)
                      remote_stage in
  let w := after late_u1 remote_stage in
  (lastUrl <$> (w_istates w !! 21)) = Some (Some "u2") /\
  (ls_data <$> (w_istates before !! 21)) = Some (DArray 20) /\
  (ls_data <$> (w_istates w !! 21)) = Some (DArray 10) /\
  internalState (fields w 3) = Some 21 /\
  (changeFlags <$> (w_istates w !! 21)) = Some (Some
    {| dataChanged := true; propsChanged := false; updateTriggersChanged := false;
       viewportChanged := false; propsOrDataChanged := true; somethingChanged := true |}).
Proof. vm_compute. repeat split. Qed.

End AsyncLoads.

(** ** State transfer and duplicate ids: the cases that fail *)

Section Sharing.



End Sharing.

(** ** Frame lemmas: what the methods leave alone *)

Section Frame.

Context (R : World -> World -> Prop) `{!PreOrder R}.

Lemma preserves_ret {A} (a : A) : preserves R (ret a).
Proof. intros w. reflexivity. Qed.

Lemma preserves_throw {A} (e : error) : preserves R (@throw A e).
Proof. intros w. reflexivity. Qed.

Lemma preserves_get : preserves R get.
Proof. intros w. reflexivity. Qed.

Lemma preserves_bind {A B} (m : M A) (k : A -> M B) :
  preserves R m -> (forall a, preserves R (k a)) -> preserves R (bind m k).
Proof.
  intros Hm Hk w. specialize (Hm w). unfold after, bind in *.
  destruct (m w) as [[a|e] w1]; cbn [snd] in *.
  - etransitivity; [exact Hm | apply Hk].
  - exact Hm.
Qed.

Lemma preserves_try_catch {A} (m : M A) (h : error -> M A) :
  preserves R m -> (forall e, preserves R (h e)) -> preserves R (try_catch m h).
Proof.
  intros Hm Hh w. specialize (Hm w). unfold after, try_catch in *.
  destruct (m w) as [[a|e] w1]; cbn [snd] in *.
  - exact Hm.
  - etransitivity; [exact Hm | apply Hh].
Qed.

Lemma preserves_modify (f : World -> World) :
  (forall w, R w (f w)) -> preserves R (modify f).
Proof. intros H w. apply H. Qed.

(** What follows a computation in a sequence extends what it did. *)
Lemma bind_extends {A B} (m : M A) (k : A -> M B) (w : World) :
  (forall a, preserves R (k a)) -> R (after m w) (after (bind m k) w).
Proof.
  intros Hk. unfold after, bind.
  destruct (m w) as [[a|e] w1]; cbn [snd]; [apply Hk | reflexivity].
Qed.

End Frame.

Create HintDb frame.

Ltac frame_step :=
  match goal with
  | |- preserves _ (bind _ _) => apply preserves_bind; [exact _| |intros ?]
  | |- preserves _ (try_catch _ _) => apply preserves_try_catch; [exact _| |intros ?]
  | |- preserves _ (ret _) => apply preserves_ret; exact _
  | |- preserves _ (throw _) => apply preserves_throw; exact _
  | |- preserves _ get => apply preserves_get; exact _
  | |- preserves _ (match ?x with _ => _ end) => destruct x
  end.

Ltac frame := repeat first [ frame_step | solve [eauto with frame] ].

Section FrameLevel1.

Context (R : World -> World -> Prop) `{!PreOrder R}.

Lemma preserves_assert c msg : preserves R (assert c msg).
Proof. unfold assert. frame. Qed.

Lemma preserves_call_hook h : preserves R (call_hook h).
Proof. unfold call_hook. frame. Qed.

Lemma preserves_for_of {A} (xs : list A) (body : A -> M unit) :
  (forall x, preserves R (body x)) -> preserves R (for_of xs body).
Proof.
  intros H. induction xs as [|x xs IH]; cbn [for_of]; frame.
Qed.

End FrameLevel1.

(** Induction on a layer and, for a composite one, on its sublayers. *)
Lemma Layer_nested_ind (P : Layer -> Prop) :
  (forall o c i p h sub,
      match sub with Some ls => Forall P ls | None => True end ->
      P (MkLayer o c i p h sub)) ->
  forall l, P l.
Proof.
  intros H. fix IH 1. intros [o c i p h sub]. apply H.
  destruct sub as [ls|]; [|exact I].
  induction ls as [|x r IHr]; constructor; [apply IH | exact IHr].
Qed.

Lemma ids_of_unfold (l : Layer) :
  ids_of l = l_id l :: match l_sub l with Some ls => ids_of_all ls | None => [] end.
Proof.
  destruct l as [o c i p h [ls|]]; reflexivity.
Qed.

(** The loop over the sublayers is the loop over a list. *)
Lemma update_sublayers_of_unfold (newLayer : Layer) (seen : option error) :
  update_sublayers_of newLayer seen =
    ('(seen, descend) <- visit_layer newLayer seen ;;
     (if descend : bool then
        match l_sub newLayer with
        | Some sublayers => update_sublayers_loop sublayers None ;;; ret tt
        | None => ret tt
        end
      else ret tt) ;;;
     ret seen).
Proof. destruct newLayer. reflexivity. Qed.

Section FrameMethods.

Context (R : World -> World -> Prop) `{!PreOrder R}.

(** What [R] has to tolerate: a new log entry, a write to an existing
    layer state, to a model, to the waiting callbacks. *)
Hypothesis R_log : forall e, preserves R (log e).
Hypothesis R_istate : forall r f, preserves R (update_istate r f).
Hypothesis R_models : forall f, preserves R (modify (set_models f)).
Hypothesis R_pending : forall f, preserves R (modify (set_pending f)).

Local Hint Resolve preserves_assert preserves_call_hook : frame.

Lemma preserves_the_internalState l : preserves R (the_internalState l).
Proof. unfold the_internalState. frame. Qed.
Local Hint Resolve preserves_the_internalState : frame.

Lemma preserves_the_state l : preserves R (the_state l).
Proof. unfold the_state. frame. Qed.
Local Hint Resolve preserves_the_state : frame.

Lemma preserves_getModels l : preserves R (getModels l).
Proof. unfold getModels. frame. Qed.
Local Hint Resolve preserves_getModels : frame.

Lemma preserves_for_models l body :
  (forall m, preserves R (body m)) -> preserves R (for_models l body).
Proof.
  intros H. unfold for_models. frame. apply preserves_for_of; [exact _|exact H].
Qed.

Lemma preserves_set_model_layer l m : preserves R (set_model_layer l m).
Proof. unfold set_model_layer. frame. Qed.
Local Hint Resolve preserves_set_model_layer : frame.

Lemma preserves_for_models_set l : preserves R (for_models l (set_model_layer l)).
Proof. apply preserves_for_models. frame. Qed.
Local Hint Resolve preserves_for_models_set : frame.

Lemma preserves_for_models_skip l : preserves R (for_models l (fun _ => ret tt)).
Proof. apply preserves_for_models. intros m. frame. Qed.
Local Hint Resolve preserves_for_models_skip : frame.

Lemma preserves_setNeedsRedraw l rd : preserves R (setNeedsRedraw l rd).
Proof. unfold setNeedsRedraw. frame. Qed.
Local Hint Resolve preserves_setNeedsRedraw : frame.

Lemma preserves_setChangeFlags l flags : preserves R (setChangeFlags l flags).
Proof. unfold setChangeFlags. frame. Qed.
Local Hint Resolve preserves_setChangeFlags : frame.

Lemma preserves_clearChangeFlags l : preserves R (clearChangeFlags l).
Proof. unfold clearChangeFlags. frame. Qed.
Local Hint Resolve preserves_clearChangeFlags : frame.

Lemma preserves_getChangeFlags l : preserves R (getChangeFlags l).
Proof. unfold getChangeFlags. frame. Qed.
Local Hint Resolve preserves_getChangeFlags : frame.

Lemma preserves_printChangeFlags l : preserves R (printChangeFlags l).
Proof. unfold printChangeFlags. frame. Qed.
Local Hint Resolve preserves_printChangeFlags : frame.

Lemma preserves__loadData l : preserves R (_loadData l).
Proof. unfold _loadData, fetch_then. frame. Qed.
Local Hint Resolve preserves__loadData : frame.

Lemma preserves__activeUpdateTrigger l : preserves R (_activeUpdateTrigger l).
Proof. unfold _activeUpdateTrigger. frame. Qed.
Local Hint Resolve preserves__activeUpdateTrigger : frame.

Lemma preserves_diffProps l : preserves R (diffProps l).
Proof. unfold diffProps. frame. Qed.
Local Hint Resolve preserves_diffProps : frame.

Lemma preserves_needsUpdate l : preserves R (needsUpdate l).
Proof. unfold needsUpdate. frame. Qed.
Local Hint Resolve preserves_needsUpdate : frame.

Lemma preserves__updateState l : preserves R (_updateState l).
Proof. unfold _updateState. frame. Qed.
Local Hint Resolve preserves__updateState : frame.

Lemma preserves__update l : preserves R (_update l).
Proof. unfold _update. frame. Qed.
Local Hint Resolve preserves__update : frame.

Lemma preserves__initialize l : preserves R (_initialize l).
Proof.
  intros w. destruct (_initialize_throws w l) as [e He].
  unfold after. rewrite He. reflexivity.
Qed.
Local Hint Resolve preserves__initialize : frame.

Section FrameManager.

(** Further, for the manager's pass: a write to a member of a layer
    object or of a state object, the manager's redraw reason, a layer
    appended to the output, a candidate set to [null]. *)
Hypothesis R_fields : forall o f, preserves R (update_fields o f).
Hypothesis R_states : forall f, preserves R (modify (set_states f)).
Hypothesis R_redraw : forall reason, preserves R (mgr_setNeedsRedraw reason).
Hypothesis R_generated : forall f, preserves R (modify (set_generatedLayers f)).
Variable Q : string -> Prop.
Hypothesis R_consume :
  forall id, Q id -> preserves R (modify (set_oldLayerMap (fun m => map_set m id None))).

Lemma preserves__finalize l : preserves R (_finalize l).
Proof. unfold _finalize. frame. Qed.
Local Hint Resolve preserves__finalize : frame.

Lemma preserves__transferState l old : preserves R (_transferState l old).
Proof.
  unfold _transferState, Layer__transferState, LayerObject__transferState. frame.
Qed.
Local Hint Resolve preserves__transferState : frame.

Lemma preserves__initializeLayer l : preserves R (_initializeLayer l).
Proof. unfold _initializeLayer. frame. Qed.
Local Hint Resolve preserves__initializeLayer : frame.

Lemma preserves__transferLayerState old l : preserves R (_transferLayerState old l).
Proof. unfold _transferLayerState. frame. Qed.
Local Hint Resolve preserves__transferLayerState : frame.

Lemma preserves__updateLayer l : preserves R (_updateLayer l).
Proof. unfold _updateLayer. frame. Qed.
Local Hint Resolve preserves__updateLayer : frame.

Lemma preserves__finalizeLayer l : preserves R (_finalizeLayer l).
Proof. unfold _finalizeLayer. frame. Qed.
Local Hint Resolve preserves__finalizeLayer : frame.

Lemma preserves_match_layer old l : preserves R (match_layer old l).
Proof. unfold match_layer. frame. Qed.
Local Hint Resolve preserves_match_layer : frame.

Lemma preserves_take_candidate l : Q (l_id l) -> preserves R (take_candidate l).
Proof. intros HQ. unfold take_candidate. frame. Qed.

Lemma preserves_visit_layer l seen : Q (l_id l) -> preserves R (visit_layer l seen).
Proof.
  intros HQ. unfold visit_layer.
  apply preserves_bind; [exact _| apply preserves_take_candidate, HQ |]. intros old. frame.
Qed.

Lemma preserves_update_sublayers_loop_of ls :
  Forall (fun l => forall seen, preserves R (update_sublayers_of l seen)) ls ->
  forall seen, preserves R (update_sublayers_loop ls seen).
Proof.
  induction 1 as [|x r Hx _ IH]; intros seen; cbn [update_sublayers_loop]; frame.
Qed.

Lemma preserves_update_sublayers_of l :
  Forall Q (ids_of l) -> forall seen, preserves R (update_sublayers_of l seen).
Proof.
  induction l as [o c i p h sub IH] using Layer_nested_ind. intros HQ seen.
  rewrite update_sublayers_of_unfold. cbn [l_sub].
  rewrite ids_of_unfold in HQ. apply Forall_cons in HQ as [Hi HQ].
  apply preserves_bind; [exact _| apply preserves_visit_layer; exact Hi |].
  intros [seen' descend].
  destruct descend, sub as [ls|]; frame.
  apply preserves_update_sublayers_loop_of.
  cbn [l_sub] in HQ. unfold ids_of_all in HQ. clear Hi.
  induction ls as [|x r IHr]; constructor.
  - apply Forall_cons in IH as [IHx _]. cbn [flat_map] in HQ.
    apply Forall_app in HQ as [Hx _]. exact (IHx Hx).
  - apply Forall_cons in IH as [_ IHr']. cbn [flat_map] in HQ.
    apply Forall_app in HQ as [_ Hr]. exact (IHr IHr' Hr).
Qed.

Lemma preserves_update_sublayers_loop ls seen :
  Forall Q (ids_of_all ls) -> preserves R (update_sublayers_loop ls seen).
Proof.
  intros HQ. apply preserves_update_sublayers_loop_of.
  unfold ids_of_all in HQ.
  induction ls as [|x r IH]; constructor.
  - cbn [flat_map] in HQ. apply Forall_app in HQ as [Hx _].
    intros s. apply preserves_update_sublayers_of, Hx.
  - cbn [flat_map] in HQ. apply Forall_app in HQ as [_ Hr]. exact (IH Hr).
Qed.

Lemma preserves_finalize_entries m seen : preserves R (finalize_entries m seen).
Proof.
  revert seen. induction m as [|[k [l|]] m IH]; intros seen; cbn [finalize_entries]; frame.
Qed.

Lemma preserves__finalizeOldLayers : preserves R _finalizeOldLayers.
Proof. unfold _finalizeOldLayers. frame. apply preserves_finalize_entries. Qed.

End FrameManager.

End FrameMethods.

(** ** Re-submission of the same array *)

Section Resubmission.

#[local] Instance same_request_preorder : PreOrder same_request.
Proof.
  split.
  - intros w. split; reflexivity.
  - intros a b c [H1 H2] [H3 H4]. split; congruence.
Qed.

Ltac same_request_prim := intro; split; reflexivity.

Local Hint Extern 1 (preserves same_request (log _)) => same_request_prim : frame.
Local Hint Extern 1 (preserves same_request (update_istate _ _)) => same_request_prim : frame.
Local Hint Extern 1 (preserves same_request (update_fields _ _)) => same_request_prim : frame.
Local Hint Extern 1 (preserves same_request (modify _)) => same_request_prim : frame.
Local Hint Extern 1 (preserves same_request (mgr_setNeedsRedraw _)) =>
  same_request_prim : frame.

Lemma same_request_make_oldLayerMap ls : preserves same_request (make_oldLayerMap ls).
Proof. induction ls as [|l ls IH]; cbn [make_oldLayerMap]; frame. Qed.

Lemma same_request__updateLayers old new : preserves same_request (_updateLayers old new).
Proof.
  unfold _updateLayers. frame.
  - apply same_request_make_oldLayerMap.
  - apply (preserves_update_sublayers_loop same_request) with (Q := fun _ => True);
      try exact _; intros; frame.
    apply Forall_true. exact (fun _ => I).
  - apply preserves__finalizeOldLayers; try exact _; intros; frame.
Qed.

(** Once past the assertion and the comparison, a call of [setLayers]
    leaves the manager remembering the array it was given, with the
    context it had, however the pass ends. *)
Lemma setLayers_remembers (w : World) (r : nat) :
  is_Some (viewport (mgr_context (w_mgr w))) ->
  lastRenderedLayers (w_mgr (after (setLayers r) w)) = r /\
  mgr_context (w_mgr (after (setLayers r) w)) = mgr_context (w_mgr w).
Proof.
  intros Hv. unfold setLayers.
  rewrite (after_bind get _ w w w eq_refl).
  rewrite (after_bind (assert _ _) _ w w tt)
    by (rewrite bool_decide_eq_true_2 by exact Hv; reflexivity).
  destruct (Nat.eqb_spec r (lastRenderedLayers (w_mgr w))) as [E|E].
  - split; [symmetry; exact E | reflexivity].
  - rewrite (after_bind (modify _) _ w _ tt eq_refl).
    match goal with
    | |- context [after ?m ?w0] =>
        assert (H : preserves same_request m);
        [| destruct (H w0) as [H1 H2]; rewrite H1, H2; split; reflexivity]
    end.
    frame.
    + apply preserves_for_of; [exact _|]. intros l. frame.
    + apply same_request__updateLayers.
Qed.

(** C4: a call of [setLayers] with the array object given to the call
    just before it (the viewport being set, as [setLayers] requires) does
    no matching: it returns normally and the only change to the store is
    the log line saying the update was ignored; the live list, every
    member of every object and all flags are as the first call left them. *)
Theorem C4_setLayers_same_array_is_noop (w : World) (r : nat) :
  is_Some (viewport (mgr_context (w_mgr w))) ->
  let w1 := after (setLayers r) w in
  setLayers r w1 = (Return tt, set_log (fun l => l ++ [LogIgnoringUpdate]) w1).
Proof.
  intros Hv w1. destruct (setLayers_remembers w r Hv) as [H1 H2]. fold w1 in H1, H2.
  unfold setLayers, bind, get.
  rewrite bool_decide_eq_true_2 by (rewrite H2; exact Hv).
  cbn [assert ret]. rewrite H1, Nat.eqb_refl. reflexivity.
Qed.

Lemma C4_setLayers_same_array_is_noop_witness :
  is_Some (viewport (mgr_context (w_mgr next_frame))) /\
  setLayers 5 (after (setLayers 5) next_frame)
    = (Return tt, set_log (fun l => l ++ [LogIgnoringUpdate])
                          (after (setLayers 5) next_frame)).
Proof.
  assert (H : is_Some (viewport (mgr_context (w_mgr next_frame)))) by (eexists; reflexivity).
  split; [exact H|]. exact (C4_setLayers_same_array_is_noop next_frame 5 H).
Defined.

End Resubmission.

(** ** Transfer of state to a matched layer *)

Section Transfer.

#[local] Instance same_objects_preorder : PreOrder same_objects.
Proof.
  split.
  - intros w. repeat split; reflexivity.
  - intros a b c (H1 & H2 & H3) (H4 & H5 & H6). repeat split; congruence.
Qed.

Ltac same_objects_prim := intro; repeat split; reflexivity.

Local Hint Extern 1 (preserves same_objects (log _)) => same_objects_prim : frame.
Local Hint Extern 1 (preserves same_objects (update_istate _ _)) => same_objects_prim : frame.
Local Hint Extern 1 (preserves same_objects (modify (set_models _))) =>
  same_objects_prim : frame.
Local Hint Extern 1 (preserves same_objects (modify (set_pending _))) =>
  same_objects_prim : frame.

Lemma same_objects_for_models_set l :
  preserves same_objects (for_models l (set_model_layer l)).
Proof. apply preserves_for_models_set; try exact _; intros; frame. Qed.

Lemma same_objects_diffProps l : preserves same_objects (diffProps l).
Proof. apply preserves_diffProps; try exact _; intros; frame. Qed.

Lemma fields_update_fields (w : World) (o o' : nat) (f : LayerFields -> LayerFields) :
  fields (after (update_fields o f) w) o' =
    if decide (o = o') then f (fields w o) else fields w o'.
Proof.
  unfold after, update_fields, modify, fields. cbn [snd w_layers set_layers].
  rewrite lookup_insert. destruct (decide (o = o')); reflexivity.
Qed.

Lemma after_update_fields {B} (o : nat) f (k : unit -> M B) (w : World) :
  after (bind (update_fields o f) k) w = after (k tt) (after (update_fields o f) w).
Proof. reflexivity. Qed.

Lemma same_objects_fields (w w' : World) (o : nat) :
  same_objects w w' -> fields w' o = fields w o.
Proof. intros (H & _ & _). unfold fields. rewrite H. reflexivity. Qed.

(** The three assignments at the head of [_transferState], and nothing
    else, write to layer objects. *)
Lemma LayerObject__transferState_fields (w : World) (l old : Layer) (s i : nat) :
  state (fields w (l_oid old)) = Some s ->
  internalState (fields w (l_oid old)) = Some i ->
  let w' := after (LayerObject__transferState l old) w in
  (forall o, fields w' o =
     if decide (l_oid l = o) then
       {| lifecycle := lifecycle (fields w o); state := Some s;
          internalState := Some i; oldProps := Some (l_props old);
          context := context (fields w o) |}
     else fields w o) /\
  w_next w' = w_next w.
Proof.
  intros Hs Hi w'. subst w'. unfold LayerObject__transferState.
  rewrite (after_bind get _ w w w eq_refl). rewrite Hs, Hi.
  rewrite (after_bind (modify _) _ w _ tt eq_refl).
  rewrite !after_update_fields.
  match goal with
  | |- context [after (bind ?m ?k) ?w4] =>
      assert (H : same_objects w4 (after (bind m k) w4))
  end.
  { apply preserves_bind; [exact _| apply same_objects_for_models_set |].
    intros _. apply same_objects_diffProps. }
  split.
  - intros o. rewrite (same_objects_fields _ _ o H).
    rewrite !fields_update_fields.
    destruct (decide (l_oid l = o)) as [E|E]; [destruct E|reflexivity].
    rewrite !decide_True by reflexivity. reflexivity.
  - destruct H as (_ & _ & ->). reflexivity.
Qed.

Lemma same_objects__transferState_tail (w : World) (l old : Layer) :
  same_objects (after (LayerObject__transferState l old) w)
               (after (_transferState l old) w).
Proof.
  unfold _transferState, Layer__transferState. destruct (l_class l); [reflexivity|].
  apply bind_extends; [exact _|]. intros _. apply same_objects_for_models_set.
Qed.

(** [_transferState] never writes a lifecycle. *)
Lemma _transferState_lifecycle (w : World) (l old : Layer) (o : nat) :
  lifecycle (fields (after (_transferState l old) w) o) = lifecycle (fields w o).
Proof.
  rewrite (same_objects_fields _ _ o (same_objects__transferState_tail w l old)).
  destruct (state (fields w (l_oid old))) as [s|] eqn:Hs;
    [destruct (internalState (fields w (l_oid old))) as [i|] eqn:Hi|].
  - destruct (LayerObject__transferState_fields w l old s i Hs Hi) as [Hf _].
    rewrite Hf. destruct (decide (l_oid l = o)) as [E|E]; [destruct E|]; reflexivity.
  - unfold after, LayerObject__transferState, bind, get. rewrite Hs, Hi. reflexivity.
  - unfold after, LayerObject__transferState, bind, get. rewrite Hs. reflexivity.
Qed.

(** A new object matched with a different old one becomes [MATCHED] and
    the old one [AWAITING_GC], however the transfer ends. *)
Lemma _transferLayerState_lifecycles (w : World) (old new : Layer) :
  l_oid new <> l_oid old ->
  let w' := after (_transferLayerState old new) w in
  lifecycle (fields w' (l_oid new)) = MATCHED /\
  lifecycle (fields w' (l_oid old)) = AWAITING_GC.
Proof.
  intros Hne w'. subst w'. unfold _transferLayerState.
  rewrite (proj2 (Nat.eqb_neq _ _) Hne). cbn [negb].
  rewrite (after_bind (log _) _ w _ tt eq_refl).
  rewrite !after_update_fields, !_transferState_lifecycle, !fields_update_fields.
  rewrite (decide_False (P := l_oid old = l_oid new))
    by (intros E; apply Hne; symmetry; exact E).
  rewrite !decide_True by reflexivity.
  split; reflexivity.
Qed.



End Transfer.

(** ** The walk always completes *)

Section WalkCompletes.

Lemma returns_ret {A} (a : A) : returns (ret a).
Proof. intros w. eexists. reflexivity. Qed.

Lemma returns_modify (f : World -> World) : returns (modify f).
Proof. intros w. eexists. reflexivity. Qed.

Lemma returns_get : returns get.
Proof. intros w. eexists. reflexivity. Qed.

Lemma returns_bind {A B} (m : M A) (k : A -> M B) :
  returns m -> (forall a, returns (k a)) -> returns (bind m k).
Proof.
  intros Hm Hk w. destruct (Hm w) as [a Ha]. unfold result_of, bind in *.
  destruct (m w) as [[a'|e] w1]; cbn [fst] in Ha; [|discriminate]. apply Hk.
Qed.

(** A [try] whose handler never throws never throws. *)
Lemma returns_try_catch {A} (m : M A) (h : error -> M A) :
  (forall e, returns (h e)) -> returns (try_catch m h).
Proof.
  intros Hh w. unfold result_of, try_catch.
  destruct (m w) as [[a|e] w1]; [eexists; reflexivity | apply Hh].
Qed.

Ltac returns_tac :=
  repeat first
    [ apply returns_bind; [|intros ?]
    | apply returns_ret | apply returns_modify | apply returns_get
    | apply returns_try_catch; intros ?
    | match goal with |- returns (match ?x with _ => _ end) => destruct x end
    | solve [eauto] ].

Lemma returns_take_candidate l : returns (take_candidate l).
Proof. unfold take_candidate, update_fields, log. returns_tac. Qed.

Lemma returns_visit_layer l seen : returns (visit_layer l seen).
Proof.
  unfold visit_layer. apply returns_bind; [apply returns_take_candidate|].
  intros old. unfold log. returns_tac.
Qed.

Lemma returns_update_sublayers_loop_of ls :
  Forall (fun l => forall seen, returns (update_sublayers_of l seen)) ls ->
  forall seen, returns (update_sublayers_loop ls seen).
Proof.
  induction 1 as [|x r Hx _ IH]; intros seen; cbn [update_sublayers_loop]; returns_tac.
Qed.

(** Whatever the hooks do, the visit of a layer and of everything below
    it returns. *)
Lemma returns_update_sublayers_of l : forall seen, returns (update_sublayers_of l seen).
Proof.
  induction l as [o c i p h sub IH] using Layer_nested_ind. intros seen.
  rewrite update_sublayers_of_unfold. cbn [l_sub].
  apply returns_bind; [apply returns_visit_layer|]. intros [seen' descend].
  destruct descend, sub as [ls|]; returns_tac.
  apply returns_update_sublayers_loop_of, IH.
Qed.

Lemma returns_update_sublayers_loop ls seen : returns (update_sublayers_loop ls seen).
Proof.
  apply returns_update_sublayers_loop_of, Forall_forall.
  intros l _. apply returns_update_sublayers_of.
Qed.




End WalkCompletes.

(** ** Duplicate ids in the new list *)

Section DuplicateIds.

Local Hint Resolve preserves_assert preserves_call_hook preserves_the_internalState
  preserves_the_state preserves_getModels preserves_set_model_layer
  preserves_for_models_set preserves_for_models_skip preserves_setNeedsRedraw
  preserves_setChangeFlags preserves_clearChangeFlags preserves_getChangeFlags
  preserves_printChangeFlags preserves__loadData preserves__activeUpdateTrigger
  preserves_diffProps preserves_needsUpdate preserves__updateState preserves__update
  preserves__initialize preserves__finalize preserves__transferState
  preserves__initializeLayer preserves__transferLayerState preserves__updateLayer
  preserves__finalizeLayer preserves_match_layer : frame.
Local Hint Extern 1 (PreOrder _) => exact _ : frame.

#[local] Instance log_grows_preorder : PreOrder log_grows.
Proof.
  split.
  - intros w. exists []. symmetry. apply app_nil_r.
  - intros a b c [m1 H1] [m2 H2]. exists (m1 ++ m2). rewrite H2, H1. symmetry. apply app_assoc.
Qed.

#[local] Instance consumed_stay_preorder : PreOrder consumed_stay.
Proof.
  split.
  - intros w id H. exact H.
  - intros a b c H1 H2 id H. apply H2, H1, H.
Qed.

#[local] Instance entry_kept_preorder (x : string) : PreOrder (entry_kept x).
Proof.
  split.
  - intros w. reflexivity.
  - intros a b c H1 H2. unfold entry_kept in *. congruence.
Qed.

Lemma map_get_set (m : LayerMap) (id id' : string) (v : option Layer) :
  map_get (map_set m id v) id' = if bool_decide (id = id') then Some v else map_get m id'.
Proof.
  induction m as [|[k x] m IH]; cbn [map_set map_get].
  - reflexivity.
  - destruct (bool_decide_reflect (k = id)) as [->|Hk]; cbn [map_get].
    + destruct (bool_decide (id = id')); reflexivity.
    + rewrite IH.
      destruct (bool_decide_reflect (k = id')) as [->|Hk']; [|reflexivity].
      rewrite bool_decide_eq_false_2 by (intros E; apply Hk; congruence). reflexivity.
Qed.

Ltac quiet_prim := intro; exists []; exact (eq_sym (app_nil_r _)).

Local Hint Extern 1 (preserves log_grows (log _)) =>
  (intro; eexists [_]; reflexivity) : frame.
Local Hint Extern 1 (preserves log_grows (update_istate _ _)) => quiet_prim : frame.
Local Hint Extern 1 (preserves log_grows (update_fields _ _)) => quiet_prim : frame.
Local Hint Extern 1 (preserves log_grows (mgr_setNeedsRedraw _)) => quiet_prim : frame.
Local Hint Extern 1 (preserves log_grows (modify _)) => quiet_prim : frame.

Ltac same_map_prim := intro; intros ? H; exact H.

Local Hint Extern 1 (preserves consumed_stay (log _)) => same_map_prim : frame.
Local Hint Extern 1 (preserves consumed_stay (update_istate _ _)) => same_map_prim : frame.
Local Hint Extern 1 (preserves consumed_stay (update_fields _ _)) => same_map_prim : frame.
Local Hint Extern 1 (preserves consumed_stay (mgr_setNeedsRedraw _)) => same_map_prim : frame.
Local Hint Extern 2 (preserves consumed_stay (modify _)) => same_map_prim : frame.

Lemma consumed_stay_consume id :
  preserves consumed_stay (modify (set_oldLayerMap (fun m => map_set m id None))).
Proof.
  intros w id' H. unfold after, modify. cbn [snd w_oldLayerMap set_oldLayerMap].
  rewrite map_get_set, H. destruct (bool_decide (id = id')); reflexivity.
Qed.
Local Hint Resolve consumed_stay_consume : frame.

Ltac kept_prim := intro; reflexivity.

Local Hint Extern 1 (preserves (entry_kept _) (log _)) => kept_prim : frame.
Local Hint Extern 1 (preserves (entry_kept _) (update_istate _ _)) => kept_prim : frame.
Local Hint Extern 1 (preserves (entry_kept _) (update_fields _ _)) => kept_prim : frame.
Local Hint Extern 1 (preserves (entry_kept _) (mgr_setNeedsRedraw _)) => kept_prim : frame.
Local Hint Extern 2 (preserves (entry_kept _) (modify _)) => kept_prim : frame.









Lemma run_eq {A} (m : M A) (w : World) (a : A) :
  result_of m w = Return a -> m w = (Return a, after m w).
Proof. unfold result_of, after. destruct (m w) as [r w1]. cbn. intros ->. reflexivity. Qed.













End DuplicateIds.

(* ===================================================================== *)
(** * Further properties                                                   *)
(* ===================================================================== *)

(** ** Picking colors: the encoding and the color buffer *)

Module PickingMore.
Import Picking PickingFacts.
Local Open Scope Z_scope.

(** X1: for an index [i] with [0 <= i] and [i + 1 < 2^24], decoding the
    bytes written by [encodePickingColor(i)] gives [i] back. *)
Theorem X1_decode_encode (i : Z) :
  0 <= i -> i + 1 < 2 ^ 24 -> roundtrip i = Returns (Some i).
Proof. apply roundtrip_in_range. Qed.

Lemma X1_decode_encode_witness :
  0 <= 70000 /\ 70000 + 1 < 2 ^ 24 /\ roundtrip 70000 = Returns (Some 70000).
Proof.
  assert (H0 : 0 <= 70000) by lia. assert (H1 : 70000 + 1 < 2 ^ 24) by lia.
  split; [exact H0 | split; [exact H1 | exact (X1_decode_encode 70000 H0 H1)]].
Defined.

(** X2: the other way round, for three bytes that are not all zero,
    encoding the index [decodePickingColor] reads from them gives the same
    three bytes back. *)
Theorem X2_encode_decode (b1 b2 b3 : Z) :
  0 <= b1 < 256 -> 0 <= b2 < 256 -> 0 <= b3 < 256 ->
  (b1, b2, b3) <> (0, 0, 0) ->
  exists i, decodePickingColor [b1; b2; b3] = Some i /\
            encodePickingColor i = Returns [b1; b2; b3].
Proof.
  intros H1 H2 H3 Hne. exists (b1 + b2 * 256 + b3 * 65536 - 1). split; [reflexivity|].
  assert (Hpos : 0 < b1 + b2 * 256 + b3 * 65536).
  { destruct (Z.eq_dec b1 0), (Z.eq_dec b2 0), (Z.eq_dec b3 0); subst; try lia.
    contradiction Hne. reflexivity. }
  rewrite encodePickingColor_in_range by lia.
  replace (b1 + b2 * 256 + b3 * 65536 - 1 + 1) with (b1 + b2 * 256 + b3 * 65536) by lia.
  assert (E1 : (b1 + b2 * 256 + b3 * 65536) mod 256 = b1)
    by (Z.div_mod_to_equations; lia).
  assert (E2 : ((b1 + b2 * 256 + b3 * 65536) / 256) mod 256 = b2)
    by (Z.div_mod_to_equations; lia).
  assert (E3 : (b1 + b2 * 256 + b3 * 65536) / 65536 = b3)
    by (Z.div_mod_to_equations; lia).
  rewrite E1, E2, E3. reflexivity.
Qed.

Lemma X2_encode_decode_witness :
  exists i, decodePickingColor [7; 2; 1] = Some i /\
            encodePickingColor i = Returns [7; 2; 1].
Proof.
  apply (X2_encode_decode 7 2 1); try lia. intros H. discriminate H.
Defined.

(** X3: an index in the 24-bit range never gets the null picking color,
    which is what separates a picked object from no selection. *)
Theorem X3_never_null_color (i : Z) :
  0 <= i -> i + 1 < 2 ^ 24 -> encodePickingColor i <> Returns nullPickingColor.
Proof.
  intros H0 H1. rewrite encodePickingColor_in_range by lia.
  unfold nullPickingColor. intros E. injection E as E1 E2 E3.
  revert E1 E2 E3. Z.div_mod_to_equations. lia.
Qed.

Lemma X3_never_null_color_witness :
  0 <= 0 /\ 0 + 1 < 2 ^ 24 /\ encodePickingColor 0 <> Returns nullPickingColor.
Proof.
  assert (H0 : 0 <= 0) by lia. assert (H1 : 0 + 1 < 2 ^ 24) by lia.
  split; [exact H0 | split; [exact H1 | exact (X3_never_null_color 0 H0 H1)]].
Defined.

(** X4: for an index [i] that is a safe integer (between -2^53 and 2^53,
    so that the addition [i + 1] is exact), [encodePickingColor(i)] passes
    its assertion exactly when bits 24 to 31 of [i + 1] are all zero; then
    every component it returns is a byte. *)
Theorem X4_accepted_indices (i : Z) :
  - 2 ^ 53 < i < 2 ^ 53 ->
  ((exists c, encodePickingColor i = Returns c) <-> ((i + 1) / 2 ^ 24) mod 256 = 0) /\
  (forall c, encodePickingColor i = Returns c ->
             length c = 3%nat /\ Forall (fun x => 0 <= x < 256) c).
Proof.
  intros _. unfold encodePickingColor. rewrite asserted_byte, !js_and_255. split.
  - destruct (Z.eqb_spec ((i + 1) / 2 ^ 24 mod 256) 0) as [E|E].
    + split; [intros _; exact E | intros _; eexists; reflexivity].
    + split; [intros [c Hc]; discriminate | intros E'; contradiction].
  - intros c. destruct (_ =? 0); [|discriminate]. intros E. injection E as <-.
    split; [reflexivity|]. repeat constructor; apply Z.mod_pos_bound; lia.
Qed.

Lemma X4_accepted_indices_witness :
  (exists c, encodePickingColor 70000 = Returns c) /\
  ~ (exists c, encodePickingColor (2 ^ 24 - 1) = Returns c).
Proof.
  assert (H1 : - 2 ^ 53 < 70000 < 2 ^ 53) by lia.
  assert (H2 : - 2 ^ 53 < 2 ^ 24 - 1 < 2 ^ 53) by lia.
  split.
  - apply (proj1 (X4_accepted_indices 70000 H1)). reflexivity.
  - intros H. apply (proj1 (X4_accepted_indices (2 ^ 24 - 1) H2)) in H. discriminate H.
Defined.

Local Close Scope Z_scope.

Lemma length_store value k x : length (store value k x) = length value.
Proof. unfold store. apply length_insert. Qed.

Lemma store_other value k x p : k <> p -> store value k x !! p = value !! p.
Proof. intros H. unfold store. apply list_lookup_insert_ne, H. Qed.

Lemma store_same value k x :
  k < length value -> store value k x !! k = Some (default 0%Z x mod 256)%Z.
Proof. intros H. unfold store. apply list_lookup_insert_eq, H. Qed.

(** The loop from instance [i] on: it returns, keeps the length and what
    lies before instance [i], and leaves a decodable color for each
    instance it passes. *)
Lemma fill_from_spec (size : nat) :
  3 <= size ->
  forall turns i value,
    (i + turns) * size <= length value ->
    (Z.of_nat (i + turns) < 2 ^ 24)%Z ->
    exists value',
      fill_from turns i size value = (value', Returns tt) /\
      length value' = length value /\
      (forall p, p < i * size -> value' !! p = value !! p) /\
      (forall j, i <= j < i + turns ->
         decodePickingColor (stored_color value' size j) = Some (Z.of_nat j)).
Proof.
  intros Hsize. induction turns as [|turns IH]; intros i value Hlen Hmax.
  - exists value. repeat split; try reflexivity. intros j Hj. lia.
  - cbn [fill_from].
    rewrite encodePickingColor_in_range by lia.
    set (c := [((Z.of_nat i + 1) mod 256)%Z; (((Z.of_nat i + 1) / 256) mod 256)%Z;
               ((Z.of_nat i + 1) / 65536)%Z]).
    cbn [lookup list_lookup].
    set (v1 := store _ (i * size + 2) _).
    assert (Hl1 : length v1 = length value).
    { unfold v1. rewrite !length_store. reflexivity. }
    destruct (IH (S i) v1) as (v' & Hrun & Hl' & Hkeep & Hdec).
    { rewrite Hl1. replace (S i + turns) with (i + S turns) by lia. exact Hlen. }
    { replace (S i + turns) with (i + S turns) by lia. exact Hmax. }
    exists v'. split; [exact Hrun|]. split; [congruence|]. split.
    + intros p Hp. rewrite Hkeep by (cbn; lia).
      unfold v1. rewrite !store_other by lia. reflexivity.
    + intros j Hj. destruct (Nat.eq_dec j i) as [->|Hne]; [|apply Hdec; lia].
      assert (Hbound : i * size + 2 < length value) by nia.
      assert (E : stored_color v' size i = Uint8Array_from c).
      { unfold stored_color. cbn [omap list_omap].
        rewrite (Hkeep (i * size + 0)) by lia. unfold v1 at 1.
        rewrite (store_other _ (i * size + 2)), (store_other _ (i * size + 1)) by lia.
        rewrite store_same by lia. cbn [default].
        rewrite (Hkeep (i * size + 1)) by lia. unfold v1 at 1.
        rewrite (store_other _ (i * size + 2)) by lia.
        rewrite store_same by (rewrite !length_store; lia). cbn [default].
        rewrite (Hkeep (i * size + 2)) by lia. unfold v1.
        rewrite store_same by (rewrite !length_store; lia). reflexivity. }
      rewrite E.
      pose proof (roundtrip_in_range (Z.of_nat i) ltac:(lia) ltac:(lia)) as R.
      unfold roundtrip in R. rewrite encodePickingColor_in_range in R by lia.
      injection R as R. unfold c. cbn [Uint8Array_from map decodePickingColor].
      f_equal. exact R.
Qed.

(** X5: [calculateInstancePickingColors] on a byte buffer with room for
    [numInstances] instances of [size >= 3] bytes each, for fewer than
    2^24 instances: it returns, the buffer keeps its length, and the three
    bytes stored for each instance decode to that instance's index. *)
Theorem X5_color_buffer (value : list Z) (size numInstances : nat) :
  3 <= size ->
  numInstances * size <= length value ->
  (Z.of_nat numInstances < 2 ^ 24)%Z ->
  exists value',
    calculateInstancePickingColors value size numInstances = (value', Returns tt) /\
    length value' = length value /\
    forall i, i < numInstances ->
      decodePickingColor (stored_color value' size i) = Some (Z.of_nat i).
Proof.
  intros Hsize Hlen Hmax.
  destruct (fill_from_spec size Hsize numInstances 0 value Hlen Hmax)
    as (v' & Hrun & Hl & _ & Hdec).
  exists v'. split; [exact Hrun|]. split; [exact Hl|].
  intros i Hi. apply Hdec. lia.
Qed.

Lemma X5_color_buffer_witness :
  exists value',
    calculateInstancePickingColors (replicate 8 9%Z) 4 2 = (value', Returns tt) /\
    length value' = 8 /\
    forall i, i < 2 -> decodePickingColor (stored_color value' 4 i) = Some (Z.of_nat i).
Proof.
  apply (X5_color_buffer (replicate 8 9%Z) 4 2); [lia | cbn; lia | cbn; lia].
Defined.

(** Past the 24-bit range the loop stops at the assertion. *)
Lemma fill_from_overflow (size : nat) :
  forall turns i value,
    (Z.of_nat i + 1 < 2 ^ 32)%Z ->
    (2 ^ 24 <= Z.of_nat (i + turns))%Z -> (Z.of_nat i + 1 <= 2 ^ 24)%Z ->
    snd (fill_from turns i size value)
      = AssertionFailed "index out of picking color range".
Proof.
  induction turns as [|turns IH]; intros i value Hi Hover Hlow.
  - lia.
  - cbn [fill_from].
    destruct (Z.eq_dec (Z.of_nat i + 1)%Z (2 ^ 24)%Z) as [E|E].
    + rewrite encodePickingColor_rejects by lia. reflexivity.
    + rewrite encodePickingColor_in_range by lia.
      apply IH; lia.
Qed.

(** X6: with 2^24 instances or more, [calculateInstancePickingColors]
    fails the assertion of [encodePickingColor] instead of returning. *)
Theorem X6_color_buffer_overflow (value : list Z) (size numInstances : nat) :
  (2 ^ 24 <= Z.of_nat numInstances)%Z ->
  snd (calculateInstancePickingColors value size numInstances)
    = AssertionFailed "index out of picking color range".
Proof.
  intros H. apply fill_from_overflow; cbn; lia.
Qed.

Lemma X6_color_buffer_overflow_witness :
  snd (calculateInstancePickingColors [] 3 (Z.to_nat (2 ^ 24)))
    = AssertionFailed "index out of picking color range".
Proof.
  apply (X6_color_buffer_overflow [] 3 (Z.to_nat (2 ^ 24))). lia.
Defined.

End PickingMore.

(** ** Change flags *)

Section ChangeFlagsMore.

(** What a call of [setChangeFlags] does to the store: only the flags of
    the layer's internal state and the log change. *)
Lemma setChangeFlags_effect (w : World) (l : Layer) (flags : ChangeFlags)
    (r : nat) (s : LayerState) :
  internalState (fields w (l_oid l)) = Some r ->
  w_istates w !! r = Some s ->
  let cf := default noFlags (changeFlags s) in
  let w' := after (setChangeFlags l flags) w in
  result_of (setChangeFlags l flags) w = Return tt /\
  w_istates w' = <[r := set_changeFlags (Some
    {| dataChanged := dataChanged cf || dataChanged flags;
       updateTriggersChanged := updateTriggersChanged cf || updateTriggersChanged flags;
       propsChanged := propsChanged cf || propsChanged flags;
       viewportChanged := viewportChanged cf || viewportChanged flags;
       propsOrDataChanged := propsOrDataChanged cf ||
         (dataChanged flags || updateTriggersChanged flags || propsChanged flags);
       somethingChanged := somethingChanged cf ||
         (dataChanged flags || updateTriggersChanged flags || propsChanged flags) ||
         viewportChanged flags |}) s]> (w_istates w) /\
  w_layers w' = w_layers w /\ w_async w' = w_async w /\
  w_pending w' = w_pending w /\ w_mgr w' = w_mgr w.
Proof.
  intros Hi Hs cf w'. subst w'.
  assert (E : the_internalState l w = (Return (r, s), w)).
  { unfold the_internalState, bind, get. rewrite Hi, Hs. reflexivity. }
  unfold result_of, after.
  destruct (setChangeFlags l flags w) as [res w'] eqn:Hrun. cbn [fst snd].
  revert Hrun. unfold setChangeFlags. unfold bind at 1. rewrite E. cbv beta iota.
  fold cf.
  destruct (dataChanged flags && negb (dataChanged cf)),
           (updateTriggersChanged flags && negb (updateTriggersChanged cf)),
           (propsChanged flags && negb (propsChanged cf)),
           (viewportChanged flags && negb (viewportChanged cf));
    unfold bind, log, update_istate, modify, ret;
    intros [= <- <-];
    cbn [fst snd w_istates w_layers w_async w_pending w_mgr set_log set_istates];
    rewrite Hs; repeat split; reflexivity.
Qed.

(** X7: [setChangeFlags] only ever raises flags: on a layer with an
    internal state it returns, every flag that was set stays set, every
    primary flag asked for is set, a data, update-trigger or props change
    asked for sets [propsOrDataChanged] and [somethingChanged], a viewport
    change asked for sets [somethingChanged], and if the derived flags
    agreed with the primary ones before (as they do for no flags at all)
    they still do. *)
Theorem X7_setChangeFlags_accumulates (w : World) (l : Layer) (flags : ChangeFlags)
    (r : nat) (s : LayerState) :
  internalState (fields w (l_oid l)) = Some r ->
  w_istates w !! r = Some s ->
  let cf := default noFlags (changeFlags s) in
  exists cf',
    result_of (setChangeFlags l flags) w = Return tt /\
    flags_of (after (setChangeFlags l flags) w) l = Some cf' /\
    flags_le cf cf' /\
    (dataChanged flags -> dataChanged cf') /\
    (propsChanged flags -> propsChanged cf') /\
    (updateTriggersChanged flags -> updateTriggersChanged cf') /\
    (viewportChanged flags -> viewportChanged cf') /\
    (dataChanged flags || updateTriggersChanged flags || propsChanged flags ->
     propsOrDataChanged cf' /\ somethingChanged cf') /\
    (viewportChanged flags -> somethingChanged cf') /\
    (derived_agree cf -> derived_agree cf').
Proof.
  intros Hi Hs cf.
  destruct (setChangeFlags_effect w l flags r s Hi Hs) as (Hr & Hist & Hlay & _).
  eexists. split; [exact Hr|]. split.
  { unfold flags_of, fields. rewrite Hlay. fold (fields w (l_oid l)). rewrite Hi.
    cbn [mbind option_bind]. rewrite Hist, lookup_insert_eq. reflexivity. }
  fold cf. unfold flags_le, derived_agree.
  destruct cf as [a b c d e f], flags as [a' b' c' d' e' f'].
  cbn [dataChanged propsChanged updateTriggersChanged viewportChanged
       propsOrDataChanged somethingChanged].
  repeat split; try (destruct a, a', b, b', c, c', d, d', e, f; cbn; tauto).
  all: destruct H as [-> ->]; destruct a, a', b, b', c, c', d, d'; reflexivity.
Qed.

Lemma X7_setChangeFlags_accumulates_witness :
  exists cf', flags_of (after (setChangeFlags old_a onlyData) next_frame) old_a = Some cf' /\
              dataChanged cf'.
Proof.
  destruct (X7_setChangeFlags_accumulates next_frame old_a onlyData 21
              (layerState_of old_a) eq_refl eq_refl) as (cf' & _ & H & _ & Hd & _).
  exists cf'. split; [exact H | apply Hd; exact I].
Defined.

Lemma the_internalState_run (w : World) (l : Layer) (r : nat) (s : LayerState) :
  internalState (fields w (l_oid l)) = Some r ->
  w_istates w !! r = Some s ->
  the_internalState l w = (Return (r, s), w).
Proof. intros Hi Hs. unfold the_internalState, bind, get. rewrite Hi, Hs. reflexivity. Qed.

Lemma bind_run {A B} (m : M A) (k : A -> M B) (w w1 : World) (a : A) :
  m w = (Return a, w1) -> bind m k w = k a w1.
Proof. intros H. unfold bind. rewrite H. reflexivity. Qed.


Lemma getChangeFlags_run (w : World) (l : Layer) (r : nat) (s : LayerState) :
  internalState (fields w (l_oid l)) = Some r ->
  w_istates w !! r = Some s ->
  getChangeFlags l w = (Return (changeFlags s), w).
Proof.
  intros Hi Hs. unfold getChangeFlags.
  rewrite (bind_run _ _ w w _ (the_internalState_run w l r s Hi Hs)). reflexivity.
Qed.




End ChangeFlagsMore.

(** ** Updates and data loads *)

Section UpdateAndLoad.

Lemma bind_returns_inv {A B} (m : M A) (k : A -> M B) (w : World) (b : B) :
  result_of (bind m k) w = Return b ->
  exists a, result_of m w = Return a /\
            result_of (k a) (after m w) = Return b /\
            after (bind m k) w = after (k a) (after m w).
Proof.
  unfold result_of, after, bind. destruct (m w) as [[a|e] w1]; cbn [fst snd].
  - intros H. exists a. repeat split. exact H.
  - discriminate.
Qed.

Lemma clearChangeFlags_clears (w : World) (l : Layer) :
  result_of (clearChangeFlags l) w = Return tt ->
  flags_of (after (clearChangeFlags l) w) l = Some noFlags.
Proof.
  unfold result_of, after, clearChangeFlags, the_internalState, bind, get, flags_of.
  destruct (internalState (fields w (l_oid l))) as [r|] eqn:Hi; [|discriminate].
  destruct (w_istates w !! r) as [s|] eqn:Hs; [|discriminate].
  intros _. unfold update_istate, modify, ret.
  cbn [fst snd w_istates set_istates].
  change (fields _ (l_oid l)) with (fields w (l_oid l)). rewrite Hi, Hs.
  cbn [mbind option_bind w_istates set_istates]. rewrite lookup_insert_eq. reflexivity.
Qed.

(** X9: whenever [_update] returns, all six change flags of the layer are
    [false]: clearing them is the last thing it does. *)
Theorem X9_update_clears_flags (w : World) (l : Layer) :
  result_of (_update l) w = Return tt ->
  flags_of (after (_update l) w) l = Some noFlags.
Proof.
  unfold _update. intros H.
  apply bind_returns_inv in H as (b & _ & H & ->).
  apply bind_returns_inv in H as ([] & _ & H & ->).
  apply bind_returns_inv in H as ([] & _ & H & ->).
  apply clearChangeFlags_clears, H.
Qed.

Lemma X9_update_clears_flags_witness :
  result_of (_update old_a) next_frame = Return tt /\
  flags_of (after (_update old_a) next_frame) old_a = Some noFlags.
Proof.
  assert (H : result_of (_update old_a) next_frame = Return tt) by reflexivity.
  split; [exact H | exact (X9_update_clears_flags next_frame old_a H)].
Defined.

(** X10: [_loadData] on a layer whose [data] is the URL its internal state
    has as [lastUrl] starts nothing: it answers [false] and the store is
    untouched. *)
Theorem X10_loadData_same_url (w : World) (l : Layer) (url : string)
    (r : nat) (s : LayerState) :
  p_data (l_props l) = DString url ->
  internalState (fields w (l_oid l)) = Some r ->
  w_istates w !! r = Some s ->
  lastUrl s = Some url ->
  _loadData l w = (Return false, w).
Proof.
  intros Hd Hi Hs Hu. unfold _loadData. rewrite Hd.
  rewrite (bind_run _ _ w w _ (the_internalState_run w l r s Hi Hs)).
  cbv beta iota. rewrite bool_decide_eq_true_2 by exact Hu. reflexivity.
Qed.

Lemma X10_loadData_same_url_witness :
  let w := after (_loadData (remote 1 "a" "u1")) remote_stage in
  _loadData (remote 1 "a" "u1") w = (Return false, w).
Proof.
  intros w.
  eapply (X10_loadData_same_url w (remote 1 "a" "u1") "u1" 21);
    [reflexivity | reflexivity | vm_compute; reflexivity | reflexivity].
Defined.

(** X11: [_loadData] on a layer whose [data] is a URL other than [lastUrl]
    answers [true], leaves exactly one more callback waiting, records the
    URL, and makes [internalState.data] an array if it held nothing
    (so that the layer's data is never the URL string). *)
Theorem X11_loadData_new_url (w : World) (l : Layer) (url : string)
    (r : nat) (s : LayerState) :
  p_data (l_props l) = DString url ->
  internalState (fields w (l_oid l)) = Some r ->
  w_istates w !! r = Some s ->
  lastUrl s <> Some url ->
  let w' := after (_loadData l) w in
  result_of (_loadData l) w = Return true /\
  w_pending w' = w_pending w ++ [LoadDataThen l] /\
  w_istates w' !! r = Some
    (set_ls_loadPromise true
       (set_lastUrl (Some url)
          (set_ls_data (if truthy (ls_data s) then ls_data s else DEmptyArray) s))).
Proof.
  intros Hd Hi Hs Hu w'. subst w'. unfold result_of, after, _loadData. rewrite Hd.
  rewrite (bind_run _ _ w w _ (the_internalState_run w l r s Hi Hs)).
  cbv beta iota. rewrite bool_decide_eq_false_2 by exact Hu.
  unfold bind, fetch_then, update_istate, modify, ret.
  cbn [fst snd w_istates w_pending set_istates set_pending].
  rewrite Hs. cbn [fst snd w_istates w_pending set_istates set_pending].
  rewrite lookup_insert_eq. cbn [fst snd w_istates w_pending set_istates set_pending].
  rewrite lookup_insert_eq. repeat split.
Qed.

Lemma X11_loadData_new_url_witness :
  result_of (_loadData (remote 1 "a" "u1")) remote_stage = Return true /\
  w_pending (after (_loadData (remote 1 "a" "u1")) remote_stage)
    = [LoadDataThen (remote 1 "a" "u1")].
Proof.
  destruct (X11_loadData_new_url remote_stage (remote 1 "a" "u1") "u1" 21
              (layerState_of (remote 1 "a" "u1")) eq_refl eq_refl eq_refl)
    as (H1 & H2 & _); [discriminate | split; [exact H1 | exact H2]].
Defined.

End UpdateAndLoad.

(** ** Async properties of the layer state *)

Section AsyncProps.

Lemma the_asyncProp_run (w : World) (a : nat) (p : AsyncProp) :
  w_async w !! a = Some p -> the_asyncProp a w = (Return p, w).
Proof. intros H. unfold the_asyncProp, bind, get. rewrite H. reflexivity. Qed.

Lemma the_layerState_run (w : World) (r : nat) (s : LayerState) :
  w_istates w !! r = Some s -> the_layerState r w = (Return s, w).
Proof. intros H. unfold the_layerState, bind, get. rewrite H. reflexivity. Qed.

(** What [_loadAsyncProp] does to the store. *)
Lemma _loadAsyncProp_run (w : World) (this a : nat) (dt : nat -> nat) (p : AsyncProp) :
  w_async w !! a = Some p ->
  _loadAsyncProp this a dt w =
    (Return tt,
     set_pending (fun q => q ++ [LoadAsyncPropThen this a (S (loadCount p)) dt])
       (set_async <[a :=
          {| lastValue := lastValue p; loadValue := loadValue p; loadPromise := true;
             loadCount := S (loadCount p); value := value p;
             ap_data := if truthy (ap_data p) then ap_data p else DEmptyArray |}]> w)).
Proof.
  intros Hp. unfold _loadAsyncProp.
  rewrite (bind_run _ _ w w p (the_asyncProp_run w a p Hp)).
  unfold bind, update_asyncProp, fetch_then, modify, set_async. cbv beta.
  rewrite Hp. reflexivity.
Qed.

(** X12: starting a load of an async property leaves one more callback
    waiting, with a count above every count given out before, and from
    then on a callback with any earlier count changes nothing, whoever
    runs it and whatever data it brings. *)
Theorem X12_new_load_supersedes (w : World) (this a : nat) (dt : nat -> nat)
    (p : AsyncProp) :
  w_async w !! a = Some p ->
  let w' := after (_loadAsyncProp this a dt) w in
  result_of (_loadAsyncProp this a dt) w = Return tt /\
  w_pending w' = w_pending w ++ [LoadAsyncPropThen this a (S (loadCount p)) dt] /\
  (loadCount <$> w_async w' !! a) = Some (S (loadCount p)) /\
  forall that c d, c <= loadCount p ->
    loadAsyncProp_then that a c d w' = (Return tt, w').
Proof.
  intros Hp w'. subst w'. unfold result_of, after.
  rewrite (_loadAsyncProp_run w this a dt p Hp). cbn [fst snd].
  split; [reflexivity|]. split; [reflexivity|].
  cbn [w_async set_pending set_async]. rewrite lookup_insert_eq.
  split; [reflexivity|]. intros that c d Hc.
  eapply loadAsyncProp_then_stale.
  - cbn [w_async set_pending set_async]. apply lookup_insert_eq.
  - cbn [loadCount]. lia.
Qed.

Lemma X12_new_load_supersedes_witness :
  let w := after (setAsyncProp 21 "data" (DString "u1") (props_of (DString "u1")))
                 next_frame in
  loadAsyncProp_then 21 100 1 7 (after (_loadAsyncProp 21 100 (fun x => x)) w)
    = (Return tt, after (_loadAsyncProp 21 100 (fun x => x)) w).
Proof.
  intros w.
  assert (Hp : w_async w !! 100 =
               Some {| lastValue := DString "u1"; loadValue := DNull; loadPromise := true;
                       loadCount := 1; value := DEmptyArray; ap_data := DEmptyArray |})
    by (vm_compute; reflexivity).
  exact (proj2 (proj2 (proj2
           (X12_new_load_supersedes w 21 100 (fun x => x) _ Hp))) 21 1 7 (le_n 1)).
Defined.

(** X13: a callback whose count is the current [loadCount] installs the
    data as [value] and [loadValue], clears [loadPromise], and raises
    [dataChanged] on the layer the layer state points to. *)
Theorem X13_current_load_installs (w : World) (this a d r : nat) (p : AsyncProp)
    (s s' : LayerState) (l : Layer) :
  w_async w !! a = Some p ->
  w_istates w !! this = Some s ->
  ls_layer s = Some l ->
  internalState (fields w (l_oid l)) = Some r ->
  w_istates w !! r = Some s' ->
  let w' := after (loadAsyncProp_then this a (loadCount p) d) w in
  result_of (loadAsyncProp_then this a (loadCount p) d) w = Return tt /\
  w_async w' !! a = Some
    {| lastValue := lastValue p; loadValue := DArray d; loadPromise := false;
       loadCount := loadCount p; value := DArray d; ap_data := ap_data p |} /\
  exists cf, flags_of w' l = Some cf /\ dataChanged cf = true.
Proof.
  intros Hp Hs Hl Hi Hs' w'. subst w'. unfold result_of, after, loadAsyncProp_then.
  rewrite (bind_run _ _ w w p (the_asyncProp_run w a p Hp)).
  rewrite Nat.eqb_refl.
  set (p' := {| lastValue := lastValue p; loadValue := DArray d; loadPromise := false;
                loadCount := loadCount p; value := DArray d; ap_data := ap_data p |}).
  set (w1 := set_async <[a := p']> w).
  assert (E1 : update_asyncProp a (fun p =>
                 {| lastValue := lastValue p; loadValue := DArray d; loadPromise := false;
                    loadCount := loadCount p; value := DArray d; ap_data := ap_data p |}) w
               = (Return tt, w1)).
  { unfold update_asyncProp, modify, set_async. cbv beta. rewrite Hp. reflexivity. }
  rewrite (bind_run _ _ w w1 tt E1).
  assert (E2 : the_layerState this w1 = (Return s, w1)) by (apply the_layerState_run, Hs).
  rewrite (bind_run _ _ w1 w1 s E2). rewrite Hl.
  destruct (setChangeFlags_effect w1 l onlyData r s' Hi Hs')
    as (Hres & Hist & Hlay & Hasync & _).
  unfold result_of, after in Hres, Hist, Hlay, Hasync.
  split; [exact Hres|]. split.
  - rewrite Hasync. unfold w1. cbn [w_async set_async]. apply lookup_insert_eq.
  - assert (Hf : fields (snd (setChangeFlags l onlyData w1)) (l_oid l)
                 = fields w (l_oid l)) by (unfold fields; rewrite Hlay; reflexivity).
    unfold flags_of. rewrite Hf, Hi.
    cbn [mbind option_bind]. rewrite Hist, lookup_insert_eq.
    cbn [mbind option_bind changeFlags set_changeFlags].
    eexists. split; [reflexivity|]. cbn [dataChanged onlyData]. apply orb_true_r.
Qed.

Lemma X13_current_load_installs_witness :
  let w := after (setAsyncProp 21 "data" (DString "u1") (props_of (DString "u1")))
                 next_frame in
  (value <$> w_async (after (loadAsyncProp_then 21 100 1 7) w) !! 100) = Some (DArray 7).
Proof.
  intros w.
  assert (Hp : w_async w !! 100 =
               Some {| lastValue := DString "u1"; loadValue := DNull; loadPromise := true;
                       loadCount := 1; value := DEmptyArray; ap_data := DEmptyArray |})
    by (vm_compute; reflexivity).
  assert (Hs : w_istates w !! 21 =
               Some (set_asyncValues {[ "data" := 100 ]} (layerState_of old_a)))
    by (vm_compute; reflexivity).
  destruct (X13_current_load_installs w 21 100 7 21 _ _ _ old_a Hp Hs eq_refl eq_refl Hs)
    as (_ & H & _).
  cbn [loadCount] in H. rewrite H. reflexivity.
Defined.

(** X14: [setAsyncProp] with the string the property was last set to
    starts no load and changes nothing. *)
Theorem X14_setAsyncProp_same_value (w : World) (this a : nat) (propName url : string)
    (props : Props) (s : LayerState) (p : AsyncProp) :
  w_istates w !! this = Some s ->
  asyncValues s !! propName = Some a ->
  w_async w !! a = Some p ->
  lastValue p = DString url ->
  setAsyncProp this propName (DString url) props w = (Return false, w).
Proof.
  intros Hs Ha Hp Hv. unfold setAsyncProp, _getAsyncProp.
  rewrite (bind_run _ _ w w a); [| rewrite (bind_run _ _ w w s (the_layerState_run w this s Hs));
                                   rewrite Ha; reflexivity].
  rewrite (bind_run _ _ w w p (the_asyncProp_run w a p Hp)).
  rewrite Hv. cbn [dataval_eqb]. rewrite bool_decide_eq_true_2 by reflexivity. reflexivity.
Qed.

Lemma X14_setAsyncProp_same_value_witness :
  let w := after (setAsyncProp 21 "data" (DString "u1") (props_of (DString "u1")))
                 next_frame in
  setAsyncProp 21 "data" (DString "u1") (props_of (DString "u1")) w = (Return false, w).
Proof.
  intros w.
  eapply (X14_setAsyncProp_same_value w 21 100 "data" "u1");
    [vm_compute; reflexivity | reflexivity | vm_compute; reflexivity | reflexivity].
Defined.

(** X15: [setAsyncProp] with a string on a property that has no entry yet
    creates the entry, starts the first load (count 1), and from then on
    [getAsyncProp] answers the empty array, whatever the shadow value of
    the props it is asked with. *)
Theorem X15_setAsyncProp_first_string (w : World) (this : nat) (propName url : string)
    (props props' : Props) (s : LayerState) :
  w_istates w !! this = Some s ->
  asyncValues s !! propName = None ->
  let w' := after (setAsyncProp this propName (DString url) props) w in
  result_of (setAsyncProp this propName (DString url) props) w = Return false /\
  w_pending w' = w_pending w ++
                 [LoadAsyncPropThen this (w_next w) 1 (p_dataTransform props)] /\
  (lastValue <$> w_async w' !! w_next w) = Some (DString url) /\
  result_of (getAsyncProp this propName props') w' = Return DEmptyArray.
Proof.
  intros Hs Ha w'. subst w'. unfold result_of, after.
  set (a := w_next w).
  set (p0 := {| lastValue := DNull; loadValue := DNull; loadPromise := false;
                loadCount := 0; value := DEmptyArray; ap_data := DUndefined |}).
  set (w1 := set_istates <[this := set_asyncValues (<[propName := a]> (asyncValues s)) s]>
               (set_async <[a := p0]> (set_next S w))).
  assert (E1 : _getAsyncProp this propName w = (Return a, w1)).
  { unfold _getAsyncProp.
    rewrite (bind_run _ _ w w s (the_layerState_run w this s Hs)). rewrite Ha.
    unfold alloc, update_istate, bind, get, modify, ret.
    unfold set_istates at 1. cbn [w_istates set_async set_next]. rewrite Hs. reflexivity. }
  assert (H1 : w_async w1 !! a = Some p0).
  { unfold w1. cbn [w_async set_istates set_async]. apply lookup_insert_eq. }
  set (p1 := {| lastValue := DString url; loadValue := loadValue p0;
                loadPromise := loadPromise p0; loadCount := loadCount p0;
                value := value p0; ap_data := ap_data p0 |}).
  set (w2 := set_async <[a := p1]> w1).
  assert (E2 : update_asyncProp a (fun p =>
                 {| lastValue := DString url; loadValue := loadValue p;
                    loadPromise := loadPromise p; loadCount := loadCount p;
                    value := value p; ap_data := ap_data p |}) w1 = (Return tt, w2)).
  { unfold update_asyncProp, modify, set_async. cbv beta. rewrite H1. reflexivity. }
  assert (H2 : w_async w2 !! a = Some p1).
  { unfold w2. cbn [w_async set_async]. apply lookup_insert_eq. }
  unfold setAsyncProp.
  rewrite (bind_run _ _ w w1 a E1).
  rewrite (bind_run _ _ w1 w1 p0 (the_asyncProp_run w1 a p0 H1)).
  cbn [dataval_eqb lastValue p0].
  rewrite (bind_run _ _ w1 w2 tt E2).
  rewrite (bind_run _ _ w2 _ tt (_loadAsyncProp_run w2 this a _ p1 H2)).
  cbn [ret fst snd]. split; [reflexivity|]. split; [reflexivity|].
  split.
  - cbn [w_async set_pending set_async]. rewrite lookup_insert_eq. reflexivity.
  - unfold getAsyncProp, the_layerState, the_asyncProp, bind, get, ret.
    cbn [fst snd w_istates w_async set_pending set_async set_istates w1 w2].
    rewrite lookup_insert_eq. cbn [asyncValues set_asyncValues].
    rewrite lookup_insert_eq. cbn [fst snd w_async set_pending set_async].
    rewrite lookup_insert_eq. reflexivity.
Qed.

Lemma X15_setAsyncProp_first_string_witness :
  result_of (getAsyncProp 21 "data" (props_of (DArray 3)))
    (after (setAsyncProp 21 "data" (DString "u1") (props_of (DString "u1"))) next_frame)
  = Return DEmptyArray.
Proof.
  exact (proj2 (proj2 (proj2
    (X15_setAsyncProp_first_string next_frame 21 "data" "u1" (props_of (DString "u1"))
       (props_of (DArray 3)) (layerState_of old_a) eq_refl eq_refl)))).
Defined.

(** X16: [setAsyncProp] with anything but a string removes the entry: no
    load starts and [getAsyncProp] answers the shadow value of the props
    again. *)
Theorem X16_setAsyncProp_not_a_string (w : World) (this : nat) (propName : string)
    (v : dataval) (props props' : Props) (s : LayerState) :
  w_istates w !! this = Some s ->
  (forall url, v <> DString url) ->
  let w' := after (setAsyncProp this propName v props) w in
  result_of (setAsyncProp this propName v props) w = Return false /\
  w_pending w' = w_pending w /\ w_async w' = w_async w /\
  result_of (getAsyncProp this propName props') w'
    = Return (p_shadowValues props' propName).
Proof.
  intros Hs Hv w'. subst w'.
  assert (E : setAsyncProp this propName v props w =
              (Return false,
               set_istates <[this := set_asyncValues (delete propName (asyncValues s)) s]> w)).
  { destruct v; try (exfalso; eapply Hv; reflexivity);
      unfold setAsyncProp, bind, update_istate, modify, ret, set_istates; cbv beta;
      rewrite Hs; reflexivity. }
  unfold result_of, after. rewrite E. cbn [fst snd].
  repeat split.
  unfold getAsyncProp, the_layerState, bind, get, ret.
  cbn [fst snd w_istates set_istates]. rewrite lookup_insert_eq.
  cbn [asyncValues set_asyncValues]. rewrite lookup_delete_eq. reflexivity.
Qed.

Lemma X16_setAsyncProp_not_a_string_witness :
  let w := after (setAsyncProp 21 "data" (DString "u1") (props_of (DString "u1")))
                 next_frame in
  result_of (getAsyncProp 21 "data" (props_of (DArray 3)))
            (after (setAsyncProp 21 "data" (DArray 3) (props_of (DArray 3))) w)
  = Return DUndefined.
Proof.
  intros w.
  assert (Hs : w_istates w !! 21 =
               Some (set_asyncValues {[ "data" := 100 ]} (layerState_of old_a)))
    by (vm_compute; reflexivity).
  refine (proj2 (proj2 (proj2
    (X16_setAsyncProp_not_a_string w 21 "data" (DArray 3) (props_of (DArray 3))
       (props_of (DArray 3)) _ Hs _)))).
  intros url H. discriminate H.
Defined.

End AsyncProps.

(** ** Redraw queries *)

Section Redraw.

Lemma bind_run_inv {A B} (m : M A) (k : A -> M B) (w w' : World) (b : B) :
  bind m k w = (Return b, w') ->
  exists a w1, m w = (Return a, w1) /\ k a w1 = (Return b, w').
Proof.
  unfold bind. destruct (m w) as [[a|e] w1]; [|discriminate].
  intros H. exists a, w1. split; [reflexivity | exact H].
Qed.

#[local] Instance redraw_lowered_preorder : PreOrder redraw_lowered.
Proof.
  split.
  - intros w. split; [reflexivity|]. split; [reflexivity|]. split; [reflexivity|].
    split; intros k v H; exists v; auto.
  - intros a b c (M1 & L1 & S1 & I1 & D1) (M2 & L2 & S2 & I2 & D2).
    split; [congruence|]. split; [congruence|]. split; [congruence|]. split.
    + intros r s' H. destruct (I2 r s' H) as (s1 & H1 & F1 & G1).
      destruct (I1 r s1 H1) as (s0 & H0 & F0 & G0). exists s0. auto.
    + intros m x' H. destruct (D2 m x' H) as (x1 & H1 & F1).
      destruct (D1 m x1 H1) as (x0 & H0 & F0). exists x0. auto.
Qed.

Lemma lowered_istate (w : World) (r : nat) (s s' : LayerState) :
  w_istates w !! r = Some s ->
  (needsRedraw s' = true -> needsRedraw s = true) ->
  (am_needsRedraw (attributeManager s') = true ->
   am_needsRedraw (attributeManager s) = true) ->
  redraw_lowered w (set_istates <[r := s']> w).
Proof.
  intros Hs H1 H2. split; [reflexivity|]. split; [reflexivity|]. split; [reflexivity|].
  split.
  - intros k v. cbn [w_istates set_istates]. destruct (decide (r = k)) as [<-|Hne].
    + rewrite lookup_insert_eq. intros [= <-]. exists s. auto.
    + rewrite lookup_insert_ne by exact Hne. intros H. exists v. auto.
  - intros m x H. exists x. auto.
Qed.

Lemma lowered_model (w : World) (m : nat) (x x' : Model) :
  w_models w !! m = Some x ->
  (redraw_truthy (md_needsRedraw x') = true -> redraw_truthy (md_needsRedraw x) = true) ->
  redraw_lowered w (set_models <[m := x']> w).
Proof.
  intros Hx H1. split; [reflexivity|]. split; [reflexivity|]. split; [reflexivity|].
  split.
  - intros r s H. exists s. auto.
  - intros k v. cbn [w_models set_models]. destruct (decide (m = k)) as [<-|Hne].
    + rewrite lookup_insert_eq. intros [= <-]. exists x. auto.
    + rewrite lookup_insert_ne by exact Hne. intros H. exists v. auto.
Qed.

(** The base query on a layer with a layer state. *)
Lemma LayerObject__getNeedsRedraw_run (w : World) (l : Layer) (c : bool)
    (r : nat) (s : LayerState) :
  internalState (fields w (l_oid l)) = Some r ->
  w_istates w !! r = Some s ->
  LayerObject__getNeedsRedraw l c w =
    (Return (if needsRedraw s then RReason (l_id l) else RFalse),
     set_istates <[r := set_needsRedraw (needsRedraw s && negb c) s]> w).
Proof.
  intros Hi Hs. unfold LayerObject__getNeedsRedraw. unfold bind at 1, get.
  cbv beta iota. rewrite Hi.
  rewrite (bind_run _ _ w w _ (the_internalState_run w l r s Hi Hs)). cbv beta iota.
  unfold update_istate, bind, modify, ret, set_istates. cbv beta. rewrite Hs. reflexivity.
Qed.

Lemma LayerObject__getNeedsRedraw_null (w : World) (l : Layer) (c : bool) :
  internalState (fields w (l_oid l)) = None ->
  LayerObject__getNeedsRedraw l c w = (Return RFalse, w).
Proof.
  intros Hi. unfold LayerObject__getNeedsRedraw. unfold bind at 1, get.
  cbv beta iota. rewrite Hi. reflexivity.
Qed.

Lemma LayerObject__getNeedsRedraw_dangling (w : World) (l : Layer) (c : bool) (r : nat) :
  internalState (fields w (l_oid l)) = Some r ->
  w_istates w !! r = None ->
  exists e, LayerObject__getNeedsRedraw l c w = (Throw e, w).
Proof.
  intros Hi Hs. unfold LayerObject__getNeedsRedraw. unfold bind at 1, get.
  cbv beta iota. rewrite Hi. unfold the_internalState, bind, get. rewrite Hi, Hs.
  eexists. reflexivity.
Qed.

Lemma lowered_LayerObject__getNeedsRedraw l c :
  preserves redraw_lowered (LayerObject__getNeedsRedraw l c).
Proof.
  intros w. unfold after.
  destruct (internalState (fields w (l_oid l))) as [r|] eqn:Hi.
  - destruct (w_istates w !! r) as [s|] eqn:Hs.
    + rewrite (LayerObject__getNeedsRedraw_run w l c r s Hi Hs). cbn [snd].
      apply (lowered_istate w r s); [exact Hs | | intros H; exact H].
      cbn [needsRedraw set_needsRedraw]. intros H. apply andb_true_iff in H. tauto.
    + destruct (LayerObject__getNeedsRedraw_dangling w l c r Hi Hs) as [e ->]. reflexivity.
  - rewrite (LayerObject__getNeedsRedraw_null w l c Hi). reflexivity.
Qed.

Lemma attributeManager_getNeedsRedraw_run (w : World) (r : nat) (c : bool) (s : LayerState) :
  w_istates w !! r = Some s ->
  attributeManager_getNeedsRedraw r c w =
    (Return (if am_needsRedraw (attributeManager s) then RReason "attributes" else RFalse),
     set_istates <[r := set_attributeManager
                     {| am_needsRedraw := am_needsRedraw (attributeManager s) && negb c |} s]>
       w).
Proof.
  intros Hs. unfold attributeManager_getNeedsRedraw.
  rewrite (bind_run _ _ w w s); [| unfold the_layerState, bind, get; rewrite Hs; reflexivity].
  unfold update_istate, bind, modify, ret, set_istates. cbv beta. rewrite Hs. reflexivity.
Qed.

Lemma attributeManager_getNeedsRedraw_dangling (w : World) (r : nat) (c : bool) :
  w_istates w !! r = None ->
  exists e, attributeManager_getNeedsRedraw r c w = (Throw e, w).
Proof.
  intros Hs. unfold attributeManager_getNeedsRedraw, the_layerState, bind, get.
  rewrite Hs. eexists. reflexivity.
Qed.

Lemma lowered_attributeManager_getNeedsRedraw r c :
  preserves redraw_lowered (attributeManager_getNeedsRedraw r c).
Proof.
  intros w. unfold after. destruct (w_istates w !! r) as [s|] eqn:Hs.
  - rewrite (attributeManager_getNeedsRedraw_run w r c s Hs). cbn [snd].
    apply (lowered_istate w r s); [exact Hs | intros H; exact H |].
    cbn [attributeManager set_attributeManager am_needsRedraw].
    intros H. apply andb_true_iff in H. tauto.
  - destruct (attributeManager_getNeedsRedraw_dangling w r c Hs) as [e ->]. reflexivity.
Qed.

Lemma model_getNeedsRedraw_run (w : World) (m : nat) (c : bool) (x : Model) :
  w_models w !! m = Some x ->
  model_getNeedsRedraw m c w =
    (Return (md_needsRedraw x),
     set_models <[m := {| userData_layer := userData_layer x;
                          md_needsRedraw := if c then RFalse else md_needsRedraw x |}]> w).
Proof.
  intros Hx. unfold model_getNeedsRedraw. unfold bind at 1, get. cbv beta iota.
  rewrite Hx. reflexivity.
Qed.

Lemma model_getNeedsRedraw_dangling (w : World) (m : nat) (c : bool) :
  w_models w !! m = None ->
  exists e, model_getNeedsRedraw m c w = (Throw e, w).
Proof.
  intros Hx. unfold model_getNeedsRedraw. unfold bind at 1, get. cbv beta iota.
  rewrite Hx. eexists. reflexivity.
Qed.

Lemma lowered_model_getNeedsRedraw m c :
  preserves redraw_lowered (model_getNeedsRedraw m c).
Proof.
  intros w. unfold after. destruct (w_models w !! m) as [x|] eqn:Hx.
  - rewrite (model_getNeedsRedraw_run w m c x Hx). cbn [snd].
    apply (lowered_model w m x); [exact Hx|]. cbn [md_needsRedraw].
    destruct c; [discriminate | intros H; exact H].
  - destruct (model_getNeedsRedraw_dangling w m c Hx) as [e ->]. reflexivity.
Qed.

Local Hint Resolve lowered_LayerObject__getNeedsRedraw
  lowered_attributeManager_getNeedsRedraw lowered_model_getNeedsRedraw
  preserves_getModels : frame.
Local Hint Extern 1 (PreOrder _) => exact _ : frame.

Lemma lowered_models_needRedraw ms c rd :
  preserves redraw_lowered (models_needRedraw ms c rd).
Proof.
  revert rd. induction ms as [|m ms IH]; intros rd; cbn [models_needRedraw]; frame.
Qed.
Local Hint Resolve lowered_models_needRedraw : frame.

Lemma lowered_getNeedsRedraw l c : preserves redraw_lowered (getNeedsRedraw l c).
Proof.
  unfold getNeedsRedraw, _getNeedsRedraw, Layer__getNeedsRedraw. frame.
Qed.
Local Hint Resolve lowered_getNeedsRedraw : frame.

Lemma lowered_layers_needRedraw ls c rd :
  preserves redraw_lowered (layers_needRedraw ls c rd).
Proof.
  revert rd. induction ls as [|l ls IH]; intros rd; cbn [layers_needRedraw]; frame.
Qed.

(** Flags that are down stay down while they are only lowered. *)
Lemma lowered_needsRedraw (w w' : World) (r : nat) :
  redraw_lowered w w' ->
  (forall s, w_istates w !! r = Some s -> needsRedraw s = false) ->
  forall s', w_istates w' !! r = Some s' -> needsRedraw s' = false.
Proof.
  intros (_ & _ & _ & HI & _) H s' Hs'. destruct (HI r s' Hs') as (s & Hs & F & _).
  specialize (H s Hs). destruct (needsRedraw s'); [|reflexivity].
  rewrite F in H by reflexivity. discriminate.
Qed.

Lemma lowered_am_needsRedraw (w w' : World) (r : nat) :
  redraw_lowered w w' ->
  (forall s, w_istates w !! r = Some s -> am_needsRedraw (attributeManager s) = false) ->
  forall s', w_istates w' !! r = Some s' -> am_needsRedraw (attributeManager s') = false.
Proof.
  intros (_ & _ & _ & HI & _) H s' Hs'. destruct (HI r s' Hs') as (s & Hs & _ & F).
  specialize (H s Hs). destruct (am_needsRedraw (attributeManager s')); [|reflexivity].
  rewrite F in H by reflexivity. discriminate.
Qed.

Lemma lowered_md_needsRedraw (w w' : World) (m : nat) :
  redraw_lowered w w' ->
  (forall x, w_models w !! m = Some x -> redraw_truthy (md_needsRedraw x) = false) ->
  forall x', w_models w' !! m = Some x' -> redraw_truthy (md_needsRedraw x') = false.
Proof.
  intros (_ & _ & _ & _ & HM) H x' Hx'. destruct (HM m x' Hx') as (x & Hx & F).
  specialize (H x Hx). destruct (redraw_truthy (md_needsRedraw x')); [|reflexivity].
  rewrite F in H by reflexivity. discriminate.
Qed.

Lemma lowered_fields (w w' : World) (o : nat) :
  redraw_lowered w w' -> fields w' o = fields w o.
Proof. intros (_ & H & _). unfold fields. rewrite H. reflexivity. Qed.

Lemma lowered_models_of (w w' : World) (l : Layer) :
  redraw_lowered w w' -> models_of w' l = models_of w l.
Proof.
  intros H. unfold models_of. rewrite (lowered_fields w w' _ H).
  destruct H as (_ & _ & -> & _). reflexivity.
Qed.

Lemma redraw_flags_clear_lowered (w w' : World) (l : Layer) :
  redraw_lowered w w' -> redraw_flags_clear w l -> redraw_flags_clear w' l.
Proof.
  intros H [HI HM]. split.
  - intros r s'. rewrite (lowered_fields w w' _ H). intros Hi Hs'. split.
    + eapply (lowered_needsRedraw w w' r H); [|exact Hs'].
      intros s Hs. apply (HI r s Hi Hs).
    + intros Hc. eapply (lowered_am_needsRedraw w w' r H); [|exact Hs'].
      intros s Hs. apply (HI r s Hi Hs), Hc.
  - intros Hc m x'. rewrite (lowered_models_of w w' l H). intros Hin Hx'.
    eapply (lowered_md_needsRedraw w w' m H); [|exact Hx'].
    intros x Hx. exact (HM Hc m x Hin Hx).
Qed.

(** What [getModels] yields when it yields a list. *)
Lemma getModels_run (w w' : World) (l : Layer) (ms : list nat) :
  getModels l w = (Return (Some ms), w') ->
  w' = w /\ ms = models_of w l /\ l_class l = LayerClass.
Proof.
  unfold getModels, models_of. destruct (l_class l); [discriminate|].
  unfold the_state, bind, get.
  destruct (state (fields w (l_oid l))) as [r|]; [|discriminate].
  destruct (w_states w !! r) as [s|]; [|discriminate]. cbn [ret].
  destruct (st_models s) as [ms'|]; intros [= <- <-]; repeat split.
Qed.

(** The three parts of a clearing query, when they return. *)
Lemma LayerObject__getNeedsRedraw_clears (w w' : World) (l : Layer) (rd : redraw) :
  LayerObject__getNeedsRedraw l true w = (Return rd, w') ->
  forall r s, internalState (fields w' (l_oid l)) = Some r ->
              w_istates w' !! r = Some s -> needsRedraw s = false.
Proof.
  intros H r s.
  destruct (internalState (fields w (l_oid l))) as [r0|] eqn:Hi.
  - destruct (w_istates w !! r0) as [s0|] eqn:Hs.
    + rewrite (LayerObject__getNeedsRedraw_run w l true r0 s0 Hi Hs) in H.
      injection H as _ <-. change (fields (set_istates _ w) (l_oid l)) with (fields w (l_oid l)).
      rewrite Hi. intros [= <-]. cbn [w_istates set_istates]. rewrite lookup_insert_eq.
      intros [= <-]. cbn [needsRedraw set_needsRedraw]. apply andb_false_r.
    + destruct (LayerObject__getNeedsRedraw_dangling w l true r0 Hi Hs) as [e He].
      rewrite He in H. discriminate.
  - rewrite (LayerObject__getNeedsRedraw_null w l true Hi) in H. injection H as _ <-.
    rewrite Hi. discriminate.
Qed.

Lemma attributeManager_getNeedsRedraw_clears (w w' : World) (r : nat) (rd : redraw) :
  attributeManager_getNeedsRedraw r true w = (Return rd, w') ->
  forall s, w_istates w' !! r = Some s -> am_needsRedraw (attributeManager s) = false.
Proof.
  intros H s. destruct (w_istates w !! r) as [s0|] eqn:Hs.
  - rewrite (attributeManager_getNeedsRedraw_run w r true s0 Hs) in H. injection H as _ <-.
    cbn [w_istates set_istates]. rewrite lookup_insert_eq. intros [= <-].
    cbn [attributeManager set_attributeManager am_needsRedraw]. apply andb_false_r.
  - destruct (attributeManager_getNeedsRedraw_dangling w r true Hs) as [e He].
    rewrite He in H. discriminate.
Qed.

Lemma models_needRedraw_clears (ms : list nat) :
  forall rd w r w',
    models_needRedraw ms true rd w = (Return r, w') ->
    forall m x, In m ms -> w_models w' !! m = Some x ->
                redraw_truthy (md_needsRedraw x) = false.
Proof.
  induction ms as [|m0 ms IH]; intros rd w r w' H m x Hin Hx; [destruct Hin|].
  cbn [models_needRedraw] in H. apply bind_run_inv in H as (n & w1 & H1 & H2).
  destruct Hin as [<-|Hin]; [|exact (IH _ _ _ _ H2 m x Hin Hx)].
  assert (L : redraw_lowered w1 w').
  { pose proof (lowered_models_needRedraw ms true (redraw_or rd n) w1) as L.
    unfold after in L. rewrite H2 in L. exact L. }
  eapply (lowered_md_needsRedraw w1 w' m0 L); [|exact Hx].
  intros x1 Hx1. destruct (w_models w !! m0) as [x0|] eqn:Hx0.
  - rewrite (model_getNeedsRedraw_run w m0 true x0 Hx0) in H1. injection H1 as _ <-.
    cbn [w_models set_models] in Hx1. rewrite lookup_insert_eq in Hx1.
    injection Hx1 as <-. reflexivity.
  - destruct (model_getNeedsRedraw_dangling w m0 true Hx0) as [e He].
    rewrite He in H1. discriminate.
Qed.

Lemma models_needRedraw_quiet (ms : list nat) (c : bool) :
  forall rd w r w',
    models_needRedraw ms c rd w = (Return r, w') ->
    redraw_truthy rd = false ->
    (forall m x, In m ms -> w_models w !! m = Some x ->
                 redraw_truthy (md_needsRedraw x) = false) ->
    redraw_truthy r = false.
Proof.
  induction ms as [|m0 ms IH]; intros rd w r w' H Hrd Hq.
  - cbn [models_needRedraw] in H. injection H as <- _. exact Hrd.
  - cbn [models_needRedraw] in H. apply bind_run_inv in H as (n & w1 & H1 & H2).
    assert (L : redraw_lowered w w1).
    { pose proof (lowered_model_getNeedsRedraw m0 c w) as L.
      unfold after in L. rewrite H1 in L. exact L. }
    assert (Hn : redraw_truthy n = false).
    { destruct (w_models w !! m0) as [x0|] eqn:Hx0.
      - rewrite (model_getNeedsRedraw_run w m0 c x0 Hx0) in H1. injection H1 as <- _.
        apply (Hq m0 x0); [left; reflexivity | exact Hx0].
      - destruct (model_getNeedsRedraw_dangling w m0 c Hx0) as [e He].
        rewrite He in H1. discriminate. }
    apply (IH _ _ _ _ H2).
    + unfold redraw_or. rewrite Hrd. exact Hn.
    + intros m x Hin Hx. eapply (lowered_md_needsRedraw w w1 m L); [|exact Hx].
      intros x1 Hx1. apply (Hq m x1); [right; exact Hin | exact Hx1].
Qed.

Lemma run_lowered {A} (m : M A) (w w' : World) (o : outcome A) :
  preserves redraw_lowered m -> m w = (o, w') -> redraw_lowered w w'.
Proof. intros H E. specialize (H w). unfold after in H. rewrite E in H. exact H. Qed.

(** A clearing query of a layer that returns leaves nothing of what it
    reads asking for a redraw. *)
Lemma getNeedsRedraw_clears (w w' : World) (l : Layer) (rd : redraw) :
  getNeedsRedraw l (Some true) w = (Return rd, w') -> redraw_flags_clear w' l.
Proof.
  unfold getNeedsRedraw, _getNeedsRedraw, redraw_flags_clear. cbn [default].
  destruct (l_class l) eqn:Hc.
  - intros H. split; [|discriminate]. intros r s Hi Hs.
    split; [|discriminate]. exact (LayerObject__getNeedsRedraw_clears w w' l rd H r s Hi Hs).
  - unfold Layer__getNeedsRedraw. intros H.
    apply bind_run_inv in H as (rd0 & w1 & H1 & H).
    apply bind_run_inv in H as (w0 & w0' & Hg & H). injection Hg as <- <-.
    apply bind_run_inv in H as (am & w2 & H2 & H).
    apply bind_run_inv in H as (oms & w3 & H3 & H).
    destruct oms as [ms|]; [|discriminate].
    apply getModels_run in H3 as (-> & -> & _).
    assert (L23 : redraw_lowered w2 w')
      by exact (run_lowered _ _ _ _ (lowered_models_needRedraw _ _ _) H).
    assert (L12 : redraw_lowered w1 w2).
    { destruct (internalState (fields w1 (l_oid l))).
      - exact (run_lowered _ _ _ _ (lowered_attributeManager_getNeedsRedraw _ _) H2).
      - injection H2 as _ <-. reflexivity. }
    split.
    + intros r s. rewrite (lowered_fields w2 w' _ L23), (lowered_fields w1 w2 _ L12).
      intros Hi Hs. split.
      * eapply (lowered_needsRedraw w1 w' r); [etransitivity; eassumption | | exact Hs].
        intros s1 Hs1. exact (LayerObject__getNeedsRedraw_clears w w1 l rd0 H1 r s1 Hi Hs1).
      * intros _. eapply (lowered_am_needsRedraw w2 w' r L23); [|exact Hs].
        intros s2 Hs2. rewrite Hi in H2.
        exact (attributeManager_getNeedsRedraw_clears w1 w2 r am H2 s2 Hs2).
    + intros _ m x. rewrite (lowered_models_of w2 w' l L23). intros Hin Hx.
      exact (models_needRedraw_clears _ _ _ _ _ H m x Hin Hx).
Qed.

(** A query of a layer none of whose flags is up answers nothing truthy. *)
Lemma getNeedsRedraw_quiet (w w' : World) (l : Layer) (c : option bool) (rd : redraw) :
  redraw_flags_clear w l ->
  getNeedsRedraw l c w = (Return rd, w') -> redraw_truthy rd = false.
Proof.
  intros HC. unfold getNeedsRedraw, _getNeedsRedraw. generalize (default false c).
  clear c. intros c.
  assert (Base : forall rd0 w1, LayerObject__getNeedsRedraw l c w = (Return rd0, w1) ->
                                redraw_truthy rd0 = false).
  { intros rd0 w1 H. destruct (internalState (fields w (l_oid l))) as [r|] eqn:Hi.
    - destruct (w_istates w !! r) as [s|] eqn:Hs.
      + rewrite (LayerObject__getNeedsRedraw_run w l c r s Hi Hs) in H. injection H as <- _.
        destruct HC as [HI _]. destruct (HI r s Hi Hs) as [-> _]. reflexivity.
      + destruct (LayerObject__getNeedsRedraw_dangling w l c r Hi Hs) as [e He].
        rewrite He in H. discriminate.
    - rewrite (LayerObject__getNeedsRedraw_null w l c Hi) in H. injection H as <- _.
      reflexivity. }
  destruct (l_class l) eqn:Hc; [apply Base|].
  unfold Layer__getNeedsRedraw. intros H.
  apply bind_run_inv in H as (rd0 & w1 & H1 & H).
  apply bind_run_inv in H as (w0 & w0' & Hg & H). injection Hg as <- <-.
  apply bind_run_inv in H as (am & w2 & H2 & H).
  apply bind_run_inv in H as (oms & w3 & H3 & H).
  destruct oms as [ms|]; [|discriminate].
  apply getModels_run in H3 as (-> & -> & _).
  assert (L1 : redraw_lowered w w1)
    by exact (run_lowered _ _ _ _ (lowered_LayerObject__getNeedsRedraw _ _) H1).
  pose proof (redraw_flags_clear_lowered w w1 l L1 HC) as HC1.
  assert (Ham : redraw_truthy am = false /\ redraw_lowered w1 w2).
  { destruct (internalState (fields w1 (l_oid l))) as [r|] eqn:Hi.
    - split; [|exact (run_lowered _ _ _ _ (lowered_attributeManager_getNeedsRedraw _ _) H2)].
      destruct (w_istates w1 !! r) as [s|] eqn:Hs.
      + rewrite (attributeManager_getNeedsRedraw_run w1 r c s Hs) in H2. injection H2 as <- _.
        destruct HC1 as [HI _]. rewrite (proj2 (HI r s Hi Hs) Hc). reflexivity.
      + destruct (attributeManager_getNeedsRedraw_dangling w1 r c Hs) as [e He].
        rewrite He in H2. discriminate.
    - injection H2 as <- <-. split; reflexivity. }
  destruct Ham as [Ham L12].
  pose proof (redraw_flags_clear_lowered w1 w2 l L12 HC1) as [_ HM2].
  apply (models_needRedraw_quiet _ _ _ _ _ _ H).
  - unfold redraw_or. rewrite (Base rd0 w1 H1). exact Ham.
  - exact (HM2 Hc).
Qed.

Lemma layers_needRedraw_clears (ls : list Layer) :
  forall rd w r w',
    layers_needRedraw ls true rd w = (Return r, w') ->
    Forall (redraw_flags_clear w') ls.
Proof.
  induction ls as [|l ls IH]; intros rd w r w' H; [constructor|].
  cbn [layers_needRedraw] in H. apply bind_run_inv in H as (n & w1 & H1 & H2).
  constructor; [|exact (IH _ _ _ _ H2)].
  apply (redraw_flags_clear_lowered w1 w').
  - exact (run_lowered _ _ _ _ (lowered_layers_needRedraw _ _ _) H2).
  - exact (getNeedsRedraw_clears w w1 l n H1).
Qed.

Lemma layers_needRedraw_quiet (ls : list Layer) (c : bool) :
  forall rd w r w',
    layers_needRedraw ls c rd w = (Return r, w') ->
    redraw_truthy rd = false ->
    Forall (redraw_flags_clear w) ls ->
    redraw_truthy r = false.
Proof.
  induction ls as [|l ls IH]; intros rd w r w' H Hrd HC.
  - injection H as <- _. exact Hrd.
  - cbn [layers_needRedraw] in H. apply bind_run_inv in H as (n & w1 & H1 & H2).
    apply Forall_cons in HC as [Hl HC].
    pose proof (run_lowered _ _ _ _ (lowered_getNeedsRedraw _ _) H1) as L.
    apply (IH _ _ _ _ H2).
    + unfold redraw_or. rewrite Hrd. exact (getNeedsRedraw_quiet w w1 l (Some c) n Hl H1).
    + eapply Forall_impl; [exact HC|]. intros x. apply redraw_flags_clear_lowered, L.
Qed.

Lemma layers_needRedraw_first (ls : list Layer) (c : bool) :
  forall rd w r w',
    layers_needRedraw ls c rd w = (Return r, w') ->
    redraw_truthy rd = true -> r = rd.
Proof.
  induction ls as [|l ls IH]; intros rd w r w' H Hrd.
  - injection H as <- _. reflexivity.
  - cbn [layers_needRedraw] in H. apply bind_run_inv in H as (n & w1 & H1 & H2).
    unfold redraw_or in H2. rewrite Hrd in H2. exact (IH _ _ _ _ H2 Hrd).
Qed.

Lemma _checkIfNeedsRedraw_unfold (c : bool) (w : World) :
  _checkIfNeedsRedraw c w =
    layers_needRedraw (layers (w_mgr w)) c (_needsRedraw (w_mgr w))
      (if c then set_mgr (set__needsRedraw RFalse) w else w).
Proof. unfold _checkIfNeedsRedraw, bind, get, modify, ret. destruct c; reflexivity. Qed.

(** X17: a clearing redraw query of the manager resets the manager's own
    reason and keeps the live list, whether the query returns or one of the
    layers throws. *)
Theorem X17_needsRedraw_resets_reason (w : World) (c : option bool) :
  default true c = true ->
  let w' := after (needsRedraw_mgr c) w in
  _needsRedraw (w_mgr w') = RFalse /\ layers (w_mgr w') = layers (w_mgr w).
Proof.
  intros Hc w'. subst w'. unfold needsRedraw_mgr, after. rewrite Hc.
  rewrite _checkIfNeedsRedraw_unfold.
  destruct (lowered_layers_needRedraw (layers (w_mgr w)) true (_needsRedraw (w_mgr w))
              (set_mgr (set__needsRedraw RFalse) w)) as (E & _).
  unfold after in E. rewrite E. split; reflexivity.
Qed.

Lemma X17_needsRedraw_resets_reason_witness :
  _needsRedraw (w_mgr (after (needsRedraw_mgr None) new_world)) = RFalse.
Proof. exact (proj1 (X17_needsRedraw_resets_reason new_world None eq_refl)). Defined.

(** X18: a query that returns while the manager has a reason of its own
    answers that reason, whatever the layers say. *)
Theorem X18_manager_reason_first (w w' : World) (c : option bool) (r : redraw) :
  redraw_truthy (_needsRedraw (w_mgr w)) = true ->
  needsRedraw_mgr c w = (Return r, w') ->
  r = _needsRedraw (w_mgr w).
Proof.
  intros Hrd. unfold needsRedraw_mgr. rewrite _checkIfNeedsRedraw_unfold. intros H.
  exact (layers_needRedraw_first _ _ _ _ _ _ H Hrd).
Qed.

Lemma X18_manager_reason_first_witness :
  let w := after (mgr_setNeedsRedraw "resize") (after (setNeedsRedraw old_a true) next_frame) in
  result_of (needsRedraw_mgr None) w = Return (RReason "resize").
Proof.
  intros w.
  assert (H : needsRedraw_mgr None w = (Return (RReason "resize"), after (needsRedraw_mgr None) w))
    by (apply run_eq; vm_compute; reflexivity).
  rewrite (X18_manager_reason_first w _ None _ eq_refl H). reflexivity.
Defined.

(** X19: after a clearing query of the manager that returned, the next
    query answers nothing truthy: the first one lowered every flag a query
    reads, on every live layer. *)
Theorem X19_needsRedraw_settles (w w1 w2 : World) (c1 c2 : option bool) (r1 r2 : redraw) :
  default true c1 = true ->
  needsRedraw_mgr c1 w = (Return r1, w1) ->
  needsRedraw_mgr c2 w1 = (Return r2, w2) ->
  redraw_truthy r2 = false.
Proof.
  unfold needsRedraw_mgr. intros -> H1. rewrite !_checkIfNeedsRedraw_unfold in *.
  pose proof (run_lowered _ _ _ _ (lowered_layers_needRedraw _ _ _) H1) as (Hm & _).
  pose proof (layers_needRedraw_clears _ _ _ _ _ H1) as HC.
  rewrite Hm. cbn [w_mgr set_mgr layers _needsRedraw set__needsRedraw].
  intros H2. apply (layers_needRedraw_quiet _ _ _ _ _ _ H2); [reflexivity|].
  destruct (default true c2); exact HC.
Qed.

Lemma X19_needsRedraw_settles_witness :
  let w := after (setNeedsRedraw old_a true) next_frame in
  result_of (needsRedraw_mgr None) w = Return (RReason "a") /\
  redraw_truthy RFalse = false /\
  result_of (needsRedraw_mgr (Some false)) (after (needsRedraw_mgr None) w) = Return RFalse.
Proof.
  intros w.
  assert (H1 : needsRedraw_mgr None w = (Return (RReason "a"), after (needsRedraw_mgr None) w))
    by (apply run_eq; vm_compute; reflexivity).
  assert (H2 : needsRedraw_mgr (Some false) (after (needsRedraw_mgr None) w)
               = (Return RFalse,
                  after (needsRedraw_mgr (Some false)) (after (needsRedraw_mgr None) w)))
    by (apply run_eq; vm_compute; reflexivity).
  split; [unfold result_of; rewrite H1; reflexivity|].
  split; [exact (X19_needsRedraw_settles w _ _ None (Some false) _ _ eq_refl H1 H2)|].
  unfold result_of. rewrite H2. reflexivity.
Defined.

(** X20: once [setNeedsRedraw()] was called on a layer object with a layer
    state, the base query answers the layer's id; a clearing query does so
    once, a query that does not clear does so again. *)
Theorem X20_layer_redraw_flag (w : World) (l : Layer) (c : bool) (r : nat)
    (s : LayerState) :
  l_class l = LayerObjectClass ->
  internalState (fields w (l_oid l)) = Some r ->
  w_istates w !! r = Some s ->
  let w1 := after (setNeedsRedraw l true) w in
  let w2 := after (getNeedsRedraw l (Some c)) w1 in
  result_of (getNeedsRedraw l (Some c)) w1 = Return (RReason (l_id l)) /\
  result_of (getNeedsRedraw l (Some c)) w2
    = Return (if c then RFalse else RReason (l_id l)).
Proof.
  intros Hc Hi Hs w1 w2. subst w2.
  assert (E1 : w1 = set_istates <[r := set_needsRedraw true s]> w).
  { unfold w1, after, setNeedsRedraw, bind, get, update_istate, modify, set_istates.
    cbv beta. rewrite Hi. cbv beta iota. rewrite Hs. reflexivity. }
  assert (Hi1 : internalState (fields w1 (l_oid l)) = Some r) by (rewrite E1; exact Hi).
  assert (Hs1 : w_istates w1 !! r = Some (set_needsRedraw true s)).
  { rewrite E1. cbn [w_istates set_istates]. apply lookup_insert_eq. }
  unfold result_of, after, getNeedsRedraw, _getNeedsRedraw. rewrite Hc.
  change (default false (Some c)) with c.
  rewrite (LayerObject__getNeedsRedraw_run w1 l c r _ Hi1 Hs1). cbn [fst snd].
  split; [reflexivity|].
  erewrite LayerObject__getNeedsRedraw_run;
    [| exact Hi1 | cbn [w_istates set_istates]; apply lookup_insert_eq].
  cbn [fst needsRedraw set_needsRedraw andb]. destruct c; reflexivity.
Qed.

Lemma X20_layer_redraw_flag_witness :
  let l := sample_object 1 "a" quiet in
  result_of (getNeedsRedraw l (Some true))
    (after (getNeedsRedraw l (Some true)) (after (setNeedsRedraw l true) next_frame))
  = Return RFalse.
Proof.
  intros l.
  exact (proj2 (X20_layer_redraw_flag next_frame l true 21 (layerState_of old_a)
                  eq_refl eq_refl eq_refl)).
Defined.

End Redraw.

(** ** The pass of the layer manager *)

Section Walk.

(** Once an error is recorded the loop of [_finalizeOldLayers] calls no
    finalizer any more. *)
Lemma finalize_entries_after_error (m : LayerMap) (e : error) (w : World) :
  finalize_entries m (Some e) w = (Return (Some e), w).
Proof.
  induction m as [|[k [l|]] m IH]; cbn [finalize_entries]; [reflexivity| |exact IH].
  unfold bind at 1. unfold ret at 1. exact IH.
Qed.

Lemma finalize_entries_consumed (pre m : LayerMap) (seen : option error) (w : World) :
  Forall (fun p => p.2 = None) pre ->
  finalize_entries (pre ++ m) seen w = finalize_entries m seen w.
Proof.
  induction 1 as [|[k v] pre Hv _ IH]; [reflexivity|].
  cbn [snd] in Hv. subst v. exact IH.
Qed.

(** X21: [_finalizeOldLayers] stops finalizing at the first finalizer that
    fails.  The ids of the candidate map are taken to be ordinary ones (no
    numeral, no name of a member of [Object.prototype]), so that
    [for ... in] visits exactly its entries, in the order in which they
    were created; then, when the first unmatched old layer's finalization
    returns an error, that error is returned and the store is as that one
    finalization left it, so no later unmatched layer is finalized. *)
Theorem X21_finalizeOldLayers_stops (w w1 : World) (pre rest : LayerMap) (k : string)
    (layer : Layer) (e : error) :
  Forall (fun p => ordinary_id p.1 = true) (w_oldLayerMap w) ->
  w_oldLayerMap w = pre ++ (k, Some layer) :: rest ->
  Forall (fun p => p.2 = None) pre ->
  _finalizeLayer layer w = (Return (Some e), w1) ->
  _finalizeOldLayers w = (Return (Some e), w1).
Proof.
  intros _ Hm Hpre Hf. unfold _finalizeOldLayers. unfold bind at 1, get. cbv beta iota.
  rewrite Hm, (finalize_entries_consumed pre _ None w Hpre). cbn [finalize_entries].
  rewrite (bind_run _ _ w w1 _ Hf). apply finalize_entries_after_error.
Qed.

Lemma X21_finalizeOldLayers_stops_witness :
  result_of _finalizeOldLayers unmatched_stage
    = Return (Some (UserError "finalizeState failed")) /\
  lifecycle (fields (after _finalizeOldLayers unmatched_stage) 1) = FINALIZED /\
  lifecycle (fields (after _finalizeOldLayers unmatched_stage) 2) = MATCHED.
Proof.
  assert (H : _finalizeLayer (sample 1 "a" failing_finalize) unmatched_stage
              = (Return (Some (UserError "finalizeState failed")),
                 after (_finalizeLayer (sample 1 "a" failing_finalize)) unmatched_stage))
    by (apply run_eq; vm_compute; reflexivity).
  assert (Hids : Forall (fun p => ordinary_id p.1 = true) (w_oldLayerMap unmatched_stage))
    by (repeat constructor).
  pose proof (X21_finalizeOldLayers_stops unmatched_stage _ [] [("b", Some old_b)] "a"
                (sample 1 "a" failing_finalize) _ Hids eq_refl (Forall_nil_2 _) H) as E.
  unfold result_of, after. rewrite E. cbn [fst snd].
  split; [reflexivity|]. split; vm_compute; reflexivity.
Defined.

Lemma finalized_reason_truthy (old : redraw) (id : string) :
  redraw_truthy (redraw_or old (RReason ("finalized " +:+ id))) = true.
Proof.
  unfold redraw_or. destruct (redraw_truthy old) eqn:E; [exact E|].
  change ("finalized " +:+ id) with (String "f" ("inalized " +:+ id)).
  cbn [redraw_truthy]. rewrite bool_decide_eq_false_2 by discriminate. reflexivity.
Qed.

Lemma _finalize_run (w : World) (l : Layer) :
  _finalize l w =
    (match internalState (fields w (l_oid l)), state (fields w (l_oid l)) with
     | Some _, Some _ => match finalizeState (l_hooks l) with
                         | Some e => Throw e
                         | None => Return tt
                         end
     | _, _ => Throw (AssertionError "")
     end, w).
Proof.
  unfold _finalize, bind, get, assert, call_hook.
  destruct (internalState (fields w (l_oid l))), (state (fields w (l_oid l))),
    (finalizeState (l_hooks l)); reflexivity.
Qed.

(** [_finalizeLayer] on a layer that is not being finalized, step by step. *)
Lemma _finalizeLayer_run (w : World) (l : Layer) :
  lifecycle (fields w (l_oid l)) <> AWAITING_FINALIZATION ->
  let o := l_oid l in
  let seen := match internalState (fields w o), state (fields w o) with
              | Some _, Some _ => finalizeState (l_hooks l)
              | _, _ => Some (AssertionError "")
              end in
  let w1 := set_mgr (fun m => set__needsRedraw
                                (redraw_or (_needsRedraw m)
                                           (RReason ("finalized " +:+ l_id l))) m)
              (set_layers <[o := set_lifecycle AWAITING_FINALIZATION (fields w o)]> w) in
  let w2 := match seen with
            | Some e => set_log (fun lg => lg ++ [WarnFinalization o e]) w1
            | None => w1
            end in
  _finalizeLayer l w =
    (Return seen,
     set_log (fun lg => lg ++ [LogFinalizing o])
       (set_layers <[o := set_lifecycle FINALIZED (fields w2 o)]> w2)).
Proof.
  intros Hl o seen w1 w2. unfold _finalizeLayer. unfold bind at 1, get. cbv beta iota.
  assert (E : negb (LIFECYCLE_eqb (lifecycle (fields w (l_oid l))) AWAITING_FINALIZATION)
              = true) by (destruct (lifecycle (fields w (l_oid l))); try reflexivity;
                          contradiction Hl; reflexivity).
  rewrite E. rewrite (bind_run (assert true "") _ w w tt eq_refl).
  rewrite (bind_run (update_fields _ _) _ w _ tt eq_refl).
  rewrite (bind_run (mgr_setNeedsRedraw _) _ _ w1 tt eq_refl).
  assert (F : fields w1 o = set_lifecycle AWAITING_FINALIZATION (fields w o)).
  { unfold fields at 1, w1. cbn [w_layers set_mgr set_layers].
    rewrite lookup_insert_eq. reflexivity. }
  assert (T : try_catch (bind (_finalize l) (fun _ => ret None))
                (fun err => bind (log (WarnFinalization (layerName l) err))
                                 (fun _ => ret (Some err))) w1 = (Return seen, w2)).
  { unfold try_catch, bind. rewrite _finalize_run. fold o. rewrite F.
    cbn [internalState state set_lifecycle]. unfold w2, seen.
    destruct (internalState (fields w o)), (state (fields w o)),
      (finalizeState (l_hooks l)); reflexivity. }
  rewrite (bind_run _ _ w1 w2 seen T). reflexivity.
Qed.

(** X22: finalizing a layer that is not in the middle of a finalization
    never throws: the layer ends [FINALIZED], the manager has a reason to
    redraw, and what is returned is the failure of [_finalize], if any --
    the failed assertion when the layer has no state, else what the
    [finalizeState] hook threw. *)
Theorem X22_finalizeLayer_outcome (w : World) (l : Layer) :
  lifecycle (fields w (l_oid l)) <> AWAITING_FINALIZATION ->
  let w' := after (_finalizeLayer l) w in
  result_of (_finalizeLayer l) w =
    Return (match internalState (fields w (l_oid l)), state (fields w (l_oid l)) with
            | Some _, Some _ => finalizeState (l_hooks l)
            | _, _ => Some (AssertionError "")
            end) /\
  lifecycle (fields w' (l_oid l)) = FINALIZED /\
  redraw_truthy (_needsRedraw (w_mgr w')) = true /\
  exists more, w_log w' = w_log w ++ more ++ [LogFinalizing (l_oid l)].
Proof.
  intros Hl w'. subst w'. unfold result_of, after.
  rewrite (_finalizeLayer_run w l Hl). cbn [fst snd].
  split; [reflexivity|]. split.
  { unfold fields at 1. cbn [w_layers set_log set_layers]. rewrite lookup_insert_eq.
    reflexivity. }
  split.
  - destruct (internalState (fields w (l_oid l))), (state (fields w (l_oid l))),
      (finalizeState (l_hooks l)); apply finalized_reason_truthy.
  - destruct (internalState (fields w (l_oid l))), (state (fields w (l_oid l))),
      (finalizeState (l_hooks l));
      cbn [w_log set_log set_layers set_mgr];
      first [ exists []; reflexivity
            | eexists [_]; rewrite <- app_assoc; reflexivity ].
Qed.

Lemma X22_finalizeLayer_outcome_witness :
  result_of (_finalizeLayer old_b) next_frame = Return None /\
  lifecycle (fields (after (_finalizeLayer old_b) next_frame) 2) = FINALIZED.
Proof.
  assert (H : lifecycle (fields next_frame (l_oid old_b)) <> AWAITING_FINALIZATION)
    by discriminate.
  destruct (X22_finalizeLayer_outcome next_frame old_b H) as (H1 & H2 & _).
  split; [exact H1 | exact H2].
Defined.

Lemma make_oldLayerMap_step (oldLayer : Layer) (r : list Layer) (w : World) :
  after (make_oldLayerMap (oldLayer :: r)) w =
    after (make_oldLayerMap r)
      (match map_get (w_oldLayerMap w) (l_id oldLayer) with
       | Some (Some _) => set_log (fun lg => lg ++ [WarnMultipleOld (layerName oldLayer)]) w
       | _ => set_oldLayerMap (fun m => map_set m (l_id oldLayer) (Some oldLayer)) w
       end).
Proof.
  cbn [make_oldLayerMap]. unfold after at 1. unfold bind at 1, get. cbv beta iota.
  destruct (map_get (w_oldLayerMap w) (l_id oldLayer)) as [[p|]|]; reflexivity.
Qed.

(** X23: the candidate map [_updateLayers] builds keeps, for each id that
    is not the name of a member of [Object.prototype], the first old layer
    that has it: an entry that already holds a layer is never replaced, and
    an id without one gets the first layer of the list with that id. *)
Theorem X23_first_old_layer_wins (oldLayers : list Layer) (w : World) (id : string) :
  inherited_name id = false ->
  map_get (w_oldLayerMap (after (make_oldLayerMap oldLayers) w)) id =
    match map_get (w_oldLayerMap w) id with
    | Some (Some l) => Some (Some l)
    | other => match first_with_id id oldLayers with
               | Some l => Some (Some l)
               | None => other
               end
    end.
Proof.
  intros _. revert w. induction oldLayers as [|x r IH]; intros w.
  - cbn. destruct (map_get (w_oldLayerMap w) id) as [[l|]|]; reflexivity.
  - rewrite make_oldLayerMap_step, IH. unfold first_with_id. cbn [find].
    fold (first_with_id id r).
    destruct (map_get (w_oldLayerMap w) (l_id x)) as [[p|]|] eqn:Hx;
      cbn [w_oldLayerMap set_log set_oldLayerMap]; rewrite ?map_get_set;
      destruct (bool_decide_reflect (l_id x = id)) as [E|E];
      try (rewrite E in Hx; rewrite Hx); try reflexivity;
      destruct (map_get (w_oldLayerMap w) id) as [[l|]|]; reflexivity.
Qed.

Lemma X23_first_old_layer_wins_witness :
  map_get (w_oldLayerMap (after (make_oldLayerMap [old_a; fresh_a; old_b]) new_world)) "a"
    = Some (Some old_a).
Proof.
  exact (X23_first_old_layer_wins [old_a; fresh_a; old_b] new_world "a" eq_refl).
Defined.

Lemma indexOf_empty (s : string) : indexOf s "" = 0%Z.
Proof. destruct s; reflexivity. Qed.

(** X24: an empty filter string in the first place hides every layer:
    [find] yields it for every id, and the empty string is falsy. *)
Theorem X24_getLayers_empty_filter (ids : list string) (w : World) :
  getLayers (Some ("" :: ids)) w = (Return [], w).
Proof.
  unfold getLayers, bind, get, ret. f_equal. f_equal.
  induction (layers (w_mgr w)) as [|l ls IH]; [reflexivity|].
  cbn [List.filter]. unfold find_layerId at 1. cbn [List.find]. rewrite indexOf_empty.
  cbn [Z.eqb found]. rewrite bool_decide_eq_true_2 by reflexivity. exact IH.
Qed.

(** X25: [setParameters] sets the layers before the viewport, so on a
    manager that has no viewport yet a call that brings both fails the
    assertion of [setLayers] and installs neither. *)
Theorem X25_setParameters_layers_first (w : World) (arr : nat) (vp : option (option nat)) :
  viewport (mgr_context (w_mgr w)) = None ->
  setParameters (Some arr) vp w =
    (Throw (AssertionError "LayerManager.updateLayers: viewport not set"), w).
Proof.
  intros Hv. unfold setParameters, setLayers, bind, get. rewrite Hv.
  rewrite bool_decide_eq_false_2 by (intros [x Hx]; discriminate). reflexivity.
Qed.

Lemma X25_setParameters_layers_first_witness :
  setParameters (Some 5) (Some (Some 0)) new_world =
    (Throw (AssertionError "LayerManager.updateLayers: viewport not set"), new_world).
Proof. exact (X25_setParameters_layers_first new_world 5 (Some (Some 0)) eq_refl). Defined.

(** X26: the walk over the new layers never throws, whatever the hooks of
    the layers do: every failure is caught and turned into a value. *)
Theorem X26_walk_never_throws (newLayers : list Layer) (w : World) :
  exists first, result_of (_updateSublayersRecursively newLayers) w = Return first.
Proof. apply returns_update_sublayers_loop. Qed.

Lemma clearChangeFlags_run (w : World) (l : Layer) (r : nat) (s : LayerState) :
  internalState (fields w (l_oid l)) = Some r ->
  w_istates w !! r = Some s ->
  clearChangeFlags l w =
    (Return tt, set_istates <[r := set_changeFlags (Some noFlags) s]> w).
Proof.
  intros Hi Hs. unfold clearChangeFlags.
  rewrite (bind_run _ _ w w _ (the_internalState_run w l r s Hi Hs)).
  unfold update_istate, modify, set_istates. cbv beta iota. rewrite Hs. reflexivity.
Qed.

(** X27: a layer that is not composite, keeps the default
    [shouldUpdateState] and has no prop or data change flagged is not
    updated: [_updateLayer] returns no error without calling the
    [updateState] hook (whatever that hook would do), and only clears the
    change flags. *)
Theorem X27_updateLayer_skips_update (w : World) (l : Layer) (r : nat) (s : LayerState)
    (cf : ChangeFlags) :
  internalState (fields w (l_oid l)) = Some r ->
  w_istates w !! r = Some s ->
  changeFlags s = Some cf ->
  propsOrDataChanged cf = false ->
  shouldUpdateState (l_hooks l) = None ->
  l_sub l = None ->
  exists text,
    _updateLayer l w =
      (Return None,
       set_istates <[r := set_changeFlags (Some noFlags) s]>
         (set_log (fun lg => lg ++ [LogUpdating (l_oid l) text]) w)).
Proof.
  intros Hi Hs Hc Hp Hh Hsub.
  assert (P : exists text, printChangeFlags l w = (Return text, w)).
  { unfold printChangeFlags. rewrite (bind_run _ _ w w _ (getChangeFlags_run w l r s Hi Hs)).
    rewrite Hc. eexists. reflexivity. }
  destruct P as [text P]. exists text. unfold _updateLayer.
  rewrite (bind_run _ _ w w _ P).
  rewrite (bind_run (log _) _ w _ tt eq_refl).
  set (w1 := set_log _ w).
  assert (N : needsUpdate l w1 = (Return false, w1)).
  { unfold needsUpdate. rewrite (bind_run _ _ w1 w1 _ (getChangeFlags_run w1 l r s Hi Hs)).
    rewrite Hh, Hc, Hp. reflexivity. }
  assert (U : _update l w1 = (Return tt, set_istates <[r := set_changeFlags (Some noFlags) s]> w1)).
  { unfold _update. rewrite (bind_run _ _ w1 w1 _ N).
    rewrite (bind_run (ret tt) _ w1 w1 tt eq_refl).
    unfold isComposite. rewrite Hsub.
    rewrite (bind_run (ret tt) _ w1 w1 tt eq_refl).
    exact (clearChangeFlags_run w1 l r s Hi Hs). }
  unfold try_catch. rewrite (bind_run _ _ w1 _ tt U). reflexivity.
Qed.

Lemma X27_updateLayer_skips_update_witness :
  result_of (_updateLayer (sample 1 "a"
               {| initializeState := None; shouldUpdateState := None;
                  updateState := Some (UserError "updateState failed");
                  finalizeState := None; renderLayers := None;
                  getSubLayers_throws := None |})) next_frame
  = Return None.
Proof.
  destruct (X27_updateLayer_skips_update next_frame
              (sample 1 "a"
                 {| initializeState := None; shouldUpdateState := None;
                    updateState := Some (UserError "updateState failed");
                    finalizeState := None; renderLayers := None;
                    getSubLayers_throws := None |})
              21 (layerState_of old_a) noFlags eq_refl eq_refl eq_refl eq_refl eq_refl
              eq_refl) as [text H].
  unfold result_of. rewrite H. reflexivity.
Defined.

#[local] Instance same_generated_preorder : PreOrder same_generated.
Proof.
  split; [intros w; reflexivity|]. intros a b c H1 H2. unfold same_generated in *. congruence.
Qed.

#[local] Instance same_live_preorder : PreOrder same_live.
Proof.
  split; [intros w; reflexivity|]. intros a b c H1 H2. unfold same_live in *. congruence.
Qed.

Ltac same_prim := intro; reflexivity.

Local Hint Extern 1 (PreOrder _) => exact _ : frame.
Local Hint Extern 1 (preserves same_generated (log _)) => same_prim : frame.
Local Hint Extern 1 (preserves same_generated (update_istate _ _)) => same_prim : frame.
Local Hint Extern 1 (preserves same_generated (update_fields _ _)) => same_prim : frame.
Local Hint Extern 1 (preserves same_generated (mgr_setNeedsRedraw _)) => same_prim : frame.
Local Hint Extern 2 (preserves same_generated (modify _)) => same_prim : frame.
Local Hint Extern 1 (preserves same_live (log _)) => same_prim : frame.
Local Hint Extern 1 (preserves same_live (update_istate _ _)) => same_prim : frame.
Local Hint Extern 1 (preserves same_live (update_fields _ _)) => same_prim : frame.
Local Hint Extern 1 (preserves same_live (mgr_setNeedsRedraw _)) => same_prim : frame.
Local Hint Extern 2 (preserves same_live (modify _)) => same_prim : frame.

Lemma generated_within_same (w w' : World) :
  same_generated w w' -> generated_within [] w w'.
Proof.
  intros H. exists []. split; [|constructor]. rewrite app_nil_r. exact H.
Qed.

Lemma generated_within_trans (ls1 ls2 : list Layer) (w w1 w2 : World) :
  generated_within ls1 w w1 -> generated_within ls2 w1 w2 ->
  generated_within (ls1 ++ ls2) w w2.
Proof.
  intros (g1 & E1 & S1) (g2 & E2 & S2). exists (g1 ++ g2). split.
  - rewrite E2, E1, app_assoc. reflexivity.
  - apply sublist_app; assumption.
Qed.

Lemma generated_within_l (ls1 ls2 : list Layer) (w w' : World) :
  generated_within ls1 w w' -> generated_within (ls1 ++ ls2) w w'.
Proof.
  intros (g & E & S). exists g. split; [exact E|]. apply sublist_inserts_r, S.
Qed.

Lemma within_bind {A B} (m : M A) (k : A -> M B) (ls1 ls2 : list Layer) :
  preserves (generated_within ls1) m ->
  (forall a, preserves (generated_within ls2) (k a)) ->
  preserves (generated_within (ls1 ++ ls2)) (bind m k).
Proof.
  intros Hm Hk w. specialize (Hm w). unfold after, bind in *.
  destruct (m w) as [[a|e] w1]; cbn [snd] in *.
  - eapply generated_within_trans; [exact Hm | apply Hk].
  - apply generated_within_l, Hm.
Qed.

Lemma within_try_catch {A} (m : M A) (h : error -> M A) (ls1 ls2 : list Layer) :
  preserves (generated_within ls1) m ->
  (forall e, preserves (generated_within ls2) (h e)) ->
  preserves (generated_within (ls1 ++ ls2)) (try_catch m h).
Proof.
  intros Hm Hh w. specialize (Hm w). unfold after, try_catch in *.
  destruct (m w) as [[a|e] w1]; cbn [snd] in *.
  - apply generated_within_l, Hm.
  - eapply generated_within_trans; [exact Hm | apply Hh].
Qed.

Lemma within_same {A} (m : M A) :
  preserves same_generated m -> preserves (generated_within []) m.
Proof. intros H w. apply generated_within_same, H. Qed.

Lemma same_generated_before_push (old : option (option Layer)) (l : Layer) :
  preserves same_generated
    (match old with
     | Some (Some o) => bind (_transferLayerState o l)
                             (fun _ => bind (_updateLayer l) (fun _ => ret tt))
     | _ => bind (_initializeLayer l) (fun _ => ret tt)
     end).
Proof.
  destruct old as [[o|]|]; frame;
    first [ apply (preserves__transferLayerState same_generated)
          | apply (preserves__updateLayer same_generated)
          | apply (preserves__initializeLayer same_generated) ];
    try exact _; intros; frame.
Qed.

Lemma within_match_layer (old : option (option Layer)) (l : Layer) :
  preserves (generated_within [l]) (match_layer old l).
Proof.
  unfold match_layer.
  apply (within_bind _ _ [] [l]); [apply within_same, same_generated_before_push|].
  intros _. apply (within_bind _ _ [l] []).
  - intros w. exists [l]. split; [reflexivity|]. reflexivity.
  - intros _. apply within_same. destruct (isComposite l); frame.
    apply preserves_call_hook. exact _.
Qed.

Lemma within_visit_layer (l : Layer) (seen : option error) :
  preserves (generated_within [l]) (visit_layer l seen).
Proof.
  unfold visit_layer. apply (within_bind _ _ [] [l]).
  - apply within_same.
    apply (preserves_take_candidate same_generated) with (Q := fun _ => True);
      try exact _; intros; frame.
  - intros old. apply (within_try_catch _ _ [l] []).
    + apply (within_bind _ _ [l] []); [apply within_match_layer|].
      intros d. apply within_same. frame.
    + intros e. apply within_same. frame.
Qed.

Lemma preorder_unfold (l : Layer) :
  preorder l = l :: match l_sub l with Some ls => preorder_all ls | None => [] end.
Proof. destruct l as [o c i p h [ls|]]; reflexivity. Qed.

Lemma within_update_sublayers_loop_of (ls : list Layer) :
  Forall (fun l => forall seen,
            preserves (generated_within (preorder l)) (update_sublayers_of l seen)) ls ->
  forall seen, preserves (generated_within (preorder_all ls)) (update_sublayers_loop ls seen).
Proof.
  induction 1 as [|x r Hx _ IH]; intros seen; cbn [update_sublayers_loop].
  - apply within_same. frame.
  - unfold preorder_all. cbn [flat_map]. apply within_bind; [apply Hx|]. intros s. apply IH.
Qed.

Lemma within_update_sublayers_of (l : Layer) :
  forall seen, preserves (generated_within (preorder l)) (update_sublayers_of l seen).
Proof.
  induction l as [o c i p h sub IH] using Layer_nested_ind. intros seen.
  rewrite update_sublayers_of_unfold, preorder_unfold. cbn [l_sub].
  apply (within_bind _ _ [_] _); [apply within_visit_layer|].
  intros [seen' descend].
  match goal with
  | |- preserves (generated_within ?ls) _ =>
      replace ls with (ls ++ []) by apply app_nil_r
  end.
  apply within_bind; [|intros _; apply within_same; frame].
  destruct descend, sub as [ls|]; try (intros w; exists []; split;
    [symmetry; apply app_nil_r | apply sublist_nil_l]).
  replace (preorder_all ls) with (preorder_all ls ++ []) by apply app_nil_r.
  apply within_bind; [|intros _; apply within_same; frame].
  apply within_update_sublayers_loop_of, IH.
Qed.

Lemma within_update_sublayers_loop (ls : list Layer) (seen : option error) :
  preserves (generated_within (preorder_all ls)) (update_sublayers_loop ls seen).
Proof.
  apply within_update_sublayers_loop_of. apply Forall_forall. intros l _.
  apply within_update_sublayers_of.
Qed.

Lemma run_preserves {A} (R : World -> World -> Prop) (m : M A) (w w' : World)
    (o : outcome A) :
  preserves R m -> m w = (o, w') -> R w w'.
Proof. intros H E. specialize (H w). unfold after in H. rewrite E in H. exact H. Qed.

Lemma same_generated__finalizeOldLayers : preserves same_generated _finalizeOldLayers.
Proof. apply preserves__finalizeOldLayers; try exact _; intros; frame. Qed.

Lemma same_live_make_oldLayerMap ls : preserves same_live (make_oldLayerMap ls).
Proof. induction ls as [|l ls IH]; cbn [make_oldLayerMap]; frame. Qed.

Lemma same_live__updateLayers old new : preserves same_live (_updateLayers old new).
Proof.
  unfold _updateLayers. frame.
  - apply same_live_make_oldLayerMap.
  - apply (preserves_update_sublayers_loop same_live) with (Q := fun _ => True);
      try exact _; intros; frame.
    apply Forall_true. exact (fun _ => I).
  - apply preserves__finalizeOldLayers; try exact _; intros; frame.
Qed.

(** What [_updateLayers] hands back as [generatedLayers] is taken, in
    order, from the new layers and their sublayers. *)
Lemma _updateLayers_generated (old new : list Layer) (w w' : World)
    (first : option error) (g : list Layer) :
  _updateLayers old new w = (Return (first, g), w') ->
  sublist g (preorder_all new).
Proof.
  unfold _updateLayers. intros H.
  apply bind_run_inv in H as ([] & w1 & _ & H).
  apply bind_run_inv in H as ([] & w2 & _ & H).
  apply bind_run_inv in H as ([] & w3 & H3 & H).
  apply bind_run_inv in H as (e1 & w4 & H4 & H).
  apply bind_run_inv in H as (e2 & w5 & H5 & H).
  apply bind_run_inv in H as (w6 & w7 & Hg & H).
  injection Hg as <- <-. injection H as _ <- _.
  rewrite (run_preserves same_generated _ _ _ _ same_generated__finalizeOldLayers H5).
  destruct (run_preserves _ _ _ _ _ (within_update_sublayers_loop new None) H4)
    as (g & E & S).
  rewrite E. injection H3 as <-. exact S.
Qed.

(** X28: whatever a call of [setLayers] does, the live list afterwards is
    either the one before the call or is taken, in the order of the walk,
    from the layers of the submitted array and their sublayers: no old
    layer object stays live unless it was submitted again. *)
Theorem X28_live_layers_from_submission (w : World) (r : nat) :
  let w' := after (setLayers r) w in
  layers (w_mgr w') = layers (w_mgr w) \/
  sublist (layers (w_mgr w'))
          (preorder_all (flatten (default [] (w_arrays w !! r)))).
Proof.
  intros w'. subst w'. unfold setLayers.
  rewrite (after_bind get _ w w w eq_refl).
  destruct (bool_decide (is_Some (viewport (mgr_context (w_mgr w))))); [|left; reflexivity].
  rewrite (after_bind (assert true _) _ w w tt eq_refl).
  destruct (Nat.eqb r (lastRenderedLayers (w_mgr w))); [left; reflexivity|].
  rewrite (after_bind (modify _) _ w _ tt eq_refl).
  set (new := flatten _). set (w0 := set_mgr _ w).
  assert (L1 : preserves same_live
                 (for_of new (fun layer => update_fields (l_oid layer) (set_context true)))).
  { apply preserves_for_of; [exact _|]. intros l. frame. }
  unfold after, bind.
  destruct (for_of new _ w0) as [[[]|e] w1] eqn:E1;
    [| left; exact (run_preserves same_live _ _ _ _ L1 E1)].
  pose proof (run_preserves same_live _ _ _ _ L1 E1) as S1.
  cbn [modify snd fst].
  set (w2 := set_mgr _ w1).
  destruct (_updateLayers (layers (w_mgr w)) new w2) as [[[first g]|e] w3] eqn:E3.
  - right. apply _updateLayers_generated in E3.
    destruct first as [e|]; exact E3.
  - left. cbn [snd].
    rewrite (run_preserves same_live _ _ _ _ (same_live__updateLayers _ _) E3).
    exact S1.
Qed.

End Walk.

(** ** Prop types *)

Module PropTypesFacts.

Import Picking PropTypes.

Lemma Math_max_upper (n : number) (b : Q) :
  n <> NaN -> num_le n (Math_max n (Finite b)) /\ num_le (Finite b) (Math_max n (Finite b)).
Proof.
  intros Hn. destruct n as [| | |q]; [contradiction| | |]; cbn.
  - split; [exact I | exact I].
  - split; [exact I | apply Qle_refl].
  - destruct (Qle_bool q b) eqn:E; cbn.
    + apply Qle_bool_iff in E. split; [exact E | apply Qle_refl].
    + split; [apply Qle_refl|]. apply Qlt_le_weak, Qnot_le_lt. intros H.
      apply Qle_bool_iff in H. congruence.
Qed.

Lemma Math_min_lower (n : number) (b : Q) :
  n <> NaN -> num_le (Math_min n (Finite b)) n /\ num_le (Math_min n (Finite b)) (Finite b).
Proof.
  intros Hn. destruct n as [| | |q]; [contradiction| | |]; cbn.
  - split; [exact I | apply Qle_refl].
  - split; [exact I | exact I].
  - destruct (Qle_bool q b) eqn:E; cbn.
    + apply Qle_bool_iff in E. split; [apply Qle_refl | exact E].
    + split; [|apply Qle_refl]. apply Qlt_le_weak, Qnot_le_lt. intros H.
      apply Qle_bool_iff in H. congruence.
Qed.

(** X29: for a property whose definition is a number other than [NaN],
    the prop type [parsePropType] guesses has that number as [value] and a
    range [min .. max] that holds the number and the interval from 0 to 1
    -- to 100 when the name is one of the known size-like names. *)
Theorem X29_guessed_number_range (name : string) (n : number) :
  n <> NaN ->
  exists propType lo hi,
    parsePropType name (VNumber n) = Returns propType /\
    member "type" propType = VString "number" /\
    member "value" propType = VNumber n /\
    member "min" propType = VNumber lo /\ member "max" propType = VNumber hi /\
    num_le lo n /\ num_le n hi /\
    num_le lo (Finite 0) /\ num_le (Finite 1) hi /\
    (isKnownProp name = true -> num_le (Finite 100) hi).
Proof.
  intros Hn. cbn [parsePropType]. unfold guessNumberType.
  eexists _, _, _. split; [reflexivity|].
  split; [reflexivity|]. split; [reflexivity|]. split; [reflexivity|]. split; [reflexivity|].
  destruct (Math_min_lower n 0 Hn) as [L1 L2].
  split; [exact L1|].
  destruct (isKnownProp name).
  - destruct (Math_max_upper n 100 Hn) as [U1 U2].
    split; [exact U1|]. split; [exact L2|]. split; [|intros _; exact U2].
    destruct (Math_max n (Finite 100)) as [| | |h]; cbn in *; try tauto.
    eapply Qle_trans; [|exact U2]. discriminate.
  - destruct (Math_max_upper n 1 Hn) as [U1 U2].
    split; [exact U1|]. split; [exact L2|]. split; [exact U2 | discriminate].
Qed.

Lemma X29_guessed_number_range_witness :
  exists propType,
    parsePropType "radiusScale" (VNumber (Finite 30)) = Returns propType /\
    member "max" propType = VNumber (Finite 100).
Proof.
  assert (Hn : Finite 30 <> NaN) by discriminate.
  destruct (X29_guessed_number_range "radiusScale" (Finite 30) Hn)
    as (propType & lo & hi & H & _).
  exists propType. split; [exact H|]. injection H as <-. reflexivity.
Defined.

Lemma js_in_Some (k : string) (o : object) (v : value) : o !! k = Some v -> js_in k o = true.
Proof. intros H. unfold js_in. apply bool_decide_eq_true_2. rewrite H. eexists. reflexivity. Qed.

Lemma js_in_None (k : string) (o : object) : o !! k = None -> js_in k o = false.
Proof.
  intros H. unfold js_in. apply bool_decide_eq_false_2. rewrite H. intros [x Hx]. discriminate.
Qed.

Lemma parsePropDefinition_returns (d propType : object) :
  parsePropDefinition d = Returns propType -> propType = d.
Proof.
  unfold parsePropDefinition. destruct (member "type" d) as [| | | |t| | | |];
    try discriminate; try (intros [= <-]; reflexivity).
  destruct (String.eqb t "number"); [|intros [= <-]; reflexivity].
  destruct (_ && _ && _); [intros [= <-]; reflexivity | discriminate].
Qed.

(** The [value] member of a parsed prop type is the default the
    definition stands for. *)
Lemma parsePropType_value (name : string) (propDef : value) (propType : object) :
  parsePropType name propDef = Returns propType ->
  member "value" propType = default_of propDef.
Proof.
  destruct propDef as [| |b|n|s|f|items|len|o]; cbn [parsePropType default_of];
    try (intros [= <-]; reflexivity).
  - unfold guessArrayType. intros [= <-]. destruct (_ && _); reflexivity.
  - unfold guessArrayType. intros [= <-]. destruct (_ && _); reflexivity.
  - intros H. apply parsePropDefinition_returns in H. subst propType.
    unfold normalizePropDefinition, Object_assign, member.
    destruct (o !! "type") as [t|] eqn:Ht.
    + rewrite (js_in_Some _ _ _ Ht). cbn [negb orb].
      destruct (o !! "value") as [v|] eqn:Hv.
      * rewrite (lookup_union_Some_l _ _ _ _ Hv), ?Hv. reflexivity.
      * rewrite (lookup_union_r _ _ _ Hv), ?Hv. reflexivity.
    + rewrite (js_in_None _ _ Ht). cbn [negb orb].
      destruct (o !! "value") as [v|] eqn:Hv.
      * rewrite (js_in_Some _ _ _ Hv). cbn [negb].
        rewrite (lookup_union_Some_l _ _ _ _ Hv), ?Hv. reflexivity.
      * rewrite (js_in_None _ _ Hv). reflexivity.
Qed.

Lemma parse_entries_spec (entries : list (string * value)) :
  NoDup entries.*1 ->
  (forall name propDef, (name, propDef) ∈ entries ->
     exists propType, parsePropType name propDef = Returns propType) ->
  forall propTypes defaultProps,
  exists propTypes' defaultProps',
    parse_entries entries propTypes defaultProps = Returns (propTypes', defaultProps') /\
    forall name,
      defaultProps' !! name =
        match (list_to_map entries : object) !! name with
        | Some propDef => Some (default_of propDef)
        | None => defaultProps !! name
        end /\
      (is_Some (propTypes' !! name) <->
       is_Some ((list_to_map entries : object) !! name) \/ is_Some (propTypes !! name)).
Proof.
  induction entries as [|[k d] rest IH]; intros Hnd Hall T D.
  - exists T, D. split; [reflexivity|]. intros name.
    cbn [list_to_map foldr]. rewrite lookup_empty.
    split; [reflexivity|]. split; [intros H; right; exact H|].
    intros [[x Hx]|H]; [discriminate | exact H].
  - cbn [fmap list_fmap fst] in Hnd. apply NoDup_cons in Hnd as [Hk Hnd].
    destruct (Hall k d) as [pt Hpt]; [left|].
    cbn [parse_entries]. rewrite Hpt.
    destruct (IH Hnd (fun n p H => Hall n p (list_elem_of_further _ _ _ H))
                 (<[k := VObject pt]> T) (<[k := member "value" pt]> D))
      as (T' & D' & Hrun & Hspec).
    exists T', D'. split; [exact Hrun|]. intros name.
    destruct (Hspec name) as [HD HT]. cbn [list_to_map foldr uncurry fst snd].
    destruct (decide (k = name)) as [<-|Hne].
    + rewrite lookup_insert_eq.
      assert (Hnone : (list_to_map rest : object) !! k = None)
        by (apply not_elem_of_list_to_map_1, Hk).
      rewrite Hnone, lookup_insert_eq in HD. rewrite Hnone, lookup_insert_eq in HT.
      split.
      * rewrite HD. f_equal. exact (parsePropType_value k d pt Hpt).
      * split; [intros _; left; eexists; reflexivity|].
        intros _. apply HT. right. eexists. reflexivity.
    + rewrite lookup_insert_ne by exact Hne.
      rewrite lookup_insert_ne in HD by exact Hne.
      rewrite lookup_insert_ne in HT by exact Hne.
      split; [exact HD | exact HT].
Qed.

(** X30: when every definition of [propDefs] parses, [parsePropTypes]
    returns, for exactly the names of [propDefs], a prop type and a default
    value: the [value] member of the definition when it is a definition
    object (one with a [type] or a [value] member), else the definition
    itself. *)
Theorem X30_parsePropTypes_defaults (propDefs : object) :
  (forall name propDef, propDefs !! name = Some propDef ->
     exists propType, parsePropType name propDef = Returns propType) ->
  exists propTypes defaultProps,
    parsePropTypes propDefs = Returns (propTypes, defaultProps) /\
    forall name,
      defaultProps !! name = default_of <$> propDefs !! name /\
      (is_Some (propTypes !! name) <-> is_Some (propDefs !! name)).
Proof.
  intros Hall. unfold parsePropTypes.
  destruct (parse_entries_spec (map_to_list propDefs) (NoDup_fst_map_to_list _)
              (fun n p H => Hall n p (proj1 (elem_of_map_to_list _ _ _) H)) ∅ ∅)
    as (T & D & Hrun & Hspec).
  exists T, D. split; [exact Hrun|]. intros name. destruct (Hspec name) as [HD HT].
  rewrite list_to_map_to_list in HD, HT. rewrite lookup_empty in HD, HT. split.
  - rewrite HD. destruct (propDefs !! name); reflexivity.
  - rewrite HT. split; [intros [H|[x Hx]]; [exact H | discriminate] | intros H; left; exact H].
Qed.

Lemma X30_parsePropTypes_defaults_witness :
  exists propTypes defaultProps,
    parsePropTypes {[ "opacity" := VObject {[ "value" := VNumber (Finite 1) ]} ]}
      = Returns (propTypes, defaultProps) /\
    defaultProps !! "opacity" = Some (VNumber (Finite 1)).
Proof.
  destruct (X30_parsePropTypes_defaults
              {[ "opacity" := VObject {[ "value" := VNumber (Finite 1) ]} ]})
    as (T & D & Hrun & Hspec).
  - intros name propDef H. apply lookup_singleton_Some in H as [<- <-].
    eexists. reflexivity.
  - exists T, D. split; [exact Hrun|]. rewrite (proj1 (Hspec "opacity")). reflexivity.
Defined.

End PropTypesFacts.

(* ===================================================================== *)
(** * Duplicate ids through a whole pass                                   *)
(* ===================================================================== *)

Section DuplicateOutput.

#[local] Existing Instance same_generated_preorder.
#[local] Existing Instance log_grows_preorder.
#[local] Existing Instance consumed_stay_preorder.

Local Hint Extern 1 (PreOrder _) => exact _ : frame.
Local Hint Extern 1 (preserves same_generated (log _)) => (intro; reflexivity) : frame.
Local Hint Extern 1 (preserves same_generated (update_istate _ _)) =>
  (intro; reflexivity) : frame.
Local Hint Extern 1 (preserves same_generated (update_fields _ _)) =>
  (intro; reflexivity) : frame.
Local Hint Extern 1 (preserves same_generated (mgr_setNeedsRedraw _)) =>
  (intro; reflexivity) : frame.
Local Hint Extern 2 (preserves same_generated (modify _)) => (intro; reflexivity) : frame.

Local Hint Extern 1 (preserves log_grows (log _)) =>
  (intro; eexists [_]; reflexivity) : frame.
Local Hint Extern 1 (preserves log_grows (update_istate _ _)) => (intro; exists []; exact (eq_sym (app_nil_r _))) : frame.
Local Hint Extern 1 (preserves log_grows (update_fields _ _)) => (intro; exists []; exact (eq_sym (app_nil_r _))) : frame.
Local Hint Extern 1 (preserves log_grows (mgr_setNeedsRedraw _)) => (intro; exists []; exact (eq_sym (app_nil_r _))) : frame.
Local Hint Extern 1 (preserves log_grows (modify _)) => (intro; exists []; exact (eq_sym (app_nil_r _))) : frame.

Local Hint Extern 1 (preserves consumed_stay (log _)) => (intro; intros ? H; exact H) : frame.
Local Hint Extern 1 (preserves consumed_stay (update_istate _ _)) => (intro; intros ? H; exact H) : frame.
Local Hint Extern 1 (preserves consumed_stay (update_fields _ _)) => (intro; intros ? H; exact H) : frame.
Local Hint Extern 1 (preserves consumed_stay (mgr_setNeedsRedraw _)) => (intro; intros ? H; exact H) : frame.
Local Hint Extern 2 (preserves consumed_stay (modify _)) => (intro; intros ? H; exact H) : frame.
































End DuplicateOutput.
